(** * FlexiMart ETL pipeline: a shallow embedding of [etl_pipeline.py]

    The development follows the layout of the source file:
    - text helpers of the Python string type ([strip], [title], [lower]);
    - table cells and data frames with an index of row labels, as pandas
      keeps them;
    - the utility functions of section 2 of the source;
    - the three cleaners, which work on frame objects held in a store of
      objects, because the source assigns to columns of the frame it was
      handed;
    - the sales decomposition, the quality report, the table loader and
      [main].

    Conventions of the model.
    - A cell is missing ([NaN], which also stands for Python's [None] inside
      a frame), a string, or a number.  Numbers are exact rationals; the
      rounding of machine floats is outside the model.
    - A column counts as text (pandas dtype [object]) when it holds a string.
    - Library calls whose result the source only passes on (date parsing,
      phone parsing, printing a number) are fields of the class [External].
    - [logger] calls are recorded for the loader, where the log is the only
      trace of a skipped load; elsewhere they have no effect on any value
      and are left out.
    - Writing a CSV artefact is taken to succeed. *)

From Stdlib Require Import String Ascii Bool Arith ZArith QArith Lia List.
From Stdlib Require Import DecimalString Sorted.
Import ListNotations.

Local Close Scope Q_scope.
Local Open Scope string_scope.
Local Open Scope list_scope.

Set Implicit Arguments.

(** ** Python string helpers (ASCII) *)

Module PyStr.

(** [str.isspace] on one ASCII character: tab to carriage return, the four
    separators 28 to 31, and the blank. *)
Definition is_space (c : ascii) : bool :=
  let n := nat_of_ascii c in
  (Nat.leb 9 n && Nat.leb n 13) || (Nat.leb 28 n && Nat.leb n 32).

Fixpoint lstrip (s : string) : string :=
  match s with
  | EmptyString => EmptyString
  | String c s' => if is_space c then lstrip s' else s
  end.

Fixpoint rstrip (s : string) : string :=
  match s with
  | EmptyString => EmptyString
  | String c s' =>
      match rstrip s' with
      | EmptyString => if is_space c then EmptyString else String c EmptyString
      | t => String c t
      end
  end.

(** [s.strip()] *)
Definition strip (s : string) : string := rstrip (lstrip s).

Definition is_upper (c : ascii) : bool :=
  let n := nat_of_ascii c in Nat.leb 65 n && Nat.leb n 90.

Definition is_lower (c : ascii) : bool :=
  let n := nat_of_ascii c in Nat.leb 97 n && Nat.leb n 122.

Definition to_lower (c : ascii) : ascii :=
  if is_upper c then ascii_of_nat (nat_of_ascii c + 32) else c.

Definition to_upper (c : ascii) : ascii :=
  if is_lower c then ascii_of_nat (nat_of_ascii c - 32) else c.

(** [s.lower()] *)
Fixpoint lower (s : string) : string :=
  match s with
  | EmptyString => EmptyString
  | String c s' => String (to_lower c) (lower s')
  end.

(** [s.title()]: a letter that follows a letter is lowered, a letter that
    follows anything else is raised. *)
Fixpoint title_from (prev_cased : bool) (s : string) : string :=
  match s with
  | EmptyString => EmptyString
  | String c s' =>
      if is_upper c || is_lower c
      then String (if prev_cased then to_lower c else to_upper c)
                  (title_from true s')
      else String c (title_from false s')
  end.

Definition title (s : string) : string := title_from false s.

(** [sub in s] *)
Fixpoint contains (sub s : string) : bool :=
  prefix sub s ||
  match s with
  | EmptyString => false
  | String _ s' => contains sub s'
  end.

(** [s[1:]] *)
Definition drop_first (s : string) : string :=
  match s with
  | EmptyString => EmptyString
  | String _ s' => s'
  end.

(** [s[-n:]] for a positive [n] *)
Definition last_chars (n : nat) (s : string) : string :=
  substring (String.length s - n) n s.

(** [str(z)] for an integer *)
Definition of_int (z : Z) : string := NilZero.string_of_int (Z.to_int z).

End PyStr.

(** ** Cells and data frames *)

Inductive Cell : Type :=
| NaN
| Str (s : string)
| Num (q : Q).

(** [pd.isna] / [pd.isnull] on a scalar *)
Definition isna (c : Cell) : bool :=
  match c with NaN => true | _ => false end.

Definition is_str (c : Cell) : bool :=
  match c with Str _ => true | _ => false end.

(** Equality of cells as pandas compares them when it looks for duplicates:
    two missing cells are equal, numbers are compared by value. *)
Definition cell_eqb (a b : Cell) : bool :=
  match a, b with
  | NaN, NaN => true
  | Str s, Str t => String.eqb s t
  | Num p, Num q => Qeq_bool p q
  | _, _ => false
  end.

Fixpoint cells_eqb (a b : list Cell) : bool :=
  match a, b with
  | [], [] => true
  | x :: a', y :: b' => cell_eqb x y && cells_eqb a' b'
  | _, _ => false
  end.

(** A frame: the column names, and the rows in order, each with its index
    label.  [pd.read_csv] labels the rows 0, 1, 2, ...; dropping rows keeps
    the labels of the rows that stay. *)
Record DataFrame : Type := mkDF {
  columns : list string;
  rows : list (Z * list Cell)
}.

(** [pd.DataFrame()] *)
Definition empty_frame : DataFrame := mkDF [] [].

(** [df.empty]: no rows or no columns *)
Definition df_empty (df : DataFrame) : bool :=
  match rows df, columns df with
  | [], _ => true
  | _, [] => true
  | _, _ => false
  end.

(** [len(df)] *)
Definition df_len (df : DataFrame) : nat := length (rows df).

(** What [pd.read_csv] returns for the given header and records. *)
Fixpoint label_from (z : Z) (recs : list (list Cell)) : list (Z * list Cell) :=
  match recs with
  | [] => []
  | r :: rs => (z, r) :: label_from (z + 1) rs
  end.

Definition read_csv (header : list string) (recs : list (list Cell)) : DataFrame :=
  mkDF header (label_from 0 recs).

(** Result of a computation that may raise. *)
Inductive Res (A : Type) : Type :=
| Ok (a : A)
| Raised.
Arguments Raised {A}.

Definition rbind {A B} (x : Res A) (k : A -> Res B) : Res B :=
  match x with
  | Ok a => k a
  | Raised => Raised
  end.

Fixpoint col_pos (c : string) (cs : list string) : option nat :=
  match cs with
  | [] => None
  | x :: xs => if String.eqb c x then Some 0%nat else option_map S (col_pos c xs)
  end.

(** The cell of a row at a column position; a short row reads as missing. *)
Definition cell (n : nat) (r : list Cell) : Cell := nth n r NaN.

Fixpoint set_at (n : nat) (v : Cell) (r : list Cell) : list Cell :=
  match n, r with
  | O, [] => [v]
  | O, _ :: r' => v :: r'
  | S n', [] => NaN :: set_at n' v []
  | S n', x :: r' => x :: set_at n' v r'
  end.

(** [df[c]]: the column as a list of cells; [KeyError] when absent. *)
Definition getitem (c : string) (df : DataFrame) : Res (list Cell) :=
  match col_pos c (columns df) with
  | Some n => Ok (map (fun r => cell n (snd r)) (rows df))
  | None => Raised
  end.

Fixpoint assign_cells (n : nat) (rs : list (Z * list Cell)) (vs : list Cell)
  : list (Z * list Cell) :=
  match rs, vs with
  | (l, r) :: rs', v :: vs' => (l, set_at n v r) :: assign_cells n rs' vs'
  | _, _ => rs
  end.

(** [df[c] = vs]: replaces the column, or appends it when it is new. *)
Definition setitem (c : string) (vs : list Cell) (df : DataFrame) : DataFrame :=
  match col_pos c (columns df) with
  | Some n => mkDF (columns df) (assign_cells n (rows df) vs)
  | None => mkDF (columns df ++ [c])
                 (assign_cells (length (columns df)) (rows df) vs)
  end.

(** [df[c] = df[c].apply(f)] *)
Definition apply_col (c : string) (f : Cell -> Cell) (df : DataFrame) : Res DataFrame :=
  rbind (getitem c df) (fun vs => Ok (setitem c (map f vs) df)).

Fixpoint positions (cs : list string) (header : list string) : Res (list nat) :=
  match cs with
  | [] => Ok []
  | c :: cs' =>
      match col_pos c header with
      | Some n => rbind (positions cs' header) (fun ns => Ok (n :: ns))
      | None => Raised
      end
  end.

(** [df[[c1, ..., ck]]] *)
Definition project (cs : list string) (df : DataFrame) : Res DataFrame :=
  rbind (positions cs (columns df)) (fun ns =>
    Ok (mkDF cs (map (fun r => (fst r, map (fun n => cell n (snd r)) ns)) (rows df)))).

(** Rows that are not equal, under [same], to a row that comes before them:
    the rows pandas does not flag as [duplicated]. *)
Fixpoint keep_first (A : Type) (same : A -> A -> bool) (seen l : list A) : list A :=
  match l with
  | [] => []
  | x :: xs =>
      if existsb (same x) seen then keep_first same (x :: seen) xs
      else x :: keep_first same (x :: seen) xs
  end.

Definition same_key (ns : list nat) (a b : Z * list Cell) : bool :=
  cells_eqb (map (fun n => cell n (snd a)) ns) (map (fun n => cell n (snd b)) ns).

(** [df.drop_duplicates(subset=cs)], first occurrence kept *)
Definition drop_duplicates (cs : list string) (df : DataFrame) : Res DataFrame :=
  rbind (positions cs (columns df)) (fun ns =>
    Ok (mkDF (columns df) (keep_first (same_key ns) [] (rows df)))).

Definition all_positions (df : DataFrame) : list nat := seq 0 (length (columns df)).

(** [df.drop_duplicates()] over all columns *)
Definition drop_duplicates_all (df : DataFrame) : DataFrame :=
  mkDF (columns df) (keep_first (same_key (all_positions df)) [] (rows df)).

(** [df.duplicated()]: the mask of rows equal to an earlier row *)
Fixpoint duplicated_from (A : Type) (same : A -> A -> bool) (seen l : list A) : list bool :=
  match l with
  | [] => []
  | x :: xs => existsb (same x) seen :: duplicated_from same (x :: seen) xs
  end.

Definition duplicated (df : DataFrame) : list bool :=
  duplicated_from (same_key (all_positions df)) [] (rows df).

(** [df.dropna(subset=[c])] *)
Definition dropna (c : string) (df : DataFrame) : Res DataFrame :=
  match col_pos c (columns df) with
  | Some n => Ok (mkDF (columns df)
                       (filter (fun r => negb (isna (cell n (snd r)))) (rows df)))
  | None => Raised
  end.

(** [df.dropna()]: rows with a missing cell in any column go *)
Definition dropna_all (df : DataFrame) : DataFrame :=
  mkDF (columns df)
       (filter (fun r => forallb (fun n => negb (isna (cell n (snd r)))) (all_positions df))
               (rows df)).

(** [df.rename(columns={old: new})] *)
Definition rename (old new : string) (df : DataFrame) : DataFrame :=
  mkDF (map (fun c => if String.eqb c old then new else c) (columns df)) (rows df).

(** [df.isnull().sum().sum()] *)
Definition count_null (df : DataFrame) : nat :=
  list_sum (map (fun r => length (filter isna (map (fun n => cell n (snd r)) (all_positions df))))
                (rows df)).

(** Text columns: [df.select_dtypes(include=['object']).columns] *)
Definition is_object_col (df : DataFrame) (n : nat) : bool :=
  existsb (fun r => is_str (cell n (snd r))) (rows df).

(** An element of [series.str.<method>()]: a string is transformed, anything
    else comes out missing. *)
Definition str_method (f : string -> string) (c : Cell) : Cell :=
  match c with
  | Str s => Str (f s)
  | _ => NaN
  end.

Notation "'let?' x ':=' e 'in' k" := (rbind e (fun x => k))
  (at level 10, x name, e at level 100, k at level 200).

(** [series.str.<method>()] on a whole column.  The accessor exists on text
    columns only: a column with rows and no string in it raises. *)
Definition str_accessor (f : string -> string) (vs : list Cell) : Res (list Cell) :=
  match vs with
  | [] => Ok []
  | _ => if existsb is_str vs then Ok (map (str_method f) vs) else Raised
  end.

(** Element-wise product of two columns; missing operands give a missing
    product, a text operand is rejected. *)
Definition mul_cell (a b : Cell) : Res Cell :=
  match a, b with
  | Num p, Num q => Ok (Num (Qmult p q))
  | Str _, _ | _, Str _ => Raised
  | _, _ => Ok NaN
  end.

Fixpoint mul_series (xs ys : list Cell) : Res (list Cell) :=
  match xs, ys with
  | x :: xs', y :: ys' =>
      let? v := mul_cell x y in
      let? vs := mul_series xs' ys' in
      Ok (v :: vs)
  | _, _ => Ok []
  end.

(** *** Median of a column and [fillna] *)

Fixpoint insert_sorted (x : Q) (l : list Q) : list Q :=
  match l with
  | [] => [x]
  | y :: ys => if Qle_bool x y then x :: l else y :: insert_sorted x ys
  end.

Definition sort_numbers (l : list Q) : list Q := fold_right insert_sorted [] l.

Definition numbers (vs : list Cell) : list Q :=
  flat_map (fun c => match c with Num q => [q] | _ => [] end) vs.

(** [series.median()]: missing cells are skipped; no number at all gives a
    missing median; a text column raises. *)
Definition median (vs : list Cell) : Res Cell :=
  if existsb is_str vs then Raised
  else
    let s := sort_numbers (numbers vs) in
    let n := length s in
    match n with
    | O => Ok NaN
    | _ =>
        if Nat.even n
        then Ok (Num (Qred (Qdiv (Qplus (nth (n / 2 - 1) s 0%Q) (nth (n / 2) s 0%Q))
                                 (2 # 1))))
        else Ok (Num (nth (n / 2) s 0%Q))
    end.

(** [series.fillna(v)] *)
Definition fillna (v : Cell) (vs : list Cell) : list Cell :=
  map (fun c => if isna c then v else c) vs.

(** ** Library calls the source relies on *)

Class External : Type := {
  (** [str(x)] for a number held in a cell *)
  str_of_number : Q -> string;
  (** [datetime.strptime(text, fmt).strftime('%Y-%m-%d')], [None] when
      [strptime] raises *)
  strptime_iso : string -> string -> option string;
  (** [pd.to_datetime(x, errors='coerce', dayfirst=False).strftime('%Y-%m-%d')],
      [None] when it raises *)
  to_datetime_iso : Cell -> option string;
  (** [phonenumbers.parse(x, "IN")] as (country code, national number),
      [None] when it raises *)
  phonenumbers_parse : Cell -> option (Z * Z);
  (** [phonenumbers.is_valid_number] *)
  is_valid_number : Z * Z -> bool
}.

(** ** The store of frame objects

    A Python variable holds a reference to a frame.  [df[c] = ...] changes
    the object every holder of the reference sees; [drop_duplicates],
    [dropna], [df[[...]]] and [copy] build a new object. *)

Definition ref : Type := nat.
Definition Heap : Type := list DataFrame.

Definition M (A : Type) : Type := Heap -> Res A * Heap.

Definition ret {A} (a : A) : M A := fun h => (Ok a, h).

Definition bind {A B} (m : M A) (k : A -> M B) : M B :=
  fun h => match m h with
           | (Ok a, h') => k a h'
           | (Raised, h') => (Raised, h')
           end.

(** [try: m  except Exception: handler] *)
Definition try_except {A} (m handler : M A) : M A :=
  fun h => match m h with
           | (Ok a, h') => (Ok a, h')
           | (Raised, h') => handler h'
           end.

Notation "x <- m ;; k" := (bind m (fun x => k))
  (at level 61, m at next level, right associativity).
Notation "m ;; k" := (bind m (fun _ => k))
  (at level 61, right associativity).

Fixpoint replace_nth (A : Type) (n : nat) (x : A) (l : list A) : list A :=
  match n, l with
  | _, [] => []
  | O, _ :: l' => x :: l'
  | S n', y :: l' => y :: replace_nth n' x l'
  end.

Definition read (r : ref) : M DataFrame :=
  fun h => match nth_error h r with
           | Some d => (Ok d, h)
           | None => (Raised, h)
           end.

Definition write (r : ref) (d : DataFrame) : M unit :=
  fun h => (Ok tt, replace_nth r d h).

Definition alloc (d : DataFrame) : M ref :=
  fun h => (Ok (length h), h ++ [d]).

Definition lift {A} (x : Res A) : M A := fun h => (x, h).

(** One assignment statement that changes the object behind [r]; when the
    right-hand side raises, the object is left as it was. *)
Definition inplace (r : ref) (f : DataFrame -> Res DataFrame) : M unit :=
  d <- read r ;; d' <- lift (f d) ;; write r d'.

(** One statement that builds a new object from the one behind [r]. *)
Definition fresh (r : ref) (f : DataFrame -> Res DataFrame) : M ref :=
  d <- read r ;; d' <- lift (f d) ;; alloc d'.

Fixpoint for_each (A : Type) (l : list A) (body : A -> M unit) : M unit :=
  match l with
  | [] => ret tt
  | x :: xs => body x ;; for_each xs body
  end.

(** ** Section 2 of the source: utility functions *)

Section Utilities.

Context {ext : External}.

(** [str(x)] / [f"{x}"] of a cell *)
Definition py_str (c : Cell) : string :=
  match c with
  | NaN => "nan"
  | Str s => s
  | Num q => str_of_number q
  end.

Definition remove_first_char (val : Cell) : Cell :=
  if isna val then NaN else Str (PyStr.drop_first (py_str val)).

Definition object_columns (d : DataFrame) : list string :=
  map fst (filter (fun cn => is_object_col d (snd cn))
                  (combine (columns d) (all_positions d))).

Definition trim_str_cols (df : ref) : M ref :=
  try_except
    (d <- read df ;;
     for_each (object_columns d)
              (fun col => inplace df (fun d =>
                 let? vs := getitem col d in
                 let? ws := str_accessor PyStr.strip vs in
                 Ok (setitem col ws d))) ;;
     ret df)
    (ret df).

Definition standardize_phone (phone : Cell) : Cell :=
  match phonenumbers_parse phone with
  | Some (cc, national) =>
      if is_valid_number (cc, national)
      then Str ("+" ++ PyStr.of_int cc ++ "-"
                    ++ PyStr.last_chars 10 (PyStr.of_int national))
      else NaN
  | None => NaN
  end.

Definition standardize_category (cat : Cell) : Cell :=
  match cat with
  | NaN => NaN
  | Str s =>
      let cat := PyStr.lower (PyStr.strip s) in
      if PyStr.contains "electronic" cat then Str "Electronics"
      else if PyStr.contains "fashion" cat then Str "Fashion"
      else if PyStr.contains "grocer" cat then Str "Groceries"
      else Str (PyStr.title cat)
  | Num _ => NaN
  end.

Definition date_formats : list string :=
  ["%Y-%m-%d"; "%d/%m/%Y"; "%m-%d-%Y"; "%d-%m-%Y"; "%m/%d/%Y"].

Fixpoint first_format (text : string) (fmts : list string) : option string :=
  match fmts with
  | [] => None
  | fmt :: fmts' =>
      match strptime_iso text fmt with
      | Some d => Some d
      | None => first_format text fmts'
      end
  end.

Definition standardize_date (date_str : Cell) : Cell :=
  match (match date_str with
         | Str s => first_format s date_formats
         | _ => None
         end) with
  | Some d => Str d
  | None =>
      match to_datetime_iso date_str with
      | Some d => Str d
      | None => NaN
      end
  end.

Definition clean_spaces (val : Cell) : Cell :=
  match val with
  | Str s => Str (PyStr.strip s)
  | _ => val
  end.

(** [df[c] = df[c].fillna(df[c].median())] *)
Definition fill_with_median (c : string) (d : DataFrame) : Res DataFrame :=
  let? vs := getitem c d in
  let? m := median vs in
  Ok (setitem c (fillna m vs) d).

Definition fill_missing_product_data_with_median (df : ref) : M ref :=
  try_except
    (inplace df (fill_with_median "price") ;;
     inplace df (fill_with_median "stock_quantity") ;;
     ret df)
    (ret df).

(** The lambda of [fill_missing_email], on one row.  [row['customer_id']]
    is looked up only when the email is missing. *)
Definition email_or_placeholder (header : list string) (row : list Cell) : Res Cell :=
  match col_pos "email" header with
  | None => Raised
  | Some ne =>
      let email := cell ne row in
      if isna email || cell_eqb email (Str "")
      then match col_pos "customer_id" header with
           | None => Raised
           | Some nc => Ok (Str ("unknown_email_" ++ py_str (cell nc row)))
           end
      else Ok email
  end.

Fixpoint apply_rows (f : list Cell -> Res Cell) (rs : list (Z * list Cell))
  : Res (list Cell) :=
  match rs with
  | [] => Ok []
  | r :: rs' =>
      let? v := f (snd r) in
      let? vs := apply_rows f rs' in
      Ok (v :: vs)
  end.

Definition fill_missing_email (customers_df : ref) : M ref :=
  try_except
    (inplace customers_df (fun d =>
       let? vs := apply_rows (email_or_placeholder (columns d)) (rows d) in
       Ok (setitem "email" vs d)) ;;
     ret customers_df)
    (ret customers_df).

End Utilities.

(** ** Section 4 of the source: the cleaners *)

Section Cleaners.

Context {ext : External}.

(** [df[c] = df[c].str.title()] *)
Definition title_col (c : string) (d : DataFrame) : Res DataFrame :=
  let? vs := getitem c d in
  let? ws := str_accessor PyStr.title vs in
  Ok (setitem c ws d).

Definition customer_columns : list string :=
  ["customer_id"; "first_name"; "last_name"; "email"; "phone"; "city";
   "registration_date"].

(** The result is the reference the function returns, or [None] for
    Python's [None]: the handler of the source logs, prints and falls off
    the end of the function. *)
Definition clean_customers (customers_df : ref) : M (option ref) :=
  try_except
    (inplace customers_df (apply_col "customer_id" remove_first_char) ;;
     customers_df <- trim_str_cols customers_df ;;
     customers_df <- fresh customers_df (drop_duplicates ["customer_id"]) ;;
     customers_df <- fill_missing_email customers_df ;;
     inplace customers_df (apply_col "phone" standardize_phone) ;;
     inplace customers_df (title_col "city") ;;
     inplace customers_df (apply_col "registration_date" standardize_date) ;;
     customers_df <- trim_str_cols customers_df ;;
     out <- fresh customers_df (project customer_columns) ;;
     ret (Some out))
    (ret None).

Definition product_columns : list string :=
  ["product_id"; "product_name"; "category"; "price"; "stock_quantity"].

Definition clean_products (products_df : ref) : M (option ref) :=
  try_except
    (inplace products_df (apply_col "product_id" remove_first_char) ;;
     products_df <- trim_str_cols products_df ;;
     products_df <- fresh products_df (drop_duplicates ["product_id"]) ;;
     products_df <- fill_missing_product_data_with_median products_df ;;
     inplace products_df (apply_col "category" standardize_category) ;;
     inplace products_df (apply_col "product_name" clean_spaces) ;;
     products_df <- trim_str_cols products_df ;;
     out <- fresh products_df (project product_columns) ;;
     ret (Some out))
    (ret None).

(** The handler of [clean_sales] returns [pd.DataFrame()]. *)
Definition clean_sales (sales_df : ref) : M ref :=
  try_except
    (inplace sales_df (apply_col "customer_id" remove_first_char) ;;
     inplace sales_df (apply_col "product_id" remove_first_char) ;;
     inplace sales_df (apply_col "transaction_id" remove_first_char) ;;
     sales_df <- trim_str_cols sales_df ;;
     sales_df <- fresh sales_df (drop_duplicates ["transaction_id"]) ;;
     sales_df <- fresh sales_df (dropna "customer_id") ;;
     sales_df <- fresh sales_df (dropna "product_id") ;;
     inplace sales_df (apply_col "transaction_date" standardize_date) ;;
     ret sales_df)
    (alloc empty_frame).

End Cleaners.

(** ** The sales decomposition

    Both functions start with [sales_clean.copy()], so they work on a value
    of their own and return a new frame; the CSV artefact they write holds
    the returned frame. *)

Definition order_columns : list string :=
  ["order_id"; "customer_id"; "transaction_date"; "total_amount"; "status"].

Definition split_sales_to_orders (sales_clean : DataFrame) : DataFrame :=
  match (let df := sales_clean in
         let? tid := getitem "transaction_id" df in
         let df := setitem "order_id" tid df in
         let? qty := getitem "quantity" df in
         let? price := getitem "unit_price" df in
         let? total := mul_series qty price in
         let df := setitem "total_amount" total df in
         let? orders := project order_columns df in
         let orders := drop_duplicates_all orders in
         Ok (rename "transaction_date" "order_date" orders))
  with
  | Ok orders => orders
  | Raised => empty_frame
  end.

Definition order_item_columns : list string :=
  ["order_item_id"; "transaction_id"; "product_id"; "quantity"; "unit_price";
   "subtotal"].

(** [order_items.index + 1] *)
Definition index_plus_one (d : DataFrame) : list Cell :=
  map (fun r => Num (inject_Z (fst r + 1))) (rows d).

Definition split_sales_to_order_items (sales_clean : DataFrame) : DataFrame :=
  match (let order_items := sales_clean in
         let order_items := setitem "order_item_id" (index_plus_one order_items)
                                    order_items in
         let? qty := getitem "quantity" order_items in
         let? price := getitem "unit_price" order_items in
         let? subtotal := mul_series qty price in
         let order_items := setitem "subtotal" subtotal order_items in
         let? order_items := project order_item_columns order_items in
         Ok (rename "transaction_id" "order_id" order_items))
  with
  | Ok order_items => order_items
  | Raised => empty_frame
  end.

(** ** The quality report *)

Record QualityReport : Type := mkReport {
  report_file : string;
  records_processed : nat;
  duplicates_removed : nat;
  missing_values_handled : nat;
  records_loaded_successfully : nat
}.

Definition generate_quality_report (df : DataFrame) (file_name : string)
  : QualityReport :=
  let cleaned_df :=
    if String.eqb file_name "customers_raw.csv" || String.eqb file_name "products_raw.csv"
    then drop_duplicates_all df
    else dropna_all (drop_duplicates_all df) in
  mkReport file_name
           (df_len df)
           (length (filter (fun b : bool => b) (duplicated df)))
           (count_null df)
           (df_len cleaned_df).

(** The entries written to [data_quality_report.txt], in order. *)
Definition write_data_quality_report (customers products sales_raw : DataFrame)
  : list QualityReport :=
  [generate_quality_report customers "customers_raw.csv";
   generate_quality_report products "products_raw.csv";
   generate_quality_report sales_raw "sales_raw.csv"].

(** ** Section 5 of the source: loading into the relational store *)

Inductive Table : Type := Customers | Products | Orders | OrderItems.

Definition table_name (t : Table) : string :=
  match t with
  | Customers => "customers"
  | Products => "products"
  | Orders => "orders"
  | OrderItems => "order_items"
  end.

(** The committed content of the four tables.  The model starts where the
    schema exists, so [CREATE TABLE IF NOT EXISTS] leaves a store as it is. *)
Record Store : Type := mkStore {
  customers_rows : list (list Cell);
  products_rows : list (list Cell);
  orders_rows : list (list Cell);
  order_items_rows : list (list Cell)
}.

Definition get_table (t : Table) (s : Store) : list (list Cell) :=
  match t with
  | Customers => customers_rows s
  | Products => products_rows s
  | Orders => orders_rows s
  | OrderItems => order_items_rows s
  end.

Definition set_table (t : Table) (rs : list (list Cell)) (s : Store) : Store :=
  match t with
  | Customers => mkStore rs (products_rows s) (orders_rows s) (order_items_rows s)
  | Products => mkStore (customers_rows s) rs (orders_rows s) (order_items_rows s)
  | Orders => mkStore (customers_rows s) (products_rows s) rs (order_items_rows s)
  | OrderItems => mkStore (customers_rows s) (products_rows s) (orders_rows s) rs
  end.

Inductive Statement : Type :=
| DeleteFrom (t : Table)
| InsertInto (t : Table) (data : list (list Cell))
| Commit.

(** What the server does with a statement inside the open transaction. *)
Definition run_statement (st : Statement) (w : Store) : Store :=
  match st with
  | DeleteFrom t => set_table t [] w
  | InsertInto t data => set_table t (get_table t w ++ data) w
  | Commit => w
  end.

(** The behaviour of the database during a run: whether
    [get_db_connection] returns a connection while a given table is being
    loaded, and whether the server accepts a statement of that load (a
    constraint or data failure is a statement it refuses). *)
Record DbEnv : Type := mkEnv {
  connects : Table -> bool;
  executes : Table -> Statement -> bool
}.

Inductive Event : Type :=
| LogInfo (msg : string)
| LogError (msg : string)
| GetConnection (load : Table) (connected : bool)
| CreateAllTables
| Executed (load : Table) (st : Statement)
| Refused (load : Table) (st : Statement)
| Closed (load : Table).

(** Statements run one after the other on the working copy of the
    transaction; the first refusal raises. *)
Fixpoint execute_all (env : DbEnv) (load : Table) (stmts : list Statement) (w : Store)
  : Res Store * list Event :=
  match stmts with
  | [] => (Ok w, [])
  | st :: rest =>
      if executes env load st
      then let (r, ev) := execute_all env load rest (run_statement st w) in
           (r, Executed load st :: ev)
      else (Raised, [Refused load st])
  end.

(** [df] is [None] for Python's [None].  The store returned is the committed
    one: a load that raises before [conn.commit()] closes the connection with
    its deletes uncommitted, which the server discards. *)
Definition load_data_to_table (env : DbEnv) (df : option DataFrame) (table : Table)
           (cols : list string) (delete_queries : list Table) (db : Store)
  : Store * list Event :=
  let skip :=
    (db, [LogError (table_name table ++ " DataFrame is empty or None. Aborting load.")]) in
  match df with
  | None => skip
  | Some d =>
      if df_empty d then skip
      else if negb (connects env table)
      then (db, [GetConnection table false;
                 LogError "Failed to establish database connection."])
      else
        let opened :=
          GetConnection table true
          :: (match table with Customers => [CreateAllTables] | _ => [] end)
          ++ [LogInfo ("Deleting existing data from " ++ table_name table
                       ++ " table before loading new data.")] in
        let (r1, ev1) := execute_all env table (map DeleteFrom delete_queries) db in
        match r1 with
        | Raised =>
            (db, opened ++ ev1
                 ++ [LogError ("Error loading " ++ table_name table); Closed table])
        | Ok w1 =>
            match project cols d with
            | Raised =>
                (db, opened ++ ev1
                     ++ [LogError ("Unexpected error loading " ++ table_name table);
                         Closed table])
            | Ok p =>
                let data := map snd (rows p) in
                let (r2, ev2) :=
                  execute_all env table [InsertInto table data; Commit] w1 in
                match r2 with
                | Raised =>
                    (db, opened ++ ev1
                         ++ [LogInfo ("Inserting data into " ++ table_name table ++ " table.")]
                         ++ ev2
                         ++ [LogError ("Error loading " ++ table_name table); Closed table])
                | Ok w2 =>
                    (w2, opened ++ ev1
                         ++ [LogInfo ("Inserting data into " ++ table_name table ++ " table.")]
                         ++ ev2
                         ++ [LogInfo (table_name table ++ " data loaded successfully.");
                             Closed table])
                end
            end
        end
  end.

Definition load_data_to_customers_db (env : DbEnv) (customers_df : option DataFrame)
  : Store -> Store * list Event :=
  load_data_to_table env customers_df Customers customer_columns
                     [OrderItems; Orders; Customers].

Definition load_data_to_products_db (env : DbEnv) (products_df : option DataFrame)
  : Store -> Store * list Event :=
  load_data_to_table env products_df Products product_columns
                     [OrderItems; Products].

Definition load_data_to_orders_db (env : DbEnv) (orders_df : option DataFrame)
  : Store -> Store * list Event :=
  load_data_to_table env orders_df Orders
                     ["order_id"; "customer_id"; "order_date"; "total_amount"; "status"]
                     [Orders].

Definition load_data_to_order_items_db (env : DbEnv) (order_items_df : option DataFrame)
  : Store -> Store * list Event :=
  load_data_to_table env order_items_df OrderItems
                     ["order_item_id"; "order_id"; "product_id"; "quantity";
                      "unit_price"; "subtotal"]
                     [OrderItems].

(** ** The pipeline *)

(** What [extract_raw_data_from_csv] hands to [main]: one frame per file,
    [pd.DataFrame()] for a file that could not be read. *)
Record RawData : Type := mkRaw {
  raw_customers : DataFrame;
  raw_products : DataFrame;
  raw_sales : DataFrame
}.

Record Run : Type := mkRun {
  run_customers_clean : option DataFrame;
  run_products_clean : option DataFrame;
  run_sales_clean : DataFrame;
  run_orders : DataFrame;
  run_order_items : DataFrame;
  run_store : Store;
  run_events : list Event;
  run_report : list QualityReport
}.

Section Pipeline.

Context {ext : External}.

Definition extract_raw_data_from_csv (files : RawData) : M (ref * ref * ref) :=
  c <- alloc (raw_customers files) ;;
  p <- alloc (raw_products files) ;;
  s <- alloc (raw_sales files) ;;
  ret (c, p, s).

(** The value behind a variable that holds a frame or [None]. *)
Definition read_opt (r : option ref) : M (option DataFrame) :=
  match r with
  | None => ret None
  | Some r' => d <- read r' ;; ret (Some d)
  end.

Definition main (env : DbEnv) (files : RawData) (db : Store) : M Run :=
  extracted <- extract_raw_data_from_csv files ;;
  let '(customers, products, sales) := extracted in
  customers_clean <- clean_customers customers ;;
  products_clean <- clean_products products ;;
  sales_clean <- clean_sales sales ;;
  sales_clean_v <- read sales_clean ;;
  let orders := split_sales_to_orders sales_clean_v in
  let order_items := split_sales_to_order_items sales_clean_v in
  customers_clean_v <- read_opt customers_clean ;;
  products_clean_v <- read_opt products_clean ;;
  let (db1, ev1) := load_data_to_customers_db env customers_clean_v db in
  let (db2, ev2) := load_data_to_products_db env products_clean_v db1 in
  let (db3, ev3) := load_data_to_orders_db env (Some orders) db2 in
  let (db4, ev4) := load_data_to_order_items_db env (Some order_items) db3 in
  customers_v <- read customers ;;
  products_v <- read products ;;
  sales_v <- read sales ;;
  let report := write_data_quality_report customers_v products_v sales_v in
  ret (mkRun customers_clean_v products_clean_v sales_clean_v orders order_items
             db4 (ev1 ++ ev2 ++ ev3 ++ ev4) report).

(** One run of the program, on an object store of its own. *)
Definition run_main (env : DbEnv) (files : RawData) (db : Store) : Res Run :=
  fst (main env files db []).

End Pipeline.

(** ** A stand-in for the libraries, to run the model on sample data

    Dates already written [YYYY-MM-DD] are accepted under the first format
    and nothing else parses; no phone number validates; a number prints as
    its integer numerator. *)

Module Sample.

Definition is_digit (c : ascii) : bool :=
  let n := nat_of_ascii c in Nat.leb 48 n && Nat.leb n 57.

Fixpoint iso_shape (pos : nat) (s : string) : bool :=
  match s with
  | EmptyString => Nat.eqb pos 10
  | String c s' =>
      (if Nat.eqb pos 4 || Nat.eqb pos 7 then Ascii.eqb c "-" else is_digit c)
      && iso_shape (S pos) s'
  end.

Definition libraries : External := {|
  str_of_number q := PyStr.of_int (Qnum q);
  strptime_iso text fmt :=
    if String.eqb fmt "%Y-%m-%d" && iso_shape 0 text then Some text else None;
  to_datetime_iso _ := None;
  phonenumbers_parse _ := None;
  is_valid_number _ := false
|}.

Definition always_up : DbEnv := mkEnv (fun _ => true) (fun _ _ => true).
Definition always_down : DbEnv := mkEnv (fun _ => false) (fun _ _ => true).

Definition empty_store : Store := mkStore [] [] [] [].

Definition sales_header : list string :=
  ["transaction_id"; "customer_id"; "product_id"; "quantity"; "unit_price";
   "transaction_date"; "status"].

Definition n (z : Z) : Cell := Num (inject_Z z).

(** Three sales lines, the first without a customer. *)
Definition sales_first_dropped : DataFrame :=
  read_csv sales_header
    [[Str "T000"; NaN; Str "P001"; n 5; n 10; Str "2024-01-01"; Str "Completed"];
     [Str "T001"; Str "C001"; Str "P001"; n 2; n 50; Str "2024-01-02"; Str "Completed"];
     [Str "T002"; Str "C002"; Str "P002"; n 1; n 20; Str "2024-01-03"; Str "Pending"]].


(** Two lines, nothing to drop. *)
Definition sales_two : DataFrame :=
  read_csv sales_header
    [[Str "T001"; Str "C001"; Str "P001"; n 2; n 50; Str "2024-01-02"; Str "Completed"];
     [Str "T002"; Str "C002"; Str "P002"; n 1; n 20; Str "2024-01-03"; Str "Pending"]].

Definition customers_header : list string :=
  ["customer_id"; "first_name"; "last_name"; "email"; "phone"; "city";
   "registration_date"].

(** Two customers whose records differ in the type letter of the id and in
    a trailing blank only. *)
Definition customers_two : DataFrame :=
  read_csv customers_header
    [[Str "C001"; Str "Asha"; Str "Rao"; Str "asha@example.com"; Str "1";
      Str "pune"; Str "2024-01-05"];
     [Str "K001"; Str "Asha "; Str "Rao"; Str "asha@example.com"; Str "1";
      Str "pune"; Str "2024-01-05"]].

Definition products_header : list string :=
  ["product_id"; "product_name"; "category"; "price"; "stock_quantity"].

Definition products_three : DataFrame :=
  read_csv products_header
    [[Str "P001"; Str " Phone "; Str "electronics"; n 100; n 10];
     [Str "P002"; Str "Shirt"; Str "FASHION wear"; NaN; NaN];
     [Str "P003"; Str "Rice"; Str "grocery"; n 300; n 30]].

Definition files : RawData := mkRaw customers_two products_three sales_two.

(** Customers as they reach the email fill: surrogate ids, text trimmed. *)
Definition customers_emails : DataFrame :=
  read_csv customers_header
    [[Str "001"; Str "Asha"; Str "Rao"; NaN; Str "1"; Str "pune"; Str "2024-01-05"];
     [Str "002"; Str "Ravi"; Str "Jain"; Str ""; Str "2"; Str "delhi"; Str "2024-01-06"];
     [Str "003"; Str "Mina"; Str "Das"; Str "mina@example.com"; Str "3"; Str "goa";
      Str "2024-01-07"]].

(** The cleaned form of [sales_two]. *)
Definition sales_two_clean : DataFrame :=
  read_csv sales_header
    [[Str "001"; Str "001"; Str "001"; n 2; n 50; Str "2024-01-02"; Str "Completed"];
     [Str "002"; Str "002"; Str "002"; n 1; n 20; Str "2024-01-03"; Str "Pending"]].


End Sample.

(** ** Auxiliary definitions used to state the properties *)

(** The frame behind the reference a computation returns. *)
Definition returned_frame (m : M ref) (h : Heap) : Res DataFrame :=
  fst ((x <- m ;; read x) h).

(** [clean_sales] with its two [dropna] statements exchanged, to compare
    with the function of the source. *)
Definition clean_sales_drops_swapped {ext : External} (sales_df : ref) : M ref :=
  try_except
    (inplace sales_df (apply_col "customer_id" remove_first_char) ;;
     inplace sales_df (apply_col "product_id" remove_first_char) ;;
     inplace sales_df (apply_col "transaction_id" remove_first_char) ;;
     sales_df <- trim_str_cols sales_df ;;
     sales_df <- fresh sales_df (drop_duplicates ["transaction_id"]) ;;
     sales_df <- fresh sales_df (dropna "product_id") ;;
     sales_df <- fresh sales_df (dropna "customer_id") ;;
     inplace sales_df (apply_col "transaction_date" standardize_date) ;;
     ret sales_df)
    (alloc empty_frame).


(** The position [df[c] = ...] writes to: the column's, or one past the
    last column when the name is new. *)
Definition setitem_pos (c : string) (d : DataFrame) : nat :=
  match col_pos c (columns d) with
  | Some n => n
  | None => length (columns d)
  end.


(** *** Shapes of computations on the object store *)

(** The store of objects never loses an object. *)
Definition grows (A : Type) (m : M A) : Prop :=
  forall h, length h <= length (snd (m h)).

(** The computation returns, it does not raise. *)
Definition total (A : Type) (m : M A) : Prop :=
  forall h, exists a h', m h = (Ok a, h').

(** A reference that is returned points into the store. *)
Definition valid (m : M ref) : Prop :=
  forall h, match m h with
            | (Ok r, h') => r < length h'
            | (Raised, _) => True
            end.

Definition valid_opt (m : M (option ref)) : Prop :=
  forall h, match m h with
            | (Ok (Some r), h') => r < length h'
            | _ => True
            end.

(** *** The loads of one run, and what a run leaves behind *)

Definition load_all (env : DbEnv) (customers_clean products_clean : option DataFrame)
           (orders_df order_items_df : DataFrame) (db : Store) : Store * list Event :=
  let (db1, ev1) := load_data_to_customers_db env customers_clean db in
  let (db2, ev2) := load_data_to_products_db env products_clean db1 in
  let (db3, ev3) := load_data_to_orders_db env (Some orders_df) db2 in
  let (db4, ev4) := load_data_to_order_items_db env (Some order_items_df) db3 in
  (db4, ev1 ++ ev2 ++ ev3 ++ ev4).

(** The tables a run computes before it loads anything. *)
Definition transformed (run : Run)
  : option DataFrame * option DataFrame * DataFrame * DataFrame * DataFrame :=
  (run_customers_clean run, run_products_clean run, run_sales_clean run,
   run_orders run, run_order_items run).

Definition row_counts (s : Store) : nat * nat * nat * nat :=
  (length (customers_rows s), length (products_rows s),
   length (orders_rows s), length (order_items_rows s)).




(** What a committed load does to the store: it replaces some tables and
    keeps the others. *)
Record Patch : Type := mkPatch {
  patch_customers : option (list (list Cell));
  patch_products : option (list (list Cell));
  patch_orders : option (list (list Cell));
  patch_order_items : option (list (list Cell))
}.

Definition apply_patch (p : Patch) (s : Store) : Store :=
  mkStore (match patch_customers p with Some r => r | None => customers_rows s end)
          (match patch_products p with Some r => r | None => products_rows s end)
          (match patch_orders p with Some r => r | None => orders_rows s end)
          (match patch_order_items p with Some r => r | None => order_items_rows s end).

Definition then_patch (p q : Patch) : Patch :=
  let pick (a b : option (list (list Cell))) :=
    match b with Some r => Some r | None => a end in
  mkPatch (pick (patch_customers p) (patch_customers q))
          (pick (patch_products p) (patch_products q))
          (pick (patch_orders p) (patch_orders q))
          (pick (patch_order_items p) (patch_order_items q)).

(** The record a run returns, from the tables it computed and the store it
    started on. *)
Definition run_of (env : DbEnv) (db : Store)
           (customers_clean products_clean : option DataFrame) (sales_clean : DataFrame)
           (report : list QualityReport) : Run :=
  let orders_df := split_sales_to_orders sales_clean in
  let order_items_df := split_sales_to_order_items sales_clean in
  let loaded := load_all env customers_clean products_clean orders_df order_items_df db in
  mkRun customers_clean products_clean sales_clean orders_df order_items_df
        (fst loaded) (snd loaded) report.

Definition keep : Patch := mkPatch None None None None.

(** A function on stores that is the application of one patch, whatever the
    store. *)
Definition is_patch (f : Store -> Store) : Prop :=
  exists p, forall db, f db = apply_patch p db.

(** [d'] is [d] with its columns rewritten cell by cell, each column by a
    function of its own: same column names, same rows in the same order
    with the same labels. *)
Definition colwise (d d' : DataFrame) : Prop :=
  columns d' = columns d /\
  exists G : nat -> Cell -> Cell,
    Forall2 (fun r r' => fst r' = fst r /\
                         forall n, cell n (snd r') = G n (cell n (snd r)))
            (rows d) (rows d').

(** The row [clean_sales] returns for a row it keeps: the date rewritten. *)
Definition dated {ext : External} (nd : nat) (x : Z * list Cell) : Z * list Cell :=
  (fst x, set_at nd (standardize_date (cell nd (snd x))) (snd x)).

(** Both ids of a sales row are present. *)
Definition ids_present (nc np : nat) (x : Z * list Cell) : bool :=
  negb (isna (cell nc (snd x))) && negb (isna (cell np (snd x))).



(** ** Further functions of the source, and notions used for their
    properties *)

(** [validate_dataframe(df, expected_columns, df_name)]: [False] for [None],
    for an empty frame and for a frame that misses an expected column. *)
Definition validate_dataframe (df : option DataFrame) (expected_columns : list string)
  : bool :=
  match df with
  | None => false
  | Some d =>
      if df_empty d then false
      else
        let missing_cols :=
          filter (fun col => match col_pos col (columns d) with
                             | None => true
                             | Some _ => false
                             end)
                 expected_columns in
        match missing_cols with
        | [] => true
        | _ => false
        end
  end.

(** The load on whose behalf an event happened. *)
Definition event_load (e : Event) : option Table :=
  match e with
  | GetConnection t _ | Executed t _ | Refused t _ | Closed t => Some t
  | _ => None
  end.

(** The place of a table in the sequence of [main]. *)
Definition load_rank (t : Table) : nat :=
  match t with
  | Customers => 0
  | Products => 1
  | Orders => 2
  | OrderItems => 3
  end.

(** The store after the deletes and the insert of a load. *)
Definition replaced (t : Table) (delete_queries : list Table) (data : list (list Cell))
           (db : Store) : Store :=
  run_statement (InsertInto t data)
                (fold_left (fun w q => run_statement (DeleteFrom q) w) delete_queries db).

(** An event that records a committed transaction. *)
Definition is_commit (e : Event) : bool :=
  match e with Executed _ Commit => true | _ => false end.



(** The ranks of the loads the events of a log belong to, in log order. *)
Definition load_ranks (events : list Event) : list nat :=
  flat_map (fun e => match event_load e with
                     | Some t => [load_rank t]
                     | None => []
                     end) events.

(** The computation changes no object of the store it starts on, except
    possibly the one behind [r]. *)
Definition changes_only (A : Type) (r : ref) (m : M A) : Prop :=
  forall h r', r' <> r -> r' < length h ->
               nth_error (snd (m h)) r' = nth_error h r'.

(** The reference the computation returns is [r]. *)
Definition returns (r : ref) (m : M ref) : Prop :=
  forall h, match m h with
            | (Ok a, _) => a = r
            | (Raised, _) => True
            end.

(** The reference the computation returns is [r] or an object that did not
    exist when it started. *)
Definition returns_own (r : ref) (m : M ref) : Prop :=
  forall h, match m h with
            | (Ok a, _) => a = r \/ length h <= a
            | (Raised, _) => True
            end.

(** When the computation returns a table, it is an object that did not exist
    when the computation started, and its columns are [cols]. *)
Definition new_table_with (cols : list string) (m : M (option ref)) : Prop :=
  forall h, match m h with
            | (Ok (Some out), h') =>
                length h <= out /\
                exists d, nth_error h' out = Some d /\ columns d = cols
            | _ => True
            end.

(** A stand-in for the date library in which the text 01/02/2024 reads as a
    date under both slash formats, as the first of February day first and as
    the second of January month first; nothing else parses. *)
Definition ambiguous_dates : External := {|
  str_of_number q := PyStr.of_int (Qnum q);
  strptime_iso text fmt :=
    if String.eqb text "01/02/2024"
    then if String.eqb fmt "%d/%m/%Y" then Some "2024-02-01"
         else if String.eqb fmt "%m/%d/%Y" then Some "2024-01-02"
         else None
    else None;
  to_datetime_iso _ := None;
  phonenumbers_parse _ := None;
  is_valid_number _ := false
|}.


(** A customers table without an id column, one email missing. *)
Definition emails_without_ids : DataFrame :=
  read_csv ["first_name"; "email"]
    [[Str "Asha"; Str "asha@example.com"]; [Str "Ravi"; NaN]].

(** The table, or [None], behind what the customers or products cleaner
    returns. *)
Definition returned_table (m : M (option ref)) (h : Heap) : Res (option DataFrame) :=
  fst ((x <- m ;; read_opt x) h).

(** Two references, each in a store of its own, to equal objects. *)
Definition agree (r : ref) (h : Heap) (r' : ref) (h' : Heap) : Prop :=
  nth_error h r = nth_error h' r'.

Definition agree_opt (a : option ref) (h : Heap) (a' : option ref) (h' : Heap) : Prop :=
  match a, a' with
  | Some x, Some x' => agree x h x' h'
  | None, None => True
  | _, _ => False
  end.

(** Two runs end the same way: both return, with results and stores related
    by [Q], or both raise, with stores related by [E]. *)
Definition related (A : Type) (Q : A -> Heap -> A -> Heap -> Prop)
           (E : Heap -> Heap -> Prop) (x y : Res A * Heap) : Prop :=
  match x, y with
  | (Ok a, h1), (Ok a', h1') => Q a h1 a' h1'
  | (Raised, h1), (Raised, h1') => E h1 h1'
  | _, _ => False
  end.

Definition anyhow (h h' : Heap) : Prop := True.

(** Files of which the sales file could not be read. *)
Definition files_without_sales : RawData :=
  mkRaw Sample.customers_two Sample.products_three empty_frame.

(** A database that holds one order and one order item from an earlier run. *)
Definition store_with_orders : Store :=
  mkStore [] [] [[Str "001"; Str "001"; Str "2024-01-02"; Sample.n 100; Str "Completed"]]
          [[Sample.n 1; Str "001"; Str "001"; Sample.n 2; Sample.n 50; Sample.n 100]].

(** The table behind [r] has [n] rows. *)
Definition has_length (r : ref) (n : nat) (h : Heap) : Prop :=
  exists d, nth_error h r = Some d /\ df_len d = n.

(** The computation keeps a property of the object store. *)
Definition preserves (A : Type) (I : Heap -> Prop) (m : M A) : Prop :=
  forall h, I h -> I (snd (m h)).

(** An assignment that neither adds nor removes rows. *)
Definition same_length (f : DataFrame -> Res DataFrame) : Prop :=
  forall d d', f d = Ok d' -> df_len d' = df_len d.

(** A cell that [series.str.strip()] leaves as it is: a missing value, or a
    text without surrounding white space. *)
Definition stripped (c : Cell) : Prop := str_method PyStr.strip c = c.

(** The object behind [r] satisfies [P]. *)
Definition at_ref (r : ref) (P : DataFrame -> Prop) (h : Heap) : Prop :=
  exists d, nth_error h r = Some d /\ P d.

(** Started on a store that satisfies [P], the computation raises or
    returns a result and a store that satisfy [Q]. *)
Definition ensures (A : Type) (P : Heap -> Prop) (m : M A) (Q : A -> Heap -> Prop)
  : Prop :=
  forall h, P h -> match m h with
                   | (Ok a, h') => Q a h'
                   | (Raised, _) => True
                   end.

(** The table a cleaner returned, if any, satisfies [P]. *)
Definition returned_satisfies (P : DataFrame -> Prop) (o : option ref) (h : Heap) : Prop :=
  match o with
  | Some out => at_ref out P h
  | None => True
  end.

(** The column [c] of the table has at least one row and no text in it. *)
Definition textless (c : string) (d : DataFrame) : Prop :=
  exists vs, getitem c d = Ok vs /\ vs <> [] /\ existsb is_str vs = false.

(** Two customers, neither with a city. *)
Definition customers_without_city : DataFrame :=
  read_csv Sample.customers_header
    [[Str "C001"; Str "Asha"; Str "Rao"; Str "asha@example.com"; Str "1"; NaN;
      Str "2024-01-05"];
     [Str "C002"; Str "Ravi"; Str "Jain"; Str "ravi@example.com"; Str "2"; NaN;
      Str "2024-01-06"]].

(** * Properties *)

(** ** Running the statements of the object store *)

Lemma nth_error_replace_same (A : Type) (l : list A) (n : nat) (x y : A) :
  nth_error l n = Some y -> nth_error (replace_nth n x l) n = Some x.
Proof.
  revert n; induction l as [|a l IH]; intros [|n] H; simpl in *;
    try discriminate; auto.
Qed.

Lemma nth_error_replace_other (A : Type) (l : list A) (n m : nat) (x : A) :
  n <> m -> nth_error (replace_nth n x l) m = nth_error l m.
Proof.
  revert n m; induction l as [|a l IH]; intros [|n] [|m] H; simpl;
    try reflexivity; try congruence.
  apply IH; congruence.
Qed.

Lemma length_replace_nth (A : Type) (l : list A) (n : nat) (x : A) :
  length (replace_nth n x l) = length l.
Proof.
  revert n; induction l as [|a l IH]; intros [|n]; simpl; auto.
Qed.

Lemma replace_nth_twice (A : Type) (l : list A) (n : nat) (x y : A) :
  replace_nth n x (replace_nth n y l) = replace_nth n x l.
Proof.
  revert n; induction l as [|a l IH]; intros [|n]; simpl; auto.
  now rewrite IH.
Qed.

Lemma nth_error_app_last (A : Type) (l : list A) (x : A) :
  nth_error (l ++ [x]) (length l) = Some x.
Proof.
  rewrite nth_error_app2 by lia. now rewrite Nat.sub_diag.
Qed.

Lemma nth_error_app_old (A : Type) (l : list A) (x y : A) (n : nat) :
  nth_error l n = Some y -> nth_error (l ++ [x]) n = Some y.
Proof.
  intros H. rewrite nth_error_app1; auto.
  apply nth_error_Some. congruence.
Qed.

Lemma replace_nth_app_last (A : Type) (l : list A) (x y : A) :
  replace_nth (length l) y (l ++ [x]) = l ++ [y].
Proof.
  induction l as [|a l IH]; simpl; auto. now rewrite IH.
Qed.

Lemma read_ok (h : Heap) (r : ref) (d : DataFrame) :
  nth_error h r = Some d -> read r h = (Ok d, h).
Proof. intros H; unfold read; now rewrite H. Qed.

Lemma inplace_ok (h : Heap) (r : ref) (f : DataFrame -> Res DataFrame) (d d' : DataFrame) :
  nth_error h r = Some d -> f d = Ok d' ->
  inplace r f h = (Ok tt, replace_nth r d' h).
Proof.
  intros H Hf. unfold inplace, bind, lift, write. erewrite read_ok by eassumption.
  now rewrite Hf.
Qed.

Lemma inplace_raised (h : Heap) (r : ref) (f : DataFrame -> Res DataFrame) (d : DataFrame) :
  nth_error h r = Some d -> f d = Raised -> inplace r f h = (Raised, h).
Proof.
  intros H Hf. unfold inplace, bind, lift. erewrite read_ok by eassumption.
  now rewrite Hf.
Qed.

Lemma fresh_ok (h : Heap) (r : ref) (f : DataFrame -> Res DataFrame) (d d' : DataFrame) :
  nth_error h r = Some d -> f d = Ok d' ->
  fresh r f h = (Ok (length h), h ++ [d']).
Proof.
  intros H Hf. unfold fresh, bind, lift, alloc. erewrite read_ok by eassumption.
  now rewrite Hf.
Qed.

Lemma fresh_raised (h : Heap) (r : ref) (f : DataFrame -> Res DataFrame) (d : DataFrame) :
  nth_error h r = Some d -> f d = Raised -> fresh r f h = (Raised, h).
Proof.
  intros H Hf. unfold fresh, bind, lift. erewrite read_ok by eassumption.
  now rewrite Hf.
Qed.

(** ** Columns and cells *)

Lemma cell_set_at_same (n : nat) (v : Cell) (r : list Cell) :
  cell n (set_at n v r) = v.
Proof.
  unfold cell. revert r; induction n as [|n IH]; intros [|x r]; simpl; auto.
Qed.

Lemma cell_set_at_other (n m : nat) (v : Cell) (r : list Cell) :
  n <> m -> cell m (set_at n v r) = cell m r.
Proof.
  unfold cell. revert m r; induction n as [|n IH]; intros [|m] [|x r] H; simpl;
    try congruence; auto.
  - destruct m; reflexivity.
  - rewrite IH by congruence. destruct m; reflexivity.
Qed.

Lemma assign_cells_map (n : nat) (f : list Cell -> Cell) (rs : list (Z * list Cell)) :
  assign_cells n rs (map (fun r => f (snd r)) rs)
  = map (fun r => (fst r, set_at n (f (snd r)) (snd r))) rs.
Proof.
  induction rs as [|[l r] rs IH]; simpl; auto. now rewrite IH.
Qed.

Lemma col_pos_lt (c : string) (cs : list string) (n : nat) :
  col_pos c cs = Some n -> n < length cs.
Proof.
  revert n; induction cs as [|x cs IH]; simpl; intros n H; try discriminate.
  destruct (String.eqb c x).
  - inversion H; lia.
  - destruct (col_pos c cs); simpl in H; try discriminate.
    inversion H. specialize (IH _ eq_refl). lia.
Qed.

Lemma col_pos_inj (a b : string) (cs : list string) (n : nat) :
  col_pos a cs = Some n -> col_pos b cs = Some n -> a = b.
Proof.
  revert n; induction cs as [|x cs IH]; simpl; intros n Ha Hb; try discriminate.
  destruct (String.eqb_spec a x), (String.eqb_spec b x); subst; auto.
  - destruct (col_pos b cs); simpl in Hb; inversion Ha; subst; discriminate.
  - destruct (col_pos a cs); simpl in Ha; inversion Hb; subst; discriminate.
  - destruct (col_pos a cs) as [i|] eqn:Ea, (col_pos b cs) as [j|] eqn:Eb;
      simpl in *; try discriminate.
    inversion Ha; inversion Hb; subst. apply (IH i); congruence.
Qed.

(** [df[c] = df[c].apply(f)] rewrites one cell of every row. *)
Lemma apply_col_rows (c : string) (f : Cell -> Cell) (d : DataFrame) (n : nat) :
  col_pos c (columns d) = Some n ->
  apply_col c f d
  = Ok (mkDF (columns d)
             (map (fun r => (fst r, set_at n (f (cell n (snd r))) (snd r))) (rows d))).
Proof.
  intros H. unfold apply_col, getitem, setitem. rewrite H. simpl.
  rewrite map_map.
  now rewrite (assign_cells_map n (fun r => f (cell n r))).
Qed.

Lemma apply_col_missing (c : string) (f : Cell -> Cell) (d : DataFrame) :
  col_pos c (columns d) = None -> apply_col c f d = Raised.
Proof. intros H. unfold apply_col, getitem. now rewrite H. Qed.

Lemma fresh_run (r : ref) (f : DataFrame -> Res DataFrame) (h : Heap) :
  fresh r f h
  = match nth_error h r with
    | Some d => match f d with
                | Ok d' => (Ok (length h), h ++ [d'])
                | Raised => (Raised, h)
                end
    | None => (Raised, h)
    end.
Proof.
  unfold fresh, bind, read, lift, alloc.
  destruct (nth_error h r) as [d|]; auto.
Qed.

Lemma inplace_run (r : ref) (f : DataFrame -> Res DataFrame) (h : Heap) :
  inplace r f h
  = match nth_error h r with
    | Some d => match f d with
                | Ok d' => (Ok tt, replace_nth r d' h)
                | Raised => (Raised, h)
                end
    | None => (Raised, h)
    end.
Proof.
  unfold inplace, bind, read, lift, write.
  destruct (nth_error h r) as [d|]; auto.
Qed.

(** ** The loader *)

(** C9. A load whose input table is absent or has no rows is skipped as a
    whole: the committed store is returned as it was, and the only event is
    the error entry of the log; no connection is asked for and no statement
    is sent. *)
Theorem load_skipped_when_absent_or_empty
        (env : DbEnv) (df : option DataFrame) (table : Table)
        (cols : list string) (delete_queries : list Table) (db : Store) :
  df = None \/ (exists d, df = Some d /\ rows d = []) ->
  load_data_to_table env df table cols delete_queries db
  = (db, [LogError (table_name table ++ " DataFrame is empty or None. Aborting load.")]).
Proof.
  intros [-> | [d [-> Hrows]]]; unfold load_data_to_table; auto.
  unfold df_empty. now rewrite Hrows.
Qed.

Lemma load_skipped_when_absent_or_empty_witness :
  load_data_to_table Sample.always_up (Some (mkDF Sample.products_header []))
                     Products product_columns [OrderItems; Products]
                     Sample.empty_store
  = (Sample.empty_store,
     [LogError "products DataFrame is empty or None. Aborting load."]).
Proof.
  apply (load_skipped_when_absent_or_empty Sample.always_up
           (df := Some (mkDF Sample.products_header [])) Products
           product_columns [OrderItems; Products] Sample.empty_store).
  right. exists (mkDF Sample.products_header []). split; reflexivity.
Defined.

(** ** The two drop steps of [clean_sales] *)

Lemma filter_comm (A : Type) (p q : A -> bool) (l : list A) :
  filter p (filter q l) = filter q (filter p l).
Proof.
  induction l as [|x l IH]; simpl; auto.
  destruct (p x) eqn:Hp, (q x) eqn:Hq; simpl; rewrite ?Hp, ?Hq, IH; auto.
Qed.

Lemma dropna_columns (c : string) (d d' : DataFrame) :
  dropna c d = Ok d' -> columns d' = columns d.
Proof.
  unfold dropna. destruct (col_pos c (columns d)); intros H; inversion H; auto.
Qed.

(** The two statements commute as functions on frames, also when one of
    the columns is absent (both orders raise). *)
Lemma dropna_comm (a b : string) (d : DataFrame) :
  rbind (dropna a d) (dropna b) = rbind (dropna b d) (dropna a).
Proof.
  unfold dropna.
  destruct (col_pos a (columns d)) as [na|] eqn:Ha,
           (col_pos b (columns d)) as [nb|] eqn:Hb; simpl;
    rewrite ?Ha, ?Hb; auto.
  now rewrite filter_comm.
Qed.

(** Peeling one statement off a [try] block whose result is then read. *)
Lemma returned_try_bind (A : Type) (m : M A) (k : A -> M ref) (handler : M ref)
      (h : Heap) :
  returned_frame (try_except (bind m k) handler) h
  = match m h with
    | (Ok a, h1) => returned_frame (try_except (k a) handler) h1
    | (Raised, h1) => returned_frame handler h1
    end.
Proof.
  unfold returned_frame, try_except, bind.
  destruct (m h) as [[a|] h1]; reflexivity.
Qed.

Lemma returned_alloc (d : DataFrame) (h : Heap) :
  returned_frame (alloc d) h = Ok d.
Proof.
  unfold returned_frame, bind, alloc, read. now rewrite nth_error_app_last.
Qed.

Lemma returned_last_statement (f : DataFrame -> Res DataFrame) (r : ref)
      (b : DataFrame) (h : Heap) :
  nth_error h r = Some b ->
  returned_frame (try_except (inplace r f ;; ret r) (alloc empty_frame)) h
  = Ok (match f b with Ok b' => b' | Raised => empty_frame end).
Proof.
  intros H. rewrite returned_try_bind, inplace_run, H.
  destruct (f b) as [b'|].
  - unfold returned_frame, try_except, bind, ret, read.
    now erewrite nth_error_replace_same by eassumption.
  - apply returned_alloc.
Qed.

(** C8. In [clean_sales], dropping the rows without a customer id and
    dropping the rows without a product id can be done in either order: for
    every object store and every input table, the cleaner of the source and
    the cleaner with the two statements exchanged return the same table. *)
Theorem clean_sales_drop_order_irrelevant {ext : External} (r : ref) (h : Heap) :
  returned_frame (clean_sales r) h
  = returned_frame (clean_sales_drops_swapped r) h.
Proof.
  unfold clean_sales, clean_sales_drops_swapped.
  rewrite !returned_try_bind.
  destruct (inplace r (apply_col "customer_id" remove_first_char) h)
    as [[[]|] h1]; [|reflexivity].
  rewrite !returned_try_bind.
  destruct (inplace r (apply_col "product_id" remove_first_char) h1)
    as [[[]|] h2]; [|reflexivity].
  rewrite !returned_try_bind.
  destruct (inplace r (apply_col "transaction_id" remove_first_char) h2)
    as [[[]|] h3]; [|reflexivity].
  rewrite !returned_try_bind.
  destruct (trim_str_cols r h3) as [[r4|] h4]; [|reflexivity].
  rewrite !returned_try_bind.
  destruct (fresh r4 (drop_duplicates ["transaction_id"]) h4)
    as [[r5|] h5]; [|reflexivity].
  rewrite !returned_try_bind, !fresh_run.
  destruct (nth_error h5 r5) as [d5|]; [|reflexivity].
  generalize (dropna_comm "customer_id" "product_id" d5).
  destruct (dropna "customer_id" d5) as [a|] eqn:Ha,
           (dropna "product_id" d5) as [a'|] eqn:Ha'; simpl; intros Hcomm;
    rewrite ?returned_try_bind, ?fresh_run, ?nth_error_app_last, ?returned_alloc;
    try reflexivity.
  - rewrite <- Hcomm.
    destruct (dropna "product_id" a) as [b|].
    + erewrite !returned_last_statement by apply nth_error_app_last. reflexivity.
    + now rewrite !returned_alloc.
  - rewrite Hcomm. now rewrite !returned_alloc.
  - rewrite <- Hcomm. now rewrite !returned_alloc.
Qed.

(** ** Filling missing emails *)

Lemma apply_rows_ok (f : list Cell -> Res Cell) (g : list Cell -> Cell)
      (rs : list (Z * list Cell)) :
  (forall r, f r = Ok (g r)) ->
  apply_rows f rs = Ok (map (fun r => g (snd r)) rs).
Proof.
  intros Hf. induction rs as [|r rs IH]; simpl; auto.
  now rewrite Hf, IH.
Qed.

Lemma cell_eqb_empty (e : Cell) : cell_eqb e (Str "") = true <-> e = Str "".
Proof.
  destruct e as [|s|q]; simpl; split; try discriminate; intros H.
  - apply String.eqb_eq in H. now subst.
  - inversion H. reflexivity.
Qed.

(** C10. The email fill treats a null email and an empty-string email as
    missing.  On a customers table that has the columns [email] and
    [customer_id] (the surrogate id at this point of the cleaner), the call
    succeeds, changes the table behind the reference it was given, and, row
    by row: a null or empty email becomes "unknown_email_" followed by the
    text of the row's customer id; any other email stays as it is; no other
    cell, no label and no column name changes. *)
Theorem fill_missing_email_placeholder {ext : External}
        (h : Heap) (r : ref) (d : DataFrame) (ne nc : nat) :
  nth_error h r = Some d ->
  col_pos "email" (columns d) = Some ne ->
  col_pos "customer_id" (columns d) = Some nc ->
  exists d',
    fill_missing_email r h = (Ok r, replace_nth r d' h) /\
    columns d' = columns d /\
    Forall2 (fun row row' =>
               let email := cell ne (snd row) in
               fst row' = fst row /\
               (email = NaN \/ email = Str "" ->
                cell ne (snd row')
                = Str ("unknown_email_" ++ py_str (cell nc (snd row)))) /\
               (email <> NaN -> email <> Str "" -> cell ne (snd row') = email) /\
               (forall m, m <> ne -> cell m (snd row') = cell m (snd row)))
            (rows d) (rows d').
Proof.
  intros Hr He Hc.
  set (g := fun row : list Cell =>
              if isna (cell ne row) || cell_eqb (cell ne row) (Str "")
              then Str ("unknown_email_" ++ py_str (cell nc row))
              else cell ne row).
  exists (mkDF (columns d)
               (map (fun row => (fst row, set_at ne (g (snd row)) (snd row))) (rows d))).
  split; [|split; [reflexivity|]].
  - unfold fill_missing_email, try_except, bind.
    erewrite inplace_ok; [reflexivity | eassumption |].
    rewrite (apply_rows_ok _ g).
    + simpl. unfold setitem. rewrite He. now rewrite assign_cells_map.
    + intros row. unfold email_or_placeholder, g. rewrite He, Hc.
      now destruct (isna (cell ne row) || cell_eqb (cell ne row) (Str "")).
  - simpl. induction (rows d) as [|row rs IH]; simpl; constructor; auto.
    simpl. split; [reflexivity|]. rewrite cell_set_at_same. unfold g.
    split; [|split].
    + intros [E | E]; rewrite E; reflexivity.
    + intros N1 N2.
      destruct (isna (cell ne (snd row))) eqn:Hna.
      * destruct (cell ne (snd row)); simpl in Hna; congruence.
      * destruct (cell_eqb (cell ne (snd row)) (Str "")) eqn:Heq; auto.
        apply cell_eqb_empty in Heq. contradiction.
    + intros m Hm. apply cell_set_at_other. congruence.
Qed.

Lemma fill_missing_email_placeholder_witness :
  exists d',
    fill_missing_email (ext := Sample.libraries) 0 [Sample.customers_emails]
    = (Ok 0%nat, replace_nth 0 d' [Sample.customers_emails]) /\
    columns d' = columns Sample.customers_emails /\
    Forall2 (fun row row' =>
               let email := cell 3 (snd row) in
               fst row' = fst row /\
               (email = NaN \/ email = Str "" ->
                cell 3 (snd row')
                = Str ("unknown_email_"
                       ++ py_str (ext := Sample.libraries) (cell 0 (snd row)))) /\
               (email <> NaN -> email <> Str "" -> cell 3 (snd row') = email) /\
               (forall m, m <> 3%nat -> cell m (snd row') = cell m (snd row)))
            (rows Sample.customers_emails) (rows d').
Proof.
  apply (@fill_missing_email_placeholder Sample.libraries
           [Sample.customers_emails] 0%nat Sample.customers_emails 3%nat 0%nat);
    reflexivity.
Defined.

Example fill_missing_email_sample :
  returned_frame (fill_missing_email (ext := Sample.libraries) 0)
                 [Sample.customers_emails]
  = Ok (read_csv Sample.customers_header
          [[Str "001"; Str "Asha"; Str "Rao"; Str "unknown_email_001"; Str "1";
            Str "pune"; Str "2024-01-05"];
           [Str "002"; Str "Ravi"; Str "Jain"; Str "unknown_email_002"; Str "2";
            Str "delhi"; Str "2024-01-06"];
           [Str "003"; Str "Mina"; Str "Das"; Str "mina@example.com"; Str "3";
            Str "goa"; Str "2024-01-07"]]).
Proof. reflexivity. Qed.

(** ** Filling missing prices and stocks *)


Lemma assign_cells_nil (n : nat) (rs : list (Z * list Cell)) :
  assign_cells n rs [] = rs.
Proof. destruct rs as [|[l r] rs]; reflexivity. Qed.


Lemma assign_cells_other (n m : nat) (vs : list Cell) (rs : list (Z * list Cell)) :
  n <> m ->
  map (fun r => cell m (snd r)) (assign_cells n rs vs) = map (fun r => cell m (snd r)) rs.
Proof.
  intros H. revert vs; induction rs as [|[l r] rs IH]; intros [|v vs]; simpl; auto.
  now rewrite IH, cell_set_at_other.
Qed.





(** The median skips missing cells. *)
Lemma median_skips_missing (vs : list Cell) :
  median (filter (fun c => negb (isna c)) vs) = median vs.
Proof.
  unfold median.
  assert (E1 : existsb is_str (filter (fun c => negb (isna c)) vs) = existsb is_str vs).
  { induction vs as [|[|s|q] vs IH]; simpl; auto. }
  assert (E2 : numbers (filter (fun c => negb (isna c)) vs) = numbers vs).
  { clear E1. unfold numbers.
    induction vs as [|[|s|q] vs IH]; simpl; rewrite ?IH; auto. }
  now rewrite E1, E2.
Qed.

Example median_100_absent_300 :
  median [Sample.n 100; NaN; Sample.n 300] = Ok (Sample.n 200).
Proof. reflexivity. Qed.


Example median_fill_sample :
  returned_frame (fill_missing_product_data_with_median 0) [Sample.products_three]
  = Ok (read_csv Sample.products_header
          [[Str "P001"; Str " Phone "; Str "electronics"; Sample.n 100; Sample.n 10];
           [Str "P002"; Str "Shirt"; Str "FASHION wear"; Sample.n 200; Sample.n 20];
           [Str "P003"; Str "Rice"; Str "grocery"; Sample.n 300; Sample.n 30]]).
Proof. reflexivity. Qed.

(** ** The sales decomposition *)

Lemma col_pos_app_other (c c' : string) (cs : list string) :
  c' <> c -> col_pos c' (cs ++ [c]) = col_pos c' cs.
Proof.
  intros H. induction cs as [|x cs IH]; simpl.
  - destruct (String.eqb_spec c' c); congruence.
  - now rewrite IH.
Qed.



Lemma col_pos_setitem_other (c c' : string) (vs : list Cell) (d : DataFrame) :
  c' <> c -> col_pos c' (columns (setitem c vs d)) = col_pos c' (columns d).
Proof.
  intros H. unfold setitem.
  destruct (col_pos c (columns d)); simpl; auto using col_pos_app_other.
Qed.

Lemma rows_setitem (c : string) (vs : list Cell) (d : DataFrame) :
  rows (setitem c vs d) = assign_cells (setitem_pos c d) (rows d) vs.
Proof.
  unfold setitem, setitem_pos. destruct (col_pos c (columns d)); reflexivity.
Qed.

Lemma setitem_pos_other (c c' : string) (d : DataFrame) (n : nat) :
  c' <> c -> col_pos c' (columns d) = Some n -> n <> setitem_pos c d.
Proof.
  intros H Hc E. unfold setitem_pos in E.
  destruct (col_pos c (columns d)) eqn:Hc'.
  - subst. apply H. eapply col_pos_inj; eauto.
  - apply col_pos_lt in Hc. lia.
Qed.



Lemma getitem_setitem_other (c c' : string) (vs : list Cell) (d : DataFrame) :
  c' <> c -> getitem c' (setitem c vs d) = getitem c' d.
Proof.
  intros H. unfold getitem. rewrite col_pos_setitem_other by assumption.
  destruct (col_pos c' (columns d)) as [n|] eqn:E; auto.
  rewrite rows_setitem, assign_cells_other; auto.
  apply not_eq_sym. eapply setitem_pos_other; eauto.
Qed.



Lemma Forall2_map_right (A B : Type) (P : A -> B -> Prop) (f : A -> B) (l : list A) :
  (forall x, In x l -> P x (f x)) -> Forall2 P l (map f l).
Proof.
  induction l as [|x l IH]; simpl; intros H; constructor; auto.
Qed.




(** With labels 0 and 1 the ids are 1 and 2 and the subtotals 100 and 20. *)
Example split_order_items_two_rows :
  rows (split_sales_to_order_items Sample.sales_two_clean)
  = [(0%Z, [Sample.n 1; Str "001"; Str "001"; Sample.n 2; Sample.n 50; Sample.n 100]);
     (1%Z, [Sample.n 2; Str "002"; Str "002"; Sample.n 1; Sample.n 20; Sample.n 20])].
Proof. reflexivity. Qed.


(** ** Shapes of the computations: growth of the store, totality, valid
    references *)

Create HintDb heap.

Lemma grows_ret (A : Type) (a : A) : grows (ret a).
Proof. intros h. simpl. lia. Qed.

Lemma grows_bind (A B : Type) (m : M A) (k : A -> M B) :
  grows m -> (forall a, grows (k a)) -> grows (bind m k).
Proof.
  intros Hm Hk h. unfold bind. specialize (Hm h).
  destruct (m h) as [[a|] h1]; simpl in *; auto.
  specialize (Hk a h1). lia.
Qed.

Lemma grows_try (A : Type) (m handler : M A) :
  grows m -> grows handler -> grows (try_except m handler).
Proof.
  intros Hm Hh h. unfold try_except. specialize (Hm h).
  destruct (m h) as [[a|] h1]; simpl in *; auto.
  specialize (Hh h1). lia.
Qed.

Lemma grows_read (r : ref) : grows (read r).
Proof. intros h. unfold read. destruct (nth_error h r); simpl; lia. Qed.

Lemma grows_write (r : ref) (d : DataFrame) : grows (write r d).
Proof. intros h. simpl. rewrite length_replace_nth. lia. Qed.

Lemma grows_alloc (d : DataFrame) : grows (alloc d).
Proof. intros h. simpl. rewrite length_app. simpl. lia. Qed.

Lemma grows_lift (A : Type) (x : Res A) : grows (lift x).
Proof. intros h. simpl. lia. Qed.

#[local] Hint Resolve grows_ret grows_bind grows_try grows_read grows_write
  grows_alloc grows_lift : heap.

Lemma grows_inplace (r : ref) (f : DataFrame -> Res DataFrame) : grows (inplace r f).
Proof. unfold inplace. auto with heap. Qed.

Lemma grows_fresh (r : ref) (f : DataFrame -> Res DataFrame) : grows (fresh r f).
Proof. unfold fresh. auto with heap. Qed.

#[local] Hint Resolve grows_inplace grows_fresh : heap.

Lemma grows_for_each (A : Type) (l : list A) (body : A -> M unit) :
  (forall x, grows (body x)) -> grows (for_each l body).
Proof. intros H. induction l; simpl; auto with heap. Qed.

#[local] Hint Resolve grows_for_each : heap.

Section CleanerShapes.

Context {ext : External}.

Lemma grows_trim_str_cols (r : ref) : grows (trim_str_cols r).
Proof. unfold trim_str_cols. auto 10 with heap. Qed.

Lemma grows_fill_missing_email (r : ref) : grows (fill_missing_email r).
Proof. unfold fill_missing_email. auto 10 with heap. Qed.

Lemma grows_fill_median (r : ref) : grows (fill_missing_product_data_with_median r).
Proof. unfold fill_missing_product_data_with_median. auto 10 with heap. Qed.

#[local] Hint Resolve grows_trim_str_cols grows_fill_missing_email grows_fill_median : heap.

Lemma grows_clean_customers (r : ref) : grows (clean_customers r).
Proof. unfold clean_customers. auto 20 with heap. Qed.
Lemma grows_clean_products (r : ref) : grows (clean_products r).
Proof. unfold clean_products. auto 20 with heap. Qed.
Lemma grows_clean_sales (r : ref) : grows (clean_sales r).
Proof. unfold clean_sales. auto 20 with heap. Qed.

End CleanerShapes.

Lemma total_try (A : Type) (m handler : M A) : total handler -> total (try_except m handler).
Proof.
  intros Hh h. unfold try_except. destruct (m h) as [[a|] h1]; eauto.
Qed.

Lemma total_ret (A : Type) (a : A) : total (ret a).
Proof. intros h. unfold ret. eauto. Qed.

Lemma total_alloc (d : DataFrame) : total (alloc d).
Proof. intros h. unfold alloc. eauto. Qed.

Lemma valid_bind (A : Type) (m : M A) (k : A -> M ref) :
  (forall a, valid (k a)) -> valid (bind m k).
Proof.
  intros Hk h. unfold bind. destruct (m h) as [[a|] h1]; auto. apply Hk.
Qed.

Lemma valid_try (m handler : M ref) : valid m -> valid handler -> valid (try_except m handler).
Proof.
  intros Hm Hh h. unfold try_except. specialize (Hm h).
  destruct (m h) as [[a|] h1]; auto. apply Hh.
Qed.

Lemma valid_alloc (d : DataFrame) : valid (alloc d).
Proof. intros h. simpl. rewrite length_app. simpl. lia. Qed.

Lemma valid_fresh_then (r : ref) (f : DataFrame -> Res DataFrame) (k : ref -> M unit) :
  (forall x, grows (k x)) ->
  valid (x <- fresh r f ;; k x ;; ret x).
Proof.
  intros Hk h. unfold bind at 1. rewrite fresh_run.
  destruct (nth_error h r) as [d|]; auto. destruct (f d) as [d'|]; auto.
  unfold bind, ret. specialize (Hk (length h) (h ++ [d'])).
  destruct (k (length h) (h ++ [d'])) as [[[]|] h2]; auto.
  simpl in Hk. rewrite length_app in Hk. simpl in Hk. lia.
Qed.

Lemma valid_opt_bind (A : Type) (m : M A) (k : A -> M (option ref)) :
  (forall a, valid_opt (k a)) -> valid_opt (bind m k).
Proof.
  intros Hk h. unfold bind. destruct (m h) as [[a|] h1]; auto. apply Hk.
Qed.

Lemma valid_opt_try (m handler : M (option ref)) :
  valid_opt m -> valid_opt handler -> valid_opt (try_except m handler).
Proof.
  intros Hm Hh h. unfold try_except. specialize (Hm h).
  destruct (m h) as [[a|] h1]; auto. apply Hh.
Qed.

Lemma valid_opt_none : valid_opt (ret None).
Proof. intros h. exact I. Qed.

Lemma valid_opt_fresh (r : ref) (f : DataFrame -> Res DataFrame) :
  valid_opt (out <- fresh r f ;; ret (Some out)).
Proof.
  intros h. unfold bind. rewrite fresh_run.
  destruct (nth_error h r) as [d|]; auto. destruct (f d) as [d'|]; auto.
  simpl. rewrite length_app. simpl. lia.
Qed.

#[local] Hint Resolve total_try total_ret total_alloc valid_bind valid_try valid_alloc
  valid_fresh_then valid_opt_bind valid_opt_try valid_opt_none valid_opt_fresh
  grows_inplace : heap.

Section CleanerTotality.

Context {ext : External}.

Lemma total_clean_customers (r : ref) : total (clean_customers r).
Proof. unfold clean_customers. auto with heap. Qed.
Lemma total_clean_products (r : ref) : total (clean_products r).
Proof. unfold clean_products. auto with heap. Qed.
Lemma total_clean_sales (r : ref) : total (clean_sales r).
Proof. unfold clean_sales. auto with heap. Qed.

Lemma valid_clean_customers (r : ref) : valid_opt (clean_customers r).
Proof. unfold clean_customers. auto 20 with heap. Qed.
Lemma valid_clean_products (r : ref) : valid_opt (clean_products r).
Proof. unfold clean_products. auto 20 with heap. Qed.
Lemma valid_clean_sales (r : ref) : valid (clean_sales r).
Proof. unfold clean_sales. auto 20 with heap. Qed.

End CleanerTotality.

Lemma bind_ok (A B : Type) (m : M A) (k : A -> M B) (h h' : Heap) (a : A) :
  m h = (Ok a, h') -> bind m k h = k a h'.
Proof. intros E. unfold bind. now rewrite E. Qed.

Lemma read_valid (r : ref) (h : Heap) :
  r < length h -> exists d, read r h = (Ok d, h).
Proof.
  intros H. unfold read. destruct (nth_error h r) as [d|] eqn:E; eauto.
  apply nth_error_None in E. lia.
Qed.

Lemma read_opt_valid {ext : External} (r : option ref) (h : Heap) :
  (forall r', r = Some r' -> r' < length h) ->
  exists v, read_opt r h = (Ok v, h).
Proof.
  intros H. destruct r as [r'|]; simpl; [|unfold ret; eauto].
  destruct (@read_valid r' h (H _ eq_refl)) as [d E].
  exists (Some d). unfold bind. now rewrite E.
Qed.

Lemma main_runs {ext : External} (files : RawData) :
  exists cc pc sc rep h,
    forall env db, main env files db [] = (Ok (run_of env db cc pc sc rep), h).
Proof.
  unfold main, extract_raw_data_from_csv.
  set (h0 := [raw_customers files; raw_products files; raw_sales files]).
  destruct (total_clean_customers 0 h0) as (cc & h1 & E1).
  pose proof (grows_clean_customers 0 h0) as G1. rewrite E1 in G1. simpl in G1.
  pose proof (valid_clean_customers 0 h0) as V1. rewrite E1 in V1.
  destruct (total_clean_products 1 h1) as (pc & h2 & E2).
  pose proof (grows_clean_products 1 h1) as G2. rewrite E2 in G2. simpl in G2.
  pose proof (valid_clean_products 1 h1) as V2. rewrite E2 in V2.
  destruct (total_clean_sales 2 h2) as (sr & h3 & E3).
  pose proof (grows_clean_sales 2 h2) as G3. rewrite E3 in G3. simpl in G3.
  pose proof (valid_clean_sales 2 h2) as V3. rewrite E3 in V3.
  destruct (@read_valid sr h3 V3) as [sc Es].
  destruct (@read_opt_valid _ cc h3) as [ccv Ec].
  { intros r' ->. lia. }
  destruct (@read_opt_valid _ pc h3) as [pcv Ep].
  { intros r' ->. lia. }
  destruct (@read_valid 0 h3) as [cv E0]; [lia|].
  destruct (@read_valid 1 h3) as [pv E1']; [lia|].
  destruct (@read_valid 2 h3) as [sv E2']; [lia|].
  exists ccv, pcv, sc, (write_data_quality_report cv pv sv), h3.
  intros env db.
  assert (Ex : extract_raw_data_from_csv files [] = (Ok (0, 1, 2), h0)) by reflexivity.
  fold (extract_raw_data_from_csv files).
  rewrite (@bind_ok _ _ _ _ _ _ _ Ex). cbv beta iota.
  rewrite (@bind_ok _ _ _ _ _ _ _ E1), (@bind_ok _ _ _ _ _ _ _ E2), (@bind_ok _ _ _ _ _ _ _ E3), (@bind_ok _ _ _ _ _ _ _ Es),
    (@bind_ok _ _ _ _ _ _ _ Ec), (@bind_ok _ _ _ _ _ _ _ Ep).
  unfold run_of, load_all.
  destruct (load_data_to_customers_db env ccv db) as [db1 ev1].
  destruct (load_data_to_products_db env pcv db1) as [db2 ev2].
  destruct (load_data_to_orders_db env (Some (split_sales_to_orders sc)) db2) as [db3 ev3].
  destruct (load_data_to_order_items_db env (Some (split_sales_to_order_items sc)) db3)
    as [db4 ev4].
  rewrite (@bind_ok _ _ _ _ _ _ _ E0), (@bind_ok _ _ _ _ _ _ _ E1'), (@bind_ok _ _ _ _ _ _ _ E2').
  reflexivity.
Qed.

(** ** The loads of a run *)

Lemma apply_patch_then (p q : Patch) (s : Store) :
  apply_patch q (apply_patch p s) = apply_patch (then_patch p q) s.
Proof.
  destruct p as [a b c d], q as [a' b' c' d'], s. unfold apply_patch, then_patch. simpl.
  destruct a', b', c', d'; reflexivity.
Qed.

Lemma apply_patch_idem (p : Patch) (s : Store) :
  apply_patch p (apply_patch p s) = apply_patch p s.
Proof.
  destruct p as [a b c d], s. unfold apply_patch. simpl.
  destruct a, b, c, d; reflexivity.
Qed.


Ltac kept := exists keep; intros []; reflexivity.

Lemma customers_load_is_patch (env : DbEnv) (df : option DataFrame) :
  is_patch (fun db => fst (load_data_to_customers_db env df db)).
Proof.
  unfold is_patch, load_data_to_customers_db, load_data_to_table.
  destruct df as [d|]; [|exists keep; intros []; reflexivity].
  destruct (df_empty d); [exists keep; intros []; reflexivity|].
  destruct (connects env Customers); simpl; [|exists keep; intros []; reflexivity].
  destruct (executes env Customers (DeleteFrom OrderItems)); simpl;
    [|exists keep; intros []; reflexivity].
  destruct (executes env Customers (DeleteFrom Orders)); simpl;
    [|exists keep; intros []; reflexivity].
  destruct (executes env Customers (DeleteFrom Customers)); simpl;
    [|exists keep; intros []; reflexivity].
  destruct (project customer_columns d) as [p|]; [|exists keep; intros []; reflexivity].
  destruct (executes env Customers (InsertInto Customers (map snd (rows p)))); simpl;
    [|exists keep; intros []; reflexivity].
  destruct (executes env Customers Commit); simpl;
    [|exists keep; intros []; reflexivity].
  exists (mkPatch (Some (map snd (rows p))) None (Some []) (Some [])).
  intros []; reflexivity.
Qed.

Lemma products_load_is_patch (env : DbEnv) (df : option DataFrame) :
  is_patch (fun db => fst (load_data_to_products_db env df db)).
Proof.
  unfold is_patch, load_data_to_products_db, load_data_to_table.
  destruct df as [d|]; [|kept].
  destruct (df_empty d); [kept|].
  destruct (connects env Products); simpl; [|kept].
  destruct (executes env Products (DeleteFrom OrderItems)); simpl; [|kept].
  destruct (executes env Products (DeleteFrom Products)); simpl; [|kept].
  destruct (project product_columns d) as [p|]; [|kept].
  destruct (executes env Products (InsertInto Products (map snd (rows p)))); simpl; [|kept].
  destruct (executes env Products Commit); simpl; [|kept].
  exists (mkPatch None (Some (map snd (rows p))) None (Some [])).
  intros []; reflexivity.
Qed.

Lemma orders_load_is_patch (env : DbEnv) (df : option DataFrame) :
  is_patch (fun db => fst (load_data_to_orders_db env df db)).
Proof.
  unfold is_patch, load_data_to_orders_db, load_data_to_table.
  destruct df as [d|]; [|kept].
  destruct (df_empty d); [kept|].
  destruct (connects env Orders); simpl; [|kept].
  destruct (executes env Orders (DeleteFrom Orders)); simpl; [|kept].
  destruct (project _ d) as [p|]; [|kept].
  destruct (executes env Orders (InsertInto Orders (map snd (rows p)))); simpl; [|kept].
  destruct (executes env Orders Commit); simpl; [|kept].
  exists (mkPatch None None (Some (map snd (rows p))) None).
  intros []; reflexivity.
Qed.

Lemma order_items_load_is_patch (env : DbEnv) (df : option DataFrame) :
  is_patch (fun db => fst (load_data_to_order_items_db env df db)).
Proof.
  unfold is_patch, load_data_to_order_items_db, load_data_to_table.
  destruct df as [d|]; [|kept].
  destruct (df_empty d); [kept|].
  destruct (connects env OrderItems); simpl; [|kept].
  destruct (executes env OrderItems (DeleteFrom OrderItems)); simpl; [|kept].
  destruct (project _ d) as [p|]; [|kept].
  destruct (executes env OrderItems (InsertInto OrderItems (map snd (rows p)))); simpl;
    [|kept].
  destruct (executes env OrderItems Commit); simpl; [|kept].
  exists (mkPatch None None None (Some (map snd (rows p)))).
  intros []; reflexivity.
Qed.

Lemma load_all_is_patch (env : DbEnv) (cc pc : option DataFrame) (o oi : DataFrame) :
  is_patch (fun db => fst (load_all env cc pc o oi db)).
Proof.
  destruct (customers_load_is_patch env cc) as [p1 H1].
  destruct (products_load_is_patch env pc) as [p2 H2].
  destruct (orders_load_is_patch env (Some o)) as [p3 H3].
  destruct (order_items_load_is_patch env (Some oi)) as [p4 H4].
  eexists.
  intros db. unfold load_all.
  specialize (H1 db).
  destruct (load_data_to_customers_db env cc db) as [db1 ev1].
  specialize (H2 db1).
  destruct (load_data_to_products_db env pc db1) as [db2 ev2].
  specialize (H3 db2).
  destruct (load_data_to_orders_db env (Some o) db2) as [db3 ev3].
  specialize (H4 db3).
  destruct (load_data_to_order_items_db env (Some oi) db3) as [db4 ev4].
  simpl in *. subst. rewrite !apply_patch_then. reflexivity.
Qed.

Lemma load_all_idempotent (env : DbEnv) (cc pc : option DataFrame) (o oi : DataFrame)
      (db : Store) :
  fst (load_all env cc pc o oi (fst (load_all env cc pc o oi db)))
  = fst (load_all env cc pc o oi db).
Proof.
  destruct (load_all_is_patch env cc pc o oi) as [p H].
  rewrite !H. apply apply_patch_idem.
Qed.

(** C5. Two runs of the pipeline on the same raw inputs, the second on the
    store the first one left, under the same behaviour of the database:
    both runs return, they compute the same cleaned and derived tables, and
    the second run leaves the store exactly as the first one did, so each of
    the four tables has the same number of rows; this holds for every store
    the first run starts on. *)
Theorem pipeline_rerun_is_full_replace {ext : External}
        (env : DbEnv) (files : RawData) (db : Store) :
  exists first_run second_run,
    run_main env files db = Ok first_run /\
    run_main env files (run_store first_run) = Ok second_run /\
    transformed second_run = transformed first_run /\
    run_store second_run = run_store first_run /\
    row_counts (run_store second_run) = row_counts (run_store first_run).
Proof.
  destruct (main_runs files) as (cc & pc & sc & rep & h & H).
  exists (run_of env db cc pc sc rep).
  exists (run_of env (run_store (run_of env db cc pc sc rep)) cc pc sc rep).
  unfold run_main. rewrite !H. simpl.
  repeat split; auto.
  - apply load_all_idempotent.
  - f_equal. apply load_all_idempotent.
Qed.

(** The tables a run computes depend on the raw inputs only. *)
Lemma cleaned_tables_do_not_depend_on_the_database {ext : External}
        (env env' : DbEnv) (files : RawData) (db db' : Store) :
  exists run run',
    run_main env files db = Ok run /\ run_main env' files db' = Ok run' /\
    transformed run = transformed run'.
Proof.
  destruct (main_runs files) as (cc & pc & sc & rep & h & H).
  exists (run_of env db cc pc sc rep), (run_of env' db' cc pc sc rep).
  unfold run_main. rewrite !H. auto.
Qed.



Ltac in_list := simpl; repeat first [left; reflexivity | right].



(** ** Behaviour at inputs where the source departs from the specification *)

(** The cleaners never raise past their boundary. *)
Lemma cleaners_never_raise {ext : External} (r : ref) :
  total (clean_customers r) /\ total (clean_products r) /\ total (clean_sales r).
Proof.
  split; [|split].
  - apply total_clean_customers.
  - apply total_clean_products.
  - apply total_clean_sales.
Qed.

(** C4. On the frame [extract_raw_data_from_csv] returns for a file it could
    not read, [clean_customers] and [clean_products] return [None], where
    [clean_sales] returns an empty table. *)
Theorem customers_and_products_cleaners_return_none {ext : External} :
  fst (clean_customers 0 [empty_frame]) = Ok None /\
  fst (clean_products 0 [empty_frame]) = Ok None /\
  returned_frame (clean_sales 0) [empty_frame] = Ok empty_frame.
Proof. repeat split; reflexivity. Qed.

(** C3. The report of a run is computed on the raw tables as the cleaners
    left them, not as they were extracted.  The two customers of
    [Sample.customers_two] differ as extracted, so a report on the extracted
    table counts no duplicate and two records; the report of the run counts
    one duplicate and one record, because [clean_customers] has by then
    rewritten the ids and trimmed the text of the very table the report
    reads. *)
Theorem quality_report_reads_cleaned_raw_tables :
  exists run,
    run_main (ext := Sample.libraries) Sample.always_up Sample.files
             Sample.empty_store = Ok run /\
    nth_error (run_report run) 0
    = Some (mkReport "customers_raw.csv" 2 1 0 1) /\
    generate_quality_report (raw_customers Sample.files) "customers_raw.csv"
    = mkReport "customers_raw.csv" 2 0 0 2 /\
    run_report run
    <> write_data_quality_report (raw_customers Sample.files)
                                 (raw_products Sample.files)
                                 (raw_sales Sample.files).
Proof.
  eexists. split; [vm_compute; reflexivity|].
  split; [reflexivity|]. split; [reflexivity|].
  vm_compute. discriminate.
Qed.

(** ** Dropping duplicates keeps first occurrences *)

Section KeepFirst.

Variable A : Type.
Variable same : A -> A -> bool.

Lemma keep_first_in (seen l : list A) (x : A) :
  In x (keep_first same seen l) <->
  exists before after,
    l = before ++ x :: after /\
    (forall y, In y seen -> same x y = false) /\
    (forall y, In y before -> same x y = false).
Proof.
  revert seen; induction l as [|a l IH]; intros seen; simpl.
  - split; [contradiction|]. intros (b & a' & E & _). destruct b; discriminate.
  - assert (Hnot : existsb (same a) seen = false <-> forall y, In y seen -> same a y = false).
    { split.
      - intros H y Hy. destruct (same a y) eqn:E; auto.
        assert (existsb (same a) seen = true) by (apply existsb_exists; eauto).
        congruence.
      - intros H. destruct (existsb (same a) seen) eqn:E; auto.
        apply existsb_exists in E as (y & Hy & Hs). rewrite H in Hs; auto. }
    assert (Hrec : In x (keep_first same (a :: seen) l) <->
                   exists before after,
                     l = before ++ x :: after /\
                     (forall y, In y seen -> same x y = false) /\
                     (forall y, In y (a :: before) -> same x y = false)).
    { rewrite IH. split; intros (b & a' & E & H1 & H2); exists b, a'; repeat split; auto.
      - intros y Hy. apply H1. now right.
      - intros y [<- | Hy]; [apply H1; now left | now apply H2].
      - intros y [<- | Hy]; [apply H2; now left | now apply H1].
      - intros y Hy. apply H2. now right. }
    split.
    + intros H.
      assert (Hx : (x = a /\ existsb (same a) seen = false)
                   \/ In x (keep_first same (a :: seen) l)).
      { destruct (existsb (same a) seen); [now right|].
        destruct H as [<- | H]; [left; auto | now right]. }
      destruct Hx as [[-> He] | Hx].
      * exists [], l. split; [reflexivity|]. split; [now apply Hnot | intros y []].
      * apply Hrec in Hx as (b & a' & E & H1 & H2).
        exists (a :: b), a'. subst. repeat split; auto.
    + intros (b & a' & E & H1 & H2). destruct b as [|b0 b]; simpl in E.
      * inversion E; subst. apply Hnot in H1. rewrite H1. now left.
      * inversion E; subst.
        assert (In x (keep_first same (b0 :: seen) (b ++ x :: a'))).
        { apply Hrec. exists b, a'. repeat split; auto. }
        destruct (existsb (same b0) seen); [assumption | now right].
Qed.

Lemma keep_first_pairs (seen l : list A) :
  ForallOrdPairs (fun a b => same b a = false) (keep_first same seen l) /\
  Forall (fun b => forall y, In y seen -> same b y = false) (keep_first same seen l).
Proof.
  revert seen; induction l as [|a l IH]; intros seen; simpl.
  - split; constructor.
  - destruct (IH (a :: seen)) as [P F].
    assert (F' : Forall (fun b => forall y, In y seen -> same b y = false)
                        (keep_first same (a :: seen) l)).
    { eapply Forall_impl; [|exact F]. intros b Hb y Hy. apply Hb. now right. }
    destruct (existsb (same a) seen) eqn:E; [split; assumption|].
    split.
    + constructor; auto.
      eapply Forall_impl; [|exact F]. intros b Hb. apply Hb. now left.
    + constructor; auto.
      intros y Hy. destruct (same a y) eqn:Es; auto.
      assert (existsb (same a) seen = true) by (apply existsb_exists; eauto).
      congruence.
Qed.

End KeepFirst.





Lemma same_key_single (n : nat) (a b : Z * list Cell) :
  same_key [n] a b = cell_eqb (cell n (snd a)) (cell n (snd b)).
Proof. unfold same_key. simpl. apply andb_true_r. Qed.

(** ** Cell-by-cell rewriting of a table in place *)

Lemma Forall2_same (A : Type) (P : A -> A -> Prop) (l : list A) :
  (forall x, P x x) -> Forall2 P l l.
Proof. intros H. induction l; constructor; auto. Qed.

Lemma Forall2_compose (A : Type) (P Q R : A -> A -> Prop) (l1 l2 l3 : list A) :
  (forall x y z, P x y -> Q y z -> R x z) ->
  Forall2 P l1 l2 -> Forall2 Q l2 l3 -> Forall2 R l1 l3.
Proof.
  intros H H12. revert l3. induction H12; intros l3 H23; inversion H23; subst;
    constructor; eauto.
Qed.

Lemma colwise_refl (d : DataFrame) : colwise d d.
Proof.
  split; [reflexivity|]. exists (fun _ c => c).
  apply Forall2_same. auto.
Qed.

Lemma colwise_trans (d1 d2 d3 : DataFrame) :
  colwise d1 d2 -> colwise d2 d3 -> colwise d1 d3.
Proof.
  intros [C12 [G1 F1]] [C23 [G2 F2]]. split; [congruence|].
  exists (fun n c => G2 n (G1 n c)).
  eapply Forall2_compose; [|exact F1|exact F2].
  intros x y z [L1 H1] [L2 H2]. split; [congruence|].
  intros n. now rewrite H2, H1.
Qed.

Lemma colwise_apply_col (c : string) (f : Cell -> Cell) (d d' : DataFrame) :
  apply_col c f d = Ok d' -> colwise d d'.
Proof.
  destruct (col_pos c (columns d)) as [n|] eqn:E.
  - rewrite (@apply_col_rows c f d n E). intros H; inversion H; subst; clear H.
    split; [reflexivity|].
    exists (fun m x => if Nat.eqb m n then f x else x). simpl.
    apply Forall2_map_right. intros x _. simpl. split; [reflexivity|].
    intros m. destruct (Nat.eqb_spec m n) as [->|Hm].
    + apply cell_set_at_same.
    + apply cell_set_at_other. congruence.
  - rewrite (@apply_col_missing c f d E). discriminate.
Qed.

Lemma str_accessor_ok (f : string -> string) (vs ws : list Cell) :
  str_accessor f vs = Ok ws -> ws = map (str_method f) vs.
Proof.
  unfold str_accessor. destruct vs as [|v vs]; [intros H; now inversion H|].
  destruct (existsb is_str (v :: vs)); intros H; now inversion H.
Qed.

Lemma colwise_str_step (f : string -> string) (c : string) (d d' : DataFrame) :
  (let? vs := getitem c d in
   let? ws := str_accessor f vs in
   Ok (setitem c ws d)) = Ok d' ->
  colwise d d'.
Proof.
  intros H. apply (@colwise_apply_col c (str_method f)).
  unfold apply_col. destruct (getitem c d) as [vs|]; simpl in *; [|discriminate].
  destruct (str_accessor f vs) as [ws|] eqn:E; simpl in *; [|discriminate].
  apply str_accessor_ok in E. now subst.
Qed.

Lemma replace_nth_id (A : Type) (l : list A) (n : nat) (x : A) :
  nth_error l n = Some x -> replace_nth n x l = l.
Proof.
  revert n; induction l as [|a l IH]; intros [|n] H; simpl in *; try discriminate; auto.
  - now inversion H.
  - now rewrite IH.
Qed.

Lemma for_each_inplace_colwise (cols : list string)
      (step : string -> DataFrame -> Res DataFrame) (r : ref) :
  (forall c d d', step c d = Ok d' -> colwise d d') ->
  forall (h : Heap) (d : DataFrame),
    nth_error h r = Some d ->
    exists res d',
      for_each cols (fun c => inplace r (step c)) h = (res, replace_nth r d' h) /\
      colwise d d'.
Proof.
  intros Hstep. induction cols as [|c cols IH]; intros h d Hr; simpl.
  - exists (Ok tt), d. unfold ret. rewrite replace_nth_id by assumption.
    split; [reflexivity | apply colwise_refl].
  - unfold bind. rewrite inplace_run, Hr.
    destruct (step c d) as [d1|] eqn:E.
    + destruct (IH (replace_nth r d1 h) d1) as (res & d' & Hrun & Hc).
      { eapply nth_error_replace_same; eauto. }
      exists res, d'. rewrite Hrun, replace_nth_twice. split; [reflexivity|].
      eapply colwise_trans; eauto.
    + exists Raised, d. rewrite replace_nth_id by assumption.
      split; [reflexivity | apply colwise_refl].
Qed.

Lemma trim_str_cols_run {ext : External} (h : Heap) (r : ref) (d : DataFrame) :
  nth_error h r = Some d ->
  exists d', trim_str_cols r h = (Ok r, replace_nth r d' h) /\ colwise d d'.
Proof.
  intros Hr. unfold trim_str_cols, try_except, bind at 1.
  erewrite read_ok by eassumption.
  destruct (@for_each_inplace_colwise (object_columns d)
              (fun col d => let? vs := getitem col d in
                            let? ws := str_accessor PyStr.strip vs in
                            Ok (setitem col ws d)) r) with (h := h) (d := d)
    as (res & d' & Hrun & Hc); auto.
  { intros c d0 d0'. apply colwise_str_step. }
  exists d'. unfold bind. rewrite Hrun. destruct res; auto.
Qed.

(** ** What [clean_sales] computes *)

Lemma filter_filter (A : Type) (p q : A -> bool) (l : list A) :
  filter q (filter p l) = filter (fun x => p x && q x) l.
Proof.
  induction l as [|x l IH]; simpl; auto.
  destruct (p x); simpl; [destruct (q x)|]; now rewrite IH.
Qed.

Lemma try_bind_ok (A B : Type) (m : M A) (k : A -> M B) (handler : M B)
      (h h' : Heap) (a : A) :
  m h = (Ok a, h') ->
  try_except (bind m k) handler h = try_except (k a) handler h'.
Proof. intros E. unfold try_except, bind. now rewrite E. Qed.

Lemma clean_sales_run {ext : External} (h : Heap) (r : ref) (d : DataFrame)
      (nt nc np nd : nat) :
  nth_error h r = Some d ->
  col_pos "transaction_id" (columns d) = Some nt ->
  col_pos "customer_id" (columns d) = Some nc ->
  col_pos "product_id" (columns d) = Some np ->
  col_pos "transaction_date" (columns d) = Some nd ->
  exists pre,
    colwise d pre /\
    let kept := keep_first (same_key [nt]) [] (rows pre) in
    let with_customer := filter (fun x => negb (isna (cell nc (snd x)))) kept in
    clean_sales r h
    = (Ok (length h + 2),
       replace_nth r pre h
       ++ [mkDF (columns d) kept;
           mkDF (columns d) with_customer;
           mkDF (columns d) (map (dated nd) (filter (ids_present nc np) kept))]).
Proof.
  intros Hr Ht Hc Hp Hd.
  destruct (apply_col "customer_id" remove_first_char d) as [d1|] eqn:E1;
    [|rewrite (@apply_col_rows _ _ _ _ Hc) in E1; discriminate].
  pose proof (colwise_apply_col _ _ _ E1) as C1.
  destruct C1 as [K1 _]. pose proof (colwise_apply_col _ _ _ E1) as C1.
  destruct (apply_col "product_id" remove_first_char d1) as [d2|] eqn:E2;
    [|rewrite (@apply_col_rows _ _ d1 np) in E2 by congruence; discriminate].
  pose proof (colwise_apply_col _ _ _ E2) as C2. destruct (C2) as [K2 _].
  destruct (apply_col "transaction_id" remove_first_char d2) as [d3|] eqn:E3;
    [|rewrite (@apply_col_rows _ _ d2 nt) in E3 by congruence; discriminate].
  pose proof (colwise_apply_col _ _ _ E3) as C3. destruct (C3) as [K3 _].
  assert (R1 : nth_error (replace_nth r d1 h) r = Some d1)
    by (eapply nth_error_replace_same; eauto).
  assert (R2 : nth_error (replace_nth r d2 h) r = Some d2)
    by (eapply nth_error_replace_same; eauto).
  assert (R3 : nth_error (replace_nth r d3 h) r = Some d3)
    by (eapply nth_error_replace_same; eauto).
  destruct (@trim_str_cols_run _ (replace_nth r d3 h) r d3 R3) as (pre & Etrim & C4).
  rewrite replace_nth_twice in Etrim. destruct (C4) as [K4 _].
  assert (Rp : nth_error (replace_nth r pre h) r = Some pre)
    by (eapply nth_error_replace_same; eauto).
  assert (Kp : columns pre = columns d) by congruence.
  exists pre. split.
  { eapply colwise_trans; [exact C1|]. eapply colwise_trans; [exact C2|].
    eapply colwise_trans; [exact C3|exact C4]. }
  intros kept with_customer.
  unfold clean_sales.
  erewrite try_bind_ok by (eapply inplace_ok; eassumption).
  erewrite try_bind_ok
    by (rewrite inplace_run, R1, E2, replace_nth_twice; reflexivity).
  erewrite try_bind_ok
    by (rewrite inplace_run, R2, E3, replace_nth_twice; reflexivity).
  erewrite try_bind_ok by exact Etrim.
  set (h4 := replace_nth r pre h) in *.
  assert (L4 : length h4 = length h) by apply length_replace_nth.
  erewrite try_bind_ok.
  2:{ rewrite fresh_run, Rp. unfold drop_duplicates, positions. rewrite Kp, Ht.
      simpl. reflexivity. }
  fold kept.
  erewrite try_bind_ok.
  2:{ rewrite fresh_run, nth_error_app_last. unfold dropna. simpl columns.
      rewrite Hc. simpl rows. reflexivity. }
  fold with_customer.
  erewrite try_bind_ok.
  2:{ rewrite fresh_run, nth_error_app_last. unfold dropna. simpl columns.
      rewrite Hp. simpl rows. reflexivity. }
  unfold try_except, bind. rewrite inplace_run, nth_error_app_last.
  rewrite (@apply_col_rows "transaction_date" standardize_date _ nd) by exact Hd.
  rewrite !length_app. simpl length. rewrite L4.
  cbn [ret columns rows].
  replace (length h + 1 + 1) with (length h + 2) by lia.
  f_equal.
  set (h6 := (h4 ++ [mkDF (columns d) kept]) ++ [mkDF (columns d) with_customer]).
  replace (length h + 2) with (length h6)
    by (unfold h6; rewrite !length_app; simpl; lia).
  rewrite replace_nth_app_last. unfold h6. rewrite <- !app_assoc. simpl app.
  unfold with_customer. rewrite filter_filter. reflexivity.
Qed.

(** ** Duplicate transaction ids *)








Lemma colwise_labels (d d' : DataFrame) :
  colwise d d' -> map fst (rows d') = map fst (rows d).
Proof.
  intros [_ [G F]]. induction F as [|x y l l' [E _] _ IH]; simpl; congruence.
Qed.

(** Cleaning keeps index labels: on a sales table that has the four columns
    the cleaner reads, every row of the cleaned table carries the label of a
    row of the raw table; no label is invented and none is renumbered. *)
Lemma clean_sales_keeps_labels {ext : External}
      (h : Heap) (r : ref) (d : DataFrame) (nt nc np nd : nat) :
  nth_error h r = Some d ->
  col_pos "transaction_id" (columns d) = Some nt ->
  col_pos "customer_id" (columns d) = Some nc ->
  col_pos "product_id" (columns d) = Some np ->
  col_pos "transaction_date" (columns d) = Some nd ->
  exists out,
    returned_frame (clean_sales r) h = Ok out /\
    forall o, In o (rows out) -> In (fst o) (map fst (rows d)).
Proof.
  intros Hr Ht Hc Hp Hd.
  destruct (@clean_sales_run _ h r d nt nc np nd Hr Ht Hc Hp Hd) as (pre & Cpre & Hrun).
  cbv zeta in Hrun. eexists. split.
  - unfold returned_frame, bind. rewrite Hrun. unfold read.
    rewrite nth_error_app2; rewrite length_replace_nth; [|lia].
    replace (length h + 2 - length h) with 2 by lia. reflexivity.
  - intros o Ho. cbn [rows] in Ho. apply in_map_iff in Ho as (x & <- & Hx).
    apply filter_In in Hx as [Hx _].
    apply keep_first_in in Hx as (before & after & E & _).
    rewrite <- (colwise_labels Cpre), E, map_app. simpl.
    apply in_or_app. right. now left.
Qed.

(** ** The quality report *)

Lemma duplicated_plus_kept (A : Type) (same : A -> A -> bool) (seen l : list A) :
  length (filter (fun b : bool => b) (duplicated_from same seen l))
  + length (keep_first same seen l) = length l.
Proof.
  revert seen; induction l as [|x l IH]; intros seen; simpl; auto.
  specialize (IH (x :: seen)).
  destruct (existsb (same x) seen); simpl; lia.
Qed.

Lemma filter_length_le (A : Type) (p : A -> bool) (l : list A) :
  length (filter p l) <= length l.
Proof. induction l as [|x l IH]; simpl; auto. destruct (p x); simpl; lia. Qed.

Lemma list_sum_zero (l : list nat) :
  list_sum l = 0 -> forall x, In x l -> x = 0.
Proof.
  induction l as [|a l IH]; simpl; intros H x Hx; [contradiction|].
  destruct Hx as [<- | Hx]; [lia | apply IH; auto; lia].
Qed.

Lemma filter_all (A : Type) (p : A -> bool) (l : list A) :
  (forall x, In x l -> p x = true) -> filter p l = l.
Proof.
  induction l as [|x l IH]; simpl; intros H; auto.
  rewrite H by (now left). f_equal. apply IH. intros y Hy. apply H. now right.
Qed.

Lemma keep_first_incl (A : Type) (same : A -> A -> bool) (seen l : list A) (x : A) :
  In x (keep_first same seen l) -> In x l.
Proof.
  revert seen; induction l as [|a l IH]; intros seen; simpl; auto.
  destruct (existsb (same a) seen); simpl; intros H.
  - right. eapply IH; eauto.
  - destruct H as [-> | H]; [now left | right; eapply IH; eauto].
Qed.

(** The figures of one quality-report entry are consistent: the processed count
    is the length of the table; the loaded rows and the rows flagged as
    duplicates never exceed it; for the customers and products files, and for
    any file without a missing cell, they add up to it exactly. *)
Theorem quality_report_counts_add_up (df : DataFrame) (file_name : string) :
  let r := generate_quality_report df file_name in
  records_processed r = df_len df /\
  records_loaded_successfully r + duplicates_removed r <= records_processed r /\
  (file_name = "customers_raw.csv" \/ file_name = "products_raw.csv" ->
   records_loaded_successfully r + duplicates_removed r = records_processed r) /\
  (missing_values_handled r = 0%nat ->
   records_loaded_successfully r + duplicates_removed r = records_processed r).
Proof.
  pose proof (duplicated_plus_kept (same_key (all_positions df)) [] (rows df)) as E.
  unfold generate_quality_report, df_len, duplicated, drop_duplicates_all, dropna_all.
  cbn [records_processed records_loaded_successfully duplicates_removed
       missing_values_handled rows columns].
  set (kept := keep_first (same_key (all_positions df)) [] (rows df)) in *.
  set (dups := length (filter (fun b : bool => b)
                              (duplicated_from (same_key (all_positions df)) [] (rows df)))) in *.
  split; [reflexivity|]. split; [|split].
  - destruct (String.eqb file_name "customers_raw.csv" || String.eqb file_name "products_raw.csv");
      cbn [rows columns].
    + lia.
    + pose proof (filter_length_le
                    (fun r => forallb (fun n => negb (isna (cell n (snd r))))
                                      (all_positions (mkDF (columns df) kept))) kept).
      lia.
  - intros [-> | ->]; cbn [String.eqb Ascii.eqb Bool.eqb orb rows]; lia.
  - intros Hnull.
    destruct (String.eqb file_name "customers_raw.csv" || String.eqb file_name "products_raw.csv");
      cbn [rows columns]; [lia|].
    rewrite filter_all; [lia|].
    intros x Hx. apply keep_first_incl in Hx.
    unfold count_null in Hnull.
    assert (Hz : length (filter isna (map (fun n => cell n (snd x)) (all_positions df))) = 0%nat).
    { apply (list_sum_zero _ Hnull). apply in_map_iff. exists x. auto. }
    apply forallb_forall. intros n Hn.
    destruct (isna (cell n (snd x))) eqn:E'; auto.
    assert (In (cell n (snd x)) (filter isna (map (fun n => cell n (snd x)) (all_positions df)))).
    { apply filter_In. split; auto. apply in_map_iff. exists n. auto. }
    destruct (filter isna (map (fun n0 => cell n0 (snd x)) (all_positions df)));
      [contradiction | discriminate].
Qed.

(** ** One load: atomicity and release of the connection *)

Lemma execute_all_result (env : DbEnv) (t : Table) (stmts : list Statement) (w : Store) :
  match execute_all env t stmts w with
  | (Ok w', ev) =>
      w' = fold_left (fun s st => run_statement st s) stmts w /\
      ev = map (Executed t) stmts
  | (Raised, ev) =>
      exists done st, ev = map (Executed t) done ++ [Refused t st] /\
                      incl done stmts
  end.
Proof.
  revert w; induction stmts as [|st rest IH]; intros w; simpl; auto.
  destruct (executes env t st).
  - specialize (IH (run_statement st w)).
    destruct (execute_all env t rest (run_statement st w)) as [[w'|] ev].
    + destruct IH as [-> ->]. auto.
    + destruct IH as (done & st' & -> & Hi).
      exists (st :: done), st'. split; [reflexivity|].
      intros x [<- | Hx]; [now left | right; auto].
  - exists [], st. split; [reflexivity | intros x []].
Qed.

Lemma fold_deletes (dqs : list Table) (db : Store) :
  fold_left (fun s st => run_statement st s) (map DeleteFrom dqs) db
  = fold_left (fun w q => run_statement (DeleteFrom q) w) dqs db.
Proof. revert db; induction dqs as [|q dqs IH]; intros db; simpl; auto. Qed.

Lemma no_commit_in_deletes (t : Table) (done : list Statement) :
  (forall x, In x done -> x <> Commit) ->
  existsb is_commit (map (Executed t) done) = false.
Proof.
  induction done as [|x done IH]; simpl; intros H; auto.
  rewrite IH by (intros y Hy; apply H; now right).
  destruct x; auto. exfalso. apply (H Commit); [now left | reflexivity].
Qed.

Lemma no_commit_event (events : list Event) :
  existsb is_commit events = false -> forall l, ~ In (Executed l Commit) events.
Proof.
  intros H l Hin.
  assert (existsb is_commit events = true)
    by (apply existsb_exists; exists (Executed l Commit); auto).
  congruence.
Qed.

Lemma deletes_are_not_commit (dqs : list Table) :
  forall x, In x (map DeleteFrom dqs) -> x <> Commit.
Proof. intros x Hx. apply in_map_iff in Hx as (q & <- & _). discriminate. Qed.

Lemma load_outcome (env : DbEnv) (df : option DataFrame) (t : Table)
        (cols : list string) (dqs : list Table) (db : Store) :
  let (db', events) := load_data_to_table env df t cols dqs db in
  (In (Executed t Commit) events /\
   exists d p, df = Some d /\ project cols d = Ok p /\
               db' = replaced t dqs (map snd (rows p)) db) \/
  (existsb is_commit events = false /\ db' = db).
Proof.
  unfold load_data_to_table.
  destruct df as [d|]; [|right; split; [reflexivity | reflexivity]].
  destruct (df_empty d); [right; split; [reflexivity | reflexivity]|].
  destruct (connects env t); cbn [negb];
    [|right; split; [reflexivity | reflexivity]].
  pose proof (execute_all_result env t (map DeleteFrom dqs) db) as H1.
  assert (Hopen : existsb is_commit
                    (GetConnection t true
                     :: (match t with Customers => [CreateAllTables] | _ => [] end)
                     ++ [LogInfo ("Deleting existing data from " ++ table_name t
                                  ++ " table before loading new data.")]) = false)
    by (destruct t; reflexivity).
  destruct (execute_all env t (map DeleteFrom dqs) db) as [[w1|] ev1].
  2:{ right. split; [|reflexivity]. destruct H1 as (done & st & -> & Hi).
      rewrite !existsb_app, Hopen.
      rewrite no_commit_in_deletes; [reflexivity|].
      intros x Hx. apply (deletes_are_not_commit dqs). now apply Hi. }
  destruct H1 as [-> ->]. rewrite fold_deletes.
  assert (Hdel : existsb is_commit (map (Executed t) (map DeleteFrom dqs)) = false)
    by (apply no_commit_in_deletes, deletes_are_not_commit).
  destruct (project cols d) as [p|] eqn:Ep.
  2:{ right. split; [|reflexivity].
      now rewrite !existsb_app, Hopen, Hdel. }
  simpl execute_all.
  destruct (executes env t (InsertInto t (map snd (rows p)))).
  2:{ right. split; [|reflexivity].
      now rewrite !existsb_app, Hopen, Hdel. }
  destruct (executes env t Commit).
  2:{ right. split; [|reflexivity].
      now rewrite !existsb_app, Hopen, Hdel. }
  left. split.
  - destruct t; simpl; rewrite ?in_app_iff; simpl; intuition auto.
  - exists d, p. repeat split; auto.
Qed.

(** A load is all or nothing.  Either its transaction was committed, and then
    the table holds exactly the projected rows of the frame on top of the store
    with the listed tables emptied; or no commit was executed and the store is
    the one the load started from, whatever failed on the way. *)
Theorem load_is_all_or_nothing (env : DbEnv) (df : option DataFrame) (t : Table)
        (cols : list string) (dqs : list Table) (db : Store) :
  let (db', events) := load_data_to_table env df t cols dqs db in
  (In (Executed t Commit) events /\
   exists d p, df = Some d /\ project cols d = Ok p /\
               db' = replaced t dqs (map snd (rows p)) db) \/
  ((forall l, ~ In (Executed l Commit) events) /\ db' = db).
Proof.
  pose proof (load_outcome env df t cols dqs db) as H.
  destruct (load_data_to_table env df t cols dqs db) as [db' events].
  destruct H as [H | [Hnone Hdb]]; [now left | right].
  split; [now apply no_commit_event | assumption].
Qed.

(** ** The loads: what a commit leaves, the connection protocol, the order *)

Ltac no_commit H := simpl in H; intuition discriminate.

(** A committed load replaces its table by the rows of the frame, in the
    loader's column order.  The customers load also empties orders and order
    items, the products load also empties order items; no other table
    changes. *)
Theorem committed_load_replaces_and_cascades (env : DbEnv) (d : DataFrame) (db : Store) :
  (In (Executed Customers Commit) (snd (load_data_to_customers_db env (Some d) db)) ->
   exists p, project customer_columns d = Ok p /\
     fst (load_data_to_customers_db env (Some d) db)
     = mkStore (map snd (rows p)) (products_rows db) [] []) /\
  (In (Executed Products Commit) (snd (load_data_to_products_db env (Some d) db)) ->
   exists p, project product_columns d = Ok p /\
     fst (load_data_to_products_db env (Some d) db)
     = mkStore (customers_rows db) (map snd (rows p)) (orders_rows db) []) /\
  (In (Executed Orders Commit) (snd (load_data_to_orders_db env (Some d) db)) ->
   exists p, project ["order_id"; "customer_id"; "order_date"; "total_amount"; "status"] d
             = Ok p /\
     fst (load_data_to_orders_db env (Some d) db)
     = mkStore (customers_rows db) (products_rows db) (map snd (rows p))
               (order_items_rows db)) /\
  (In (Executed OrderItems Commit) (snd (load_data_to_order_items_db env (Some d) db)) ->
   exists p, project ["order_item_id"; "order_id"; "product_id"; "quantity";
                      "unit_price"; "subtotal"] d = Ok p /\
     fst (load_data_to_order_items_db env (Some d) db)
     = mkStore (customers_rows db) (products_rows db) (orders_rows db)
               (map snd (rows p))).
Proof.
  repeat split.
  - unfold load_data_to_customers_db, load_data_to_table.
    destruct (df_empty d); [intros H; no_commit H|].
    destruct (connects env Customers); simpl; [|intros H; no_commit H].
    destruct (executes env Customers (DeleteFrom OrderItems)); simpl;
      [|intros H; no_commit H].
    destruct (executes env Customers (DeleteFrom Orders)); simpl;
      [|intros H; no_commit H].
    destruct (executes env Customers (DeleteFrom Customers)); simpl;
      [|intros H; no_commit H].
    destruct (project customer_columns d) as [p|]; [|intros H; no_commit H].
    destruct (executes env Customers (InsertInto Customers (map snd (rows p)))); simpl;
      [|intros H; no_commit H].
    destruct (executes env Customers Commit); simpl; [|intros H; no_commit H].
    intros _. exists p. split; reflexivity.
  - unfold load_data_to_products_db, load_data_to_table.
    destruct (df_empty d); [intros H; no_commit H|].
    destruct (connects env Products); simpl; [|intros H; no_commit H].
    destruct (executes env Products (DeleteFrom OrderItems)); simpl;
      [|intros H; no_commit H].
    destruct (executes env Products (DeleteFrom Products)); simpl;
      [|intros H; no_commit H].
    destruct (project product_columns d) as [p|]; [|intros H; no_commit H].
    destruct (executes env Products (InsertInto Products (map snd (rows p)))); simpl;
      [|intros H; no_commit H].
    destruct (executes env Products Commit); simpl; [|intros H; no_commit H].
    intros _. exists p. split; reflexivity.
  - unfold load_data_to_orders_db, load_data_to_table.
    destruct (df_empty d); [intros H; no_commit H|].
    destruct (connects env Orders); simpl; [|intros H; no_commit H].
    destruct (executes env Orders (DeleteFrom Orders)); simpl;
      [|intros H; no_commit H].
    destruct (project _ d) as [p|]; [|intros H; no_commit H].
    destruct (executes env Orders (InsertInto Orders (map snd (rows p)))); simpl;
      [|intros H; no_commit H].
    destruct (executes env Orders Commit); simpl; [|intros H; no_commit H].
    intros _. exists p. split; reflexivity.
  - unfold load_data_to_order_items_db, load_data_to_table.
    destruct (df_empty d); [intros H; no_commit H|].
    destruct (connects env OrderItems); simpl; [|intros H; no_commit H].
    destruct (executes env OrderItems (DeleteFrom OrderItems)); simpl;
      [|intros H; no_commit H].
    destruct (project _ d) as [p|]; [|intros H; no_commit H].
    destruct (executes env OrderItems (InsertInto OrderItems (map snd (rows p)))); simpl;
      [|intros H; no_commit H].
    destruct (executes env OrderItems Commit); simpl; [|intros H; no_commit H].
    intros _. exists p. split; reflexivity.
Qed.

Lemma committed_load_replaces_and_cascades_witness :
  fst (load_data_to_customers_db Sample.always_up (Some Sample.customers_emails)
                                 store_with_orders)
  = mkStore (map snd (rows Sample.customers_emails)) [] [] [].
Proof.
  destruct (committed_load_replaces_and_cascades Sample.always_up
              Sample.customers_emails store_with_orders) as [H _].
  destruct H as (p & Hp & Hs); [in_list|].
  rewrite Hs. vm_compute in Hp. injection Hp as <-. reflexivity.
Defined.






Lemma load_ranks_app (a b : list Event) :
  load_ranks (a ++ b) = load_ranks a ++ load_ranks b.
Proof. apply flat_map_app. Qed.

Lemma load_ranks_of_one_load (t : Table) (events : list Event) :
  Forall (fun e => event_load e = None \/ event_load e = Some t) events ->
  exists k, load_ranks events = repeat (load_rank t) k.
Proof.
  induction 1 as [|e events [He|He] _ [k IH]].
  - now exists 0%nat.
  - exists k. unfold load_ranks in *. simpl. now rewrite He.
  - exists (S k). unfold load_ranks in *. simpl. rewrite He. simpl. now rewrite IH.
Qed.

Ltac own_events :=
  repeat first [assumption | apply Forall_app; split | apply Forall_nil
               | apply Forall_cons; [simpl; auto|]].

Lemma execute_all_events (env : DbEnv) (t : Table) (stmts : list Statement) (w : Store) :
  Forall (fun e => event_load e = None \/ event_load e = Some t)
         (snd (execute_all env t stmts w)).
Proof.
  revert w; induction stmts as [|st rest IH]; intros w; simpl; auto.
  destruct (executes env t st).
  - specialize (IH (run_statement st w)).
    destruct (execute_all env t rest (run_statement st w)) as [r ev].
    simpl in *. constructor; auto.
  - simpl. constructor; auto.
Qed.

Lemma load_events_of_one_load (env : DbEnv) (df : option DataFrame) (t : Table)
      (cols : list string) (dqs : list Table) (db : Store) :
  Forall (fun e => event_load e = None \/ event_load e = Some t)
         (snd (load_data_to_table env df t cols dqs db)).
Proof.
  unfold load_data_to_table.
  destruct df as [d|]; [|own_events].
  destruct (df_empty d); [own_events|].
  destruct (connects env t); cbn [negb]; [|own_events].
  assert (Hopen : Forall (fun e => event_load e = None \/ event_load e = Some t)
                    (GetConnection t true
                     :: (match t with Customers => [CreateAllTables] | _ => [] end)
                     ++ [LogInfo ("Deleting existing data from " ++ table_name t
                                  ++ " table before loading new data.")]))
    by (destruct t; own_events).
  pose proof (execute_all_events env t (map DeleteFrom dqs) db) as H1.
  destruct (execute_all env t (map DeleteFrom dqs) db) as [[w1|] ev1];
    cbn [snd] in *.
  2:{ own_events. }
  destruct (project cols d) as [p|]; cbn [snd].
  2:{ own_events. }
  pose proof (execute_all_events env t [InsertInto t (map snd (rows p)); Commit] w1)
    as H2.
  destruct (execute_all env t [InsertInto t (map snd (rows p)); Commit] w1)
    as [[w2|] ev2]; cbn [snd] in *;
    own_events.
Qed.

Lemma sorted_after_repeat (n k : nat) (l : list nat) :
  StronglySorted le l -> Forall (le n) l -> StronglySorted le (repeat n k ++ l).
Proof.
  intros Hs Hl. induction k as [|k IH]; simpl; auto.
  constructor; auto. apply Forall_app. split; auto.
  clear. induction k; simpl; constructor; auto.
Qed.

Lemma Forall_le_repeat (n m k : nat) : n <= m -> Forall (le n) (repeat m k).
Proof. intros H. induction k; simpl; constructor; auto. Qed.

(** The loads of a run come in the order customers, products, orders, order
    items, and their events are never interleaved: along the log, the rank
    of the load an event belongs to never decreases.  In particular no
    parent table is emptied after rows of a child table were inserted. *)
Theorem loads_run_in_dependency_order {ext : External}
        (env : DbEnv) (files : RawData) (db : Store) :
  exists run,
    run_main env files db = Ok run /\
    StronglySorted le (load_ranks (run_events run)).
Proof.
  destruct (main_runs files) as (cc & pc & sc & rep & h & H).
  exists (run_of env db cc pc sc rep). unfold run_main. rewrite H.
  split; [reflexivity|].
  unfold run_of, load_all. cbn [run_events snd].
  pose proof (load_events_of_one_load env cc Customers customer_columns
                [OrderItems; Orders; Customers] db) as P1.
  fold (load_data_to_customers_db env cc db) in P1.
  destruct (load_data_to_customers_db env cc db) as [db1 ev1].
  pose proof (load_events_of_one_load env pc Products product_columns
                [OrderItems; Products] db1) as P2.
  fold (load_data_to_products_db env pc db1) in P2.
  destruct (load_data_to_products_db env pc db1) as [db2 ev2].
  unfold load_data_to_orders_db, load_data_to_order_items_db.
  match goal with |- context [load_data_to_table env ?df Orders ?cols ?dqs db2] =>
    pose proof (load_events_of_one_load env df Orders cols dqs db2) as P3;
    destruct (load_data_to_table env df Orders cols dqs db2) as [db3 ev3] end.
  match goal with |- context [load_data_to_table env ?df OrderItems ?cols ?dqs db3] =>
    pose proof (load_events_of_one_load env df OrderItems cols dqs db3) as P4;
    destruct (load_data_to_table env df OrderItems cols dqs db3) as [db4 ev4] end.
  cbn [snd] in *.
  apply load_ranks_of_one_load in P1 as [k1 E1], P2 as [k2 E2],
                                  P3 as [k3 E3], P4 as [k4 E4].
  rewrite !load_ranks_app, E1, E2, E3, E4. simpl load_rank.
  apply sorted_after_repeat;
    [apply sorted_after_repeat;
       [apply sorted_after_repeat;
          [rewrite <- (app_nil_r (repeat 3 k4)); apply sorted_after_repeat; constructor|]|]|];
    repeat (apply Forall_app; split); apply Forall_le_repeat; lia.
Qed.

(** ** Validation and column selection *)

Lemma positions_ok_iff (cs header : list string) :
  (exists ns, positions cs header = Ok ns)
  <-> filter (fun col => match col_pos col header with
                         | None => true
                         | Some _ => false
                         end) cs = [].
Proof.
  induction cs as [|c cs IH]; simpl.
  - split; eauto.
  - destruct (col_pos c header) as [n|].
    + rewrite <- IH. split.
      * intros [ns H]. destruct (positions cs header); [eauto | discriminate].
      * intros [ns ->]. simpl. eauto.
    + split; [intros [ns H]|intros H]; discriminate.
Qed.

(** [validate_dataframe] accepts exactly the frames the loader can take: it
    answers yes when the frame is there, is not empty, and the selection of
    the expected columns does not raise; it answers no in every other
    case. *)
Theorem validate_dataframe_predicts_column_selection
        (df : option DataFrame) (expected_columns : list string) :
  validate_dataframe df expected_columns
  = match df with
    | None => false
    | Some d =>
        negb (df_empty d)
        && match project expected_columns d with
           | Ok _ => true
           | Raised => false
           end
    end.
Proof.
  destruct df as [d|]; [|reflexivity].
  unfold validate_dataframe, project.
  destruct (df_empty d); [reflexivity|]. cbn [negb andb].
  pose proof (positions_ok_iff expected_columns (columns d)) as [H1 H2].
  destruct (positions expected_columns (columns d)) as [ns|]; simpl.
  - rewrite H1 by eauto. reflexivity.
  - destruct (filter _ expected_columns); [|reflexivity].
    destruct H2 as [ns H]; [reflexivity | discriminate].
Qed.

(** ** The frames handed to the orders and order items loads *)

Lemma rows_of_project (cs : list string) (d p : DataFrame) :
  project cs d = Ok p ->
  columns p = cs /\ Forall (fun r => length (snd r) = length cs) (rows p).
Proof.
  unfold project. destruct (positions cs (columns d)) as [ns|] eqn:E; [|discriminate].
  simpl. intros [= <-]. simpl. split; [reflexivity|].
  assert (length ns = length cs) as <-.
  { revert ns E. induction cs as [|c cs IH]; simpl; intros ns E.
    - now injection E as <-.
    - destruct (col_pos c (columns d)); [|discriminate].
      destruct (positions cs (columns d)) as [ms|]; [|discriminate].
      simpl in E. injection E as <-. simpl. f_equal. now apply IH. }
  apply Forall_forall. intros r Hr. apply in_map_iff in Hr as (x & <- & _).
  simpl. apply length_map.
Qed.

Lemma Forall_keep_first (A : Type) (P : A -> Prop) (same : A -> A -> bool)
      (seen l : list A) :
  Forall P l -> Forall P (keep_first same seen l).
Proof.
  intros H. revert seen. induction H as [|x l Hx _ IH]; intros seen; simpl; auto.
  destruct (existsb (same x) seen); auto.
Qed.

Lemma cells_of_five (r : list Cell) :
  length r = 5%nat -> map (fun n => cell n r) [0; 1; 2; 3; 4]%nat = r.
Proof. do 6 (destruct r as [|? r]; try discriminate). reflexivity. Qed.

Lemma cells_of_six (r : list Cell) :
  length r = 6%nat -> map (fun n => cell n r) [0; 1; 2; 3; 4; 5]%nat = r.
Proof. do 7 (destruct r as [|? r]; try discriminate). reflexivity. Qed.

Lemma map_id_on (A : Type) (f : A -> A) (l : list A) :
  Forall (fun x => f x = x) l -> map f l = l.
Proof. induction 1 as [|x l H _ IH]; simpl; auto. now rewrite H, IH. Qed.

(** Whatever the cleaned sales table holds, the two frames derived from it
    fit their loaders: each is the empty frame, which the load skips, or a
    frame with exactly the loader's columns, so that the loader's column
    selection returns it unchanged and cannot raise. *)
Theorem split_frames_fit_their_loaders (sales_clean : DataFrame) :
  (split_sales_to_orders sales_clean = empty_frame \/
   project ["order_id"; "customer_id"; "order_date"; "total_amount"; "status"]
           (split_sales_to_orders sales_clean)
   = Ok (split_sales_to_orders sales_clean)) /\
  (split_sales_to_order_items sales_clean = empty_frame \/
   project ["order_item_id"; "order_id"; "product_id"; "quantity"; "unit_price";
            "subtotal"]
           (split_sales_to_order_items sales_clean)
   = Ok (split_sales_to_order_items sales_clean)).
Proof.
  split.
  - unfold split_sales_to_orders.
    destruct (getitem "transaction_id" sales_clean) as [tid|]; [|now left]. simpl.
    destruct (getitem "quantity" _) as [qty|]; [|now left]. simpl.
    destruct (getitem "unit_price" _) as [price|]; [|now left]. simpl.
    destruct (mul_series qty price) as [total|]; [|now left]. simpl.
    destruct (project order_columns _) as [orders|] eqn:E; [|now left]. simpl.
    right. apply rows_of_project in E as [Hc Hr].
    unfold project, rename, drop_duplicates_all. cbn [columns rows]. rewrite Hc.
    simpl. do 2 f_equal. apply map_id_on.
    apply Forall_keep_first.
    eapply Forall_impl; [|exact Hr]. intros [l r] Hl. simpl in *.
    f_equal. exact (cells_of_five r Hl).
  - unfold split_sales_to_order_items.
    destruct (getitem "quantity" _) as [qty|]; [|now left]. simpl.
    destruct (getitem "unit_price" _) as [price|]; [|now left]. simpl.
    destruct (mul_series qty price) as [subtotal|]; [|now left]. simpl.
    destruct (project order_item_columns _) as [items|] eqn:E; [|now left]. simpl.
    right. apply rows_of_project in E as [Hc Hr].
    unfold project, rename. cbn [columns rows]. rewrite Hc.
    simpl. do 2 f_equal. apply map_id_on.
    eapply Forall_impl; [|exact Hr]. intros [l r] Hl. simpl in *.
    f_equal. exact (cells_of_six r Hl).
Qed.

(** ** Text helpers: stripping and category names *)

Lemma lstrip_head (s : string) :
  match PyStr.lstrip s with
  | EmptyString => True
  | String c _ => PyStr.is_space c = false
  end.
Proof.
  induction s as [|c s IH]; simpl; auto.
  destruct (PyStr.is_space c) eqn:E; auto.
Qed.

Lemma lstrip_fixed (s : string) :
  match s with
  | EmptyString => True
  | String c _ => PyStr.is_space c = false
  end -> PyStr.lstrip s = s.
Proof. destruct s as [|c s]; simpl; auto. now intros ->. Qed.

Lemma rstrip_head (s : string) :
  match s with
  | EmptyString => True
  | String c _ => PyStr.is_space c = false
  end ->
  match PyStr.rstrip s with
  | EmptyString => True
  | String c _ => PyStr.is_space c = false
  end.
Proof.
  destruct s as [|c s]; simpl; auto. intros Hc.
  destruct (PyStr.rstrip s); [rewrite Hc|]; assumption.
Qed.

Lemma rstrip_cons (c : ascii) (s : string) :
  PyStr.rstrip (String c s)
  = match PyStr.rstrip s with
    | EmptyString => if PyStr.is_space c then EmptyString else String c EmptyString
    | t => String c t
    end.
Proof. reflexivity. Qed.

Lemma rstrip_idem (s : string) : PyStr.rstrip (PyStr.rstrip s) = PyStr.rstrip s.
Proof.
  induction s as [|c s IH]; simpl; auto.
  destruct (PyStr.rstrip s) as [|c' t] eqn:E.
  - destruct (PyStr.is_space c) eqn:Hc; simpl; [reflexivity | now rewrite Hc].
  - rewrite rstrip_cons. now rewrite IH.
Qed.

Lemma lstrip_strip (s : string) : PyStr.lstrip (PyStr.strip s) = PyStr.strip s.
Proof. apply lstrip_fixed, rstrip_head, lstrip_head. Qed.

Lemma rstrip_strip (s : string) : PyStr.rstrip (PyStr.strip s) = PyStr.strip s.
Proof. apply rstrip_idem. Qed.

Lemma strip_idem (s : string) : PyStr.strip (PyStr.strip s) = PyStr.strip s.
Proof. unfold PyStr.strip at 1. now rewrite lstrip_strip, rstrip_strip. Qed.

(** [clean_spaces] and the strip it applies are idempotent, and what they
    return neither starts nor ends with white space: cleaning a cleaned value
    again changes nothing. *)
Theorem clean_spaces_is_idempotent (val : Cell) :
  clean_spaces (clean_spaces val) = clean_spaces val /\
  match clean_spaces val with
  | Str s => PyStr.lstrip s = s /\ PyStr.rstrip s = s
  | _ => clean_spaces val = val
  end.
Proof.
  destruct val as [|s|q]; simpl; auto.
  rewrite strip_idem, lstrip_strip, rstrip_strip. auto.
Qed.









Lemma lower_idem (s : string) : PyStr.lower (PyStr.lower s) = PyStr.lower s.
Proof.
  induction s as [|c s IH]; simpl; auto. rewrite IH. f_equal.
  destruct c as [[] [] [] [] [] [] [] []]; reflexivity.
Qed.


(** ** The cleaners change only the table they are given *)

Lemma changes_only_ret (A : Type) (r : ref) (a : A) : changes_only r (ret a).
Proof. intros h r' _ _. reflexivity. Qed.

Lemma changes_only_read (r r0 : ref) : changes_only r (read r0).
Proof. intros h r' _ _. unfold read. now destruct (nth_error h r0). Qed.

Lemma changes_only_lift (A : Type) (r : ref) (x : Res A) : changes_only r (lift x).
Proof. intros h r' _ _. reflexivity. Qed.

Lemma changes_only_write (r : ref) (d : DataFrame) : changes_only r (write r d).
Proof. intros h r' Hne _. simpl. apply nth_error_replace_other. congruence. Qed.

Lemma changes_only_alloc (r : ref) (d : DataFrame) : changes_only r (alloc d).
Proof. intros h r' _ Hlt. simpl. now apply nth_error_app1. Qed.

Lemma changes_only_bind (A B : Type) (r : ref) (m : M A) (k : A -> M B) :
  changes_only r m -> grows m -> (forall a, changes_only r (k a)) ->
  changes_only r (bind m k).
Proof.
  intros Hm Hg Hk h r' Hne Hlt. unfold bind.
  specialize (Hm h r' Hne Hlt). specialize (Hg h).
  destruct (m h) as [[a|] h1]; simpl in *; auto.
  rewrite Hk; auto. lia.
Qed.

Lemma changes_only_bind_ref (B : Type) (r : ref) (m : M ref) (k : ref -> M B) :
  changes_only r m -> grows m -> returns_own r m ->
  (forall a, changes_only a (k a)) ->
  changes_only r (bind m k).
Proof.
  intros Hm Hg Ho Hk h r' Hne Hlt. unfold bind.
  specialize (Hm h r' Hne Hlt). specialize (Hg h). specialize (Ho h).
  destruct (m h) as [[a|] h1]; simpl in *; auto.
  rewrite Hk; auto; [|lia].
  destruct Ho as [-> | Ho]; [assumption | lia].
Qed.

Lemma changes_only_try (A : Type) (r : ref) (m handler : M A) :
  changes_only r m -> grows m -> changes_only r handler ->
  changes_only r (try_except m handler).
Proof.
  intros Hm Hg Hh h r' Hne Hlt. unfold try_except.
  specialize (Hm h r' Hne Hlt). specialize (Hg h).
  destruct (m h) as [[a|] h1]; simpl in *; auto.
  rewrite Hh; auto. lia.
Qed.

Lemma changes_only_inplace (r : ref) (f : DataFrame -> Res DataFrame) :
  changes_only r (inplace r f).
Proof.
  intros h r' Hne Hlt. rewrite inplace_run.
  destruct (nth_error h r) as [d|]; [|reflexivity].
  destruct (f d); [|reflexivity]. simpl. apply nth_error_replace_other. congruence.
Qed.

Lemma changes_only_fresh (r : ref) (f : DataFrame -> Res DataFrame) :
  changes_only r (fresh r f).
Proof.
  intros h r' Hne Hlt. rewrite fresh_run.
  destruct (nth_error h r) as [d|]; [|reflexivity].
  destruct (f d); [|reflexivity]. simpl. now apply nth_error_app1.
Qed.

Lemma returns_own_fresh (r : ref) (f : DataFrame -> Res DataFrame) :
  returns_own r (fresh r f).
Proof.
  intros h. rewrite fresh_run.
  destruct (nth_error h r) as [d|]; [|exact I].
  destruct (f d); [right; lia | exact I].
Qed.

Lemma changes_only_for_each (A : Type) (r : ref) (l : list A) (body : A -> M unit) :
  (forall x, changes_only r (body x)) -> (forall x, grows (body x)) ->
  changes_only r (for_each l body).
Proof.
  intros Hb Hg. induction l as [|x l IH]; simpl.
  - apply changes_only_ret.
  - apply changes_only_bind; auto.
Qed.

Lemma returns_ret (r : ref) : returns r (ret r).
Proof. intros h. reflexivity. Qed.

Lemma returns_bind (A : Type) (r : ref) (m : M A) (k : A -> M ref) :
  (forall a, returns r (k a)) -> returns r (bind m k).
Proof.
  intros Hk h. unfold bind. destruct (m h) as [[a|] h1]; [apply Hk | exact I].
Qed.

Lemma returns_try (r : ref) (m handler : M ref) :
  returns r m -> returns r handler -> returns r (try_except m handler).
Proof.
  intros Hm Hh h. unfold try_except. specialize (Hm h).
  destruct (m h) as [[a|] h1]; [assumption | apply Hh].
Qed.

Lemma returns_is_own (r : ref) (m : M ref) : returns r m -> returns_own r m.
Proof.
  intros H h. specialize (H h). destruct (m h) as [[a|] h1]; auto.
Qed.


#[local] Hint Resolve changes_only_ret changes_only_read changes_only_lift
  changes_only_alloc changes_only_bind changes_only_bind_ref changes_only_try
  changes_only_inplace changes_only_fresh changes_only_for_each
  returns_own_fresh returns_ret returns_bind returns_try returns_is_own : heap.

Section Frame.

Context {ext : External}.

Lemma trim_str_cols_frame (r : ref) :
  changes_only r (trim_str_cols r) /\ returns r (trim_str_cols r).
Proof. unfold trim_str_cols. split; auto 10 with heap. Qed.

Lemma fill_missing_email_frame (r : ref) :
  changes_only r (fill_missing_email r) /\ returns r (fill_missing_email r).
Proof. unfold fill_missing_email. split; auto 10 with heap. Qed.

Lemma fill_median_frame (r : ref) :
  changes_only r (fill_missing_product_data_with_median r) /\
  returns r (fill_missing_product_data_with_median r).
Proof. unfold fill_missing_product_data_with_median. split; auto 10 with heap. Qed.

Lemma changes_only_trim (r : ref) : changes_only r (trim_str_cols r).
Proof. apply trim_str_cols_frame. Qed.
Lemma returns_trim (r : ref) : returns r (trim_str_cols r).
Proof. apply trim_str_cols_frame. Qed.
Lemma changes_only_fill_email (r : ref) : changes_only r (fill_missing_email r).
Proof. apply fill_missing_email_frame. Qed.
Lemma returns_fill_email (r : ref) : returns r (fill_missing_email r).
Proof. apply fill_missing_email_frame. Qed.
Lemma changes_only_fill_median (r : ref) :
  changes_only r (fill_missing_product_data_with_median r).
Proof. apply fill_median_frame. Qed.
Lemma returns_fill_median (r : ref) :
  returns r (fill_missing_product_data_with_median r).
Proof. apply fill_median_frame. Qed.

#[local] Hint Resolve changes_only_trim returns_trim changes_only_fill_email
  returns_fill_email changes_only_fill_median returns_fill_median
  grows_trim_str_cols grows_fill_missing_email grows_fill_median : heap.

Lemma changes_only_clean_customers (r : ref) : changes_only r (clean_customers r).
Proof. unfold clean_customers. auto 30 with heap. Qed.

Lemma changes_only_clean_products (r : ref) : changes_only r (clean_products r).
Proof. unfold clean_products. auto 30 with heap. Qed.

Lemma changes_only_clean_sales (r : ref) : changes_only r (clean_sales r).
Proof. unfold clean_sales. auto 30 with heap. Qed.

(** Each cleaner changes no table of the object store other than the one it
    is given: the tables that exist when it starts, the one behind its
    argument apart, are the same when it returns, whether it succeeds or
    its handler runs.  The copies it makes on the way are new objects. *)
Theorem cleaners_change_only_their_argument (r : ref) :
  changes_only r (clean_customers r) /\
  changes_only r (clean_products r) /\
  changes_only r (clean_sales r).
Proof.
  unfold clean_customers, clean_products, clean_sales.
  repeat split; auto 30 with heap.
Qed.

End Frame.

Lemma columns_of_project (cs : list string) (d p : DataFrame) :
  project cs d = Ok p -> columns p = cs.
Proof.
  unfold project. destruct (positions cs (columns d)); [|discriminate].
  simpl. now intros [= <-].
Qed.

(** ** The tables the customers and products cleaners return *)

Lemma new_table_bind (A : Type) (cols : list string) (m : M A)
      (k : A -> M (option ref)) :
  grows m -> (forall a, new_table_with cols (k a)) ->
  new_table_with cols (bind m k).
Proof.
  intros Hg Hk h. unfold bind. specialize (Hg h).
  destruct (m h) as [[a|] h1]; simpl in *; auto.
  specialize (Hk a h1). destruct (k a h1) as [[[out|]|] h2]; auto.
  destruct Hk as [Hl Hd]. split; [lia | assumption].
Qed.

Lemma new_table_try (cols : list string) (m : M (option ref)) :
  new_table_with cols m -> new_table_with cols (try_except m (ret None)).
Proof.
  intros Hm h. unfold try_except. specialize (Hm h).
  destruct (m h) as [[[out|]|] h1]; simpl; auto.
Qed.

Lemma new_table_project (cols : list string) (r : ref) :
  new_table_with cols (out <- fresh r (project cols) ;; ret (Some out)).
Proof.
  intros h. unfold bind. rewrite fresh_run.
  destruct (nth_error h r) as [d|]; [|exact I].
  destruct (project cols d) as [p|] eqn:E; [|exact I].
  simpl. split; [lia|]. exists p. split; [apply nth_error_app_last|].
  eapply columns_of_project; eauto.
Qed.

#[local] Hint Resolve new_table_bind new_table_try new_table_project : heap.

Section CleanedSchema.

Context {ext : External}.

#[local] Hint Resolve grows_trim_str_cols grows_fill_missing_email
  grows_fill_median : heap.

Lemma new_table_clean_customers (r : ref) :
  new_table_with customer_columns (clean_customers r).
Proof. unfold clean_customers. auto 30 with heap. Qed.

Lemma new_table_clean_products (r : ref) :
  new_table_with product_columns (clean_products r).
Proof. unfold clean_products. auto 30 with heap. Qed.

(** The customers and the products cleaner never raise, and what they return
    is either nothing or a table with exactly the seven, respectively five,
    columns of the database table, in that order.  The table returned is a
    new object: it is never the raw table the cleaner was given. *)
Theorem cleaned_tables_have_the_database_columns (r : ref) (h : Heap) :
  (exists res h', clean_customers r h = (Ok res, h') /\
     match res with
     | Some out => length h <= out /\
                   exists d, nth_error h' out = Some d /\
                             columns d = customer_columns
     | None => True
     end) /\
  (exists res h', clean_products r h = (Ok res, h') /\
     match res with
     | Some out => length h <= out /\
                   exists d, nth_error h' out = Some d /\
                             columns d = product_columns
     | None => True
     end).
Proof.
  split.
  - destruct (total_clean_customers r h) as (res & h' & E).
    exists res, h'. split; [assumption|].
    pose proof (new_table_clean_customers r h) as H. rewrite E in H.
    destruct res; auto.
  - destruct (total_clean_products r h) as (res & h' & E).
    exists res, h'. split; [assumption|].
    pose proof (new_table_clean_products r h) as H. rewrite E in H.
    destruct res; auto.
Qed.

End CleanedSchema.

(** ** Dates: the first format that parses wins *)

Lemma first_format_split {ext : External} (s d fmt : string) (before after : list string) :
  (forall f, In f before -> strptime_iso s f = None) ->
  strptime_iso s fmt = Some d ->
  first_format s (before ++ fmt :: after) = Some d.
Proof.
  intros Hb Hf. induction before as [|f before IH]; simpl.
  - now rewrite Hf.
  - rewrite (Hb f) by now left. apply IH. intros g Hg. apply Hb. now right.
Qed.

(** [standardize_date] returns the reading of a text under the first of its
    five formats that accepts it, whatever the later formats and the pandas
    fallback would make of it.  Day first comes before month first for
    slashes and after it for dashes, so an ambiguous 01/02/2024 is the first
    of February while an ambiguous 01-02-2024 is the second of January. *)
Theorem standardize_date_takes_first_format {ext : External}
        (s d fmt : string) (before after : list string) :
  date_formats = before ++ fmt :: after ->
  (forall f, In f before -> strptime_iso s f = None) ->
  strptime_iso s fmt = Some d ->
  standardize_date (Str s) = Str d.
Proof.
  intros Hsplit Hb Hf. unfold standardize_date.
  rewrite Hsplit. now rewrite (first_format_split s fmt before after Hb Hf).
Qed.

Lemma standardize_date_takes_first_format_witness :
  standardize_date (ext := ambiguous_dates) (Str "01/02/2024") = Str "2024-02-01".
Proof.
  apply (@standardize_date_takes_first_format ambiguous_dates
           "01/02/2024" "2024-02-01" "%d/%m/%Y" ["%Y-%m-%d"]
           ["%m-%d-%Y"; "%d-%m-%Y"; "%m/%d/%Y"]).
  - reflexivity.
  - intros f [<- | []]. reflexivity.
  - reflexivity.
Defined.

(** ** The fills when a column is missing *)



Lemma apply_rows_without_ids {ext : External} (header : list string) (ne : nat)
      (rs : list (Z * list Cell)) :
  col_pos "email" header = Some ne ->
  col_pos "customer_id" header = None ->
  apply_rows (email_or_placeholder header) rs
  = if existsb (fun row => isna (cell ne (snd row))
                           || cell_eqb (cell ne (snd row)) (Str "")) rs
    then Raised
    else Ok (map (fun row => cell ne (snd row)) rs).
Proof.
  intros He Hc. induction rs as [|row rs IH]; simpl; auto.
  unfold email_or_placeholder at 1. rewrite He, Hc.
  destruct (isna (cell ne (snd row)) || cell_eqb (cell ne (snd row)) (Str ""));
    simpl; auto.
  rewrite IH. now destruct (existsb _ rs).
Qed.

(** The email fill looks a customer id up only for a row whose email is
    missing or empty.  On a table with rows, an [email] column and no
    [customer_id] column it therefore succeeds, with every email kept, as
    long as no email needs a placeholder; as soon as one does, the lookup
    fails, the handler runs and the table is left exactly as it was, without
    any placeholder.  Either way the reference given is returned. *)
Theorem fill_missing_email_needs_ids_only_for_placeholders {ext : External}
        (h : Heap) (r : ref) (d : DataFrame) (ne : nat) :
  nth_error h r = Some d ->
  rows d <> [] ->
  col_pos "email" (columns d) = Some ne ->
  col_pos "customer_id" (columns d) = None ->
  fill_missing_email r h
  = (Ok r,
     if existsb (fun row => isna (cell ne (snd row))
                            || cell_eqb (cell ne (snd row)) (Str "")) (rows d)
     then h
     else replace_nth r (setitem "email" (map (fun row => cell ne (snd row)) (rows d)) d)
                      h).
Proof.
  intros Hr _ He Hc. unfold fill_missing_email, try_except, bind.
  rewrite inplace_run, Hr, (@apply_rows_without_ids _ _ _ (rows d) He Hc).
  now destruct (existsb _ (rows d)).
Qed.

Lemma fill_missing_email_needs_ids_only_for_placeholders_witness :
  fill_missing_email (ext := Sample.libraries) 0 [emails_without_ids]
  = (Ok 0%nat, [emails_without_ids]).
Proof.
  apply (@fill_missing_email_needs_ids_only_for_placeholders Sample.libraries
           [emails_without_ids] 0%nat emails_without_ids 1%nat);
    try reflexivity.
  discriminate.
Defined.

(** ** Orders and order items of the same sales table *)




Lemma clean_sales_keeps_labels_witness :
  exists out,
    returned_frame (clean_sales (ext := Sample.libraries) 0)
                   [Sample.sales_first_dropped] = Ok out /\
    forall o, In o (rows out) ->
              In (fst o) (map fst (rows Sample.sales_first_dropped)).
Proof.
  apply (@clean_sales_keeps_labels Sample.libraries [Sample.sales_first_dropped]
           0%nat Sample.sales_first_dropped 0%nat 1%nat 2%nat 5%nat);
    reflexivity.
Defined.

(** ** The cleaners read only the table they are given *)

Lemma related_bind (A B : Type) (Q1 : A -> Heap -> A -> Heap -> Prop)
      (Q2 : B -> Heap -> B -> Heap -> Prop) (E : Heap -> Heap -> Prop)
      (m m' : M A) (k k' : A -> M B) (h h' : Heap) :
  related Q1 E (m h) (m' h') ->
  (forall a h1 a' h1', Q1 a h1 a' h1' -> related Q2 E (k a h1) (k' a' h1')) ->
  related Q2 E (bind m k h) (bind m' k' h').
Proof.
  unfold bind, related at 1. intros Hm Hk.
  destruct (m h) as [[a|] h1], (m' h') as [[a'|] h1']; try contradiction; auto.
Qed.

Lemma related_try (A : Type) (Q : A -> Heap -> A -> Heap -> Prop)
      (E1 E2 : Heap -> Heap -> Prop) (m m' handler handler' : M A) (h h' : Heap) :
  related Q E1 (m h) (m' h') ->
  (forall h1 h1', E1 h1 h1' -> related Q E2 (handler h1) (handler' h1')) ->
  related Q E2 (try_except m handler h) (try_except m' handler' h').
Proof.
  unfold try_except, related at 1. intros Hm Hh.
  destruct (m h) as [[a|] h1], (m' h') as [[a'|] h1']; try contradiction; auto.
Qed.

Lemma related_anyhow (A : Type) (Q : A -> Heap -> A -> Heap -> Prop)
      (E : Heap -> Heap -> Prop) (x y : Res A * Heap) :
  related Q E x y -> related Q anyhow x y.
Proof.
  unfold related, anyhow. destruct x as [[a|] h1], y as [[a'|] h1']; auto.
Qed.

Lemma related_inplace (r r' : ref) (f : DataFrame -> Res DataFrame) (h h' : Heap) :
  agree r h r' h' ->
  related (fun _ h1 _ h1' => agree r h1 r' h1')
          (fun h1 h1' => agree r h1 r' h1')
          (inplace r f h) (inplace r' f h').
Proof.
  unfold agree. intros H. rewrite !inplace_run, <- H.
  destruct (nth_error h r) as [d|] eqn:Hr; [|simpl; congruence].
  destruct (f d) as [d'|]; [|simpl; congruence].
  simpl. symmetry in H.
  now rewrite (nth_error_replace_same _ _ d' Hr), (nth_error_replace_same _ _ d' H).
Qed.

Lemma related_fresh (r r' : ref) (f : DataFrame -> Res DataFrame) (h h' : Heap) :
  agree r h r' h' ->
  related agree anyhow (fresh r f h) (fresh r' f h').
Proof.
  unfold agree. intros H. rewrite !fresh_run, <- H.
  destruct (nth_error h r) as [d|] eqn:Hr; [|exact I].
  destruct (f d) as [d'|]; [|exact I].
  simpl. unfold agree. now rewrite !nth_error_app_last.
Qed.

Lemma related_for_each (A : Type) (l : list A) (step : A -> DataFrame -> Res DataFrame)
      (r r' : ref) (h h' : Heap) :
  agree r h r' h' ->
  related (fun _ h1 _ h1' => agree r h1 r' h1') (fun h1 h1' => agree r h1 r' h1')
          (for_each l (fun x => inplace r (step x)) h)
          (for_each l (fun x => inplace r' (step x)) h').
Proof.
  revert h h'. induction l as [|x l IH]; intros h h' H; simpl.
  - exact H.
  - eapply related_bind; [apply related_inplace, H|].
    intros ? h1 ? h1' H1. now apply IH.
Qed.

(** A helper of the shape [try: <statements on df>; return df / except:
    return df]. *)
Lemma related_returning (r r' : ref) (m m' : M unit) (h h' : Heap) :
  related (fun _ h1 _ h1' => agree r h1 r' h1') (fun h1 h1' => agree r h1 r' h1')
          (m h) (m' h') ->
  related agree anyhow (try_except (m ;; ret r) (ret r) h)
          (try_except (m' ;; ret r') (ret r') h').
Proof.
  intros H. eapply related_try with (E1 := fun h1 h1' => agree r h1 r' h1').
  - eapply related_bind; [exact H|]. intros ? h1 ? h1' H1. exact H1.
  - intros h1 h1' H1. exact H1.
Qed.

Section Locality.

Context {ext : External}.

Lemma related_trim_str_cols (r r' : ref) (h h' : Heap) :
  agree r h r' h' ->
  related agree anyhow (trim_str_cols r h) (trim_str_cols r' h').
Proof.
  intros H. unfold trim_str_cols.
  eapply related_try with (E1 := fun h1 h1' => agree r h1 r' h1');
    [|intros h1 h1' H1; exact H1].
  unfold bind at 1 3, read. unfold agree in H. rewrite <- H.
  destruct (nth_error h r) as [d|] eqn:Hr; [|simpl; unfold agree; congruence].
  eapply related_bind; [apply related_for_each; unfold agree; congruence|].
  intros ? h1 ? h1' H1. exact H1.
Qed.

Lemma related_fill_missing_email (r r' : ref) (h h' : Heap) :
  agree r h r' h' ->
  related agree anyhow (fill_missing_email r h) (fill_missing_email r' h').
Proof. intros H. apply related_returning, related_inplace, H. Qed.

Lemma related_fill_median (r r' : ref) (h h' : Heap) :
  agree r h r' h' ->
  related agree anyhow (fill_missing_product_data_with_median r h)
          (fill_missing_product_data_with_median r' h').
Proof.
  intros H. unfold fill_missing_product_data_with_median.
  eapply related_try with (E1 := fun h1 h1' => agree r h1 r' h1');
    [|intros h1 h1' H1; exact H1].
  eapply related_bind; [apply related_inplace, H|].
  intros ? h1 ? h1' H1.
  eapply related_bind; [apply related_inplace, H1|].
  intros ? h2 ? h2' H2. exact H2.
Qed.

Ltac step_inplace H :=
  eapply related_bind; [eapply related_anyhow; eapply related_inplace; exact H|];
  clear H; intros ? ? ? ? H; cbv beta in H.

Ltac step_with L H :=
  eapply related_bind; [eapply related_anyhow; eapply L; exact H|];
  clear H; intros ? ? ? ? H.

Lemma related_clean_sales (r r' : ref) (h h' : Heap) :
  agree r h r' h' ->
  related agree anyhow (clean_sales r h) (clean_sales r' h').
Proof.
  intros H. unfold clean_sales.
  eapply related_try with (E1 := anyhow);
    [|intros h1 h1' _; simpl; unfold agree; now rewrite !nth_error_app_last].
  step_inplace H. step_inplace H. step_inplace H.
  step_with related_trim_str_cols H.
  step_with related_fresh H. step_with related_fresh H. step_with related_fresh H.
  step_inplace H. exact H.
Qed.

Lemma related_clean_customers (r r' : ref) (h h' : Heap) :
  agree r h r' h' ->
  related agree_opt anyhow (clean_customers r h) (clean_customers r' h').
Proof.
  intros H. unfold clean_customers.
  eapply related_try with (E1 := anyhow); [|intros h1 h1' _; exact I].
  step_inplace H.
  step_with related_trim_str_cols H.
  step_with related_fresh H.
  step_with related_fill_missing_email H.
  step_inplace H. step_inplace H. step_inplace H.
  step_with related_trim_str_cols H.
  step_with related_fresh H. exact H.
Qed.

Lemma related_clean_products (r r' : ref) (h h' : Heap) :
  agree r h r' h' ->
  related agree_opt anyhow (clean_products r h) (clean_products r' h').
Proof.
  intros H. unfold clean_products.
  eapply related_try with (E1 := anyhow); [|intros h1 h1' _; exact I].
  step_inplace H.
  step_with related_trim_str_cols H.
  step_with related_fresh H.
  step_with related_fill_median H.
  step_inplace H. step_inplace H.
  step_with related_trim_str_cols H.
  step_with related_fresh H. exact H.
Qed.

Lemma returned_frame_related (m m' : M ref) (h h' : Heap) :
  related agree anyhow (m h) (m' h') ->
  returned_frame m h = returned_frame m' h'.
Proof.
  unfold returned_frame, bind, related, read, agree.
  destruct (m h) as [[a|] h1], (m' h') as [[a'|] h1']; try contradiction; auto.
  intros ->. now destruct (nth_error h1' a').
Qed.

Lemma returned_table_related (m m' : M (option ref)) (h h' : Heap) :
  related agree_opt anyhow (m h) (m' h') ->
  returned_table m h = returned_table m' h'.
Proof.
  unfold returned_table, bind, related, agree_opt, agree.
  destruct (m h) as [[a|] h1], (m' h') as [[a'|] h1']; try contradiction; auto.
  destruct a as [x|], a' as [x'|]; try contradiction; auto.
  simpl. unfold bind, read. intros ->. now destruct (nth_error h1' x').
Qed.

(** What a cleaner returns depends on the table it is given and on nothing
    else in the object store: called on equal tables, in whatever stores and
    at whatever references, each of the three cleaners returns equal
    tables (or nothing in both calls). *)
Theorem cleaners_read_only_their_argument (r r' : ref) (h h' : Heap) :
  nth_error h r = nth_error h' r' ->
  returned_table (clean_customers r) h = returned_table (clean_customers r') h' /\
  returned_table (clean_products r) h = returned_table (clean_products r') h' /\
  returned_frame (clean_sales r) h = returned_frame (clean_sales r') h'.
Proof.
  intros H. repeat split.
  - apply returned_table_related. now apply related_clean_customers.
  - apply returned_table_related. now apply related_clean_products.
  - apply returned_frame_related. now apply related_clean_sales.
Qed.

End Locality.

Lemma cleaners_read_only_their_argument_witness :
  returned_frame (clean_sales (ext := Sample.libraries) 0) [Sample.sales_two]
  = returned_frame (clean_sales (ext := Sample.libraries) 2)
                   [Sample.customers_two; Sample.products_three; Sample.sales_two].
Proof.
  apply (@cleaners_read_only_their_argument Sample.libraries 0 2 [Sample.sales_two]
           [Sample.customers_two; Sample.products_three; Sample.sales_two]).
  reflexivity.
Defined.

(** ** A run cleans each file on its own *)

Section RunTrace.

Context {ext : External}.

(** The steps of [main] on the store of the three extracted tables. *)
Lemma main_trace (files : RawData) :
  let h0 := [raw_customers files; raw_products files; raw_sales files] in
  exists ccr h1 pcr h2 sr h3 cc pc sc cv pv sv,
    clean_customers 0 h0 = (Ok ccr, h1) /\
    clean_products 1 h1 = (Ok pcr, h2) /\
    clean_sales 2 h2 = (Ok sr, h3) /\
    read_opt ccr h3 = (Ok cc, h3) /\
    read_opt pcr h3 = (Ok pc, h3) /\
    read sr h3 = (Ok sc, h3) /\
    nth_error h3 0 = Some cv /\
    nth_error h3 1 = Some pv /\
    nth_error h3 2 = Some sv /\
    forall env db,
      main env files db []
      = (Ok (run_of env db cc pc sc (write_data_quality_report cv pv sv)), h3).
Proof.
  intros h0. unfold main, extract_raw_data_from_csv.
  destruct (total_clean_customers 0 h0) as (cc & h1 & E1).
  pose proof (grows_clean_customers 0 h0) as G1. rewrite E1 in G1. simpl in G1.
  pose proof (valid_clean_customers 0 h0) as V1. rewrite E1 in V1.
  destruct (total_clean_products 1 h1) as (pc & h2 & E2).
  pose proof (grows_clean_products 1 h1) as G2. rewrite E2 in G2. simpl in G2.
  pose proof (valid_clean_products 1 h1) as V2. rewrite E2 in V2.
  destruct (total_clean_sales 2 h2) as (sr & h3 & E3).
  pose proof (grows_clean_sales 2 h2) as G3. rewrite E3 in G3. simpl in G3.
  pose proof (valid_clean_sales 2 h2) as V3. rewrite E3 in V3.
  destruct (@read_valid sr h3 V3) as [sc Es].
  destruct (@read_opt_valid _ cc h3) as [ccv Ec].
  { intros r' ->. lia. }
  destruct (@read_opt_valid _ pc h3) as [pcv Ep].
  { intros r' ->. lia. }
  destruct (@read_valid 0 h3) as [cv E0]; [lia|].
  destruct (@read_valid 1 h3) as [pv E1']; [lia|].
  destruct (@read_valid 2 h3) as [sv E2']; [lia|].
  exists cc, h1, pc, h2, sr, h3, ccv, pcv, sc, cv, pv, sv.
  do 6 (split; [assumption|]).
  assert (R : forall x v, read x h3 = (Ok v, h3) -> nth_error h3 x = Some v).
  { intros x v. unfold read. destruct (nth_error h3 x); [|discriminate].
    now intros [= ->]. }
  do 3 (split; [now apply R|]).
  intros env db.
  assert (Ex : extract_raw_data_from_csv files [] = (Ok (0, 1, 2), h0)) by reflexivity.
  fold (extract_raw_data_from_csv files).
  rewrite (@bind_ok _ _ _ _ _ _ _ Ex). cbv beta iota.
  rewrite (@bind_ok _ _ _ _ _ _ _ E1), (@bind_ok _ _ _ _ _ _ _ E2), (@bind_ok _ _ _ _ _ _ _ E3), (@bind_ok _ _ _ _ _ _ _ Es),
    (@bind_ok _ _ _ _ _ _ _ Ec), (@bind_ok _ _ _ _ _ _ _ Ep).
  unfold run_of, load_all.
  destruct (load_data_to_customers_db env ccv db) as [db1 ev1].
  destruct (load_data_to_products_db env pcv db1) as [db2 ev2].
  destruct (load_data_to_orders_db env (Some (split_sales_to_orders sc)) db2) as [db3 ev3].
  destruct (load_data_to_order_items_db env (Some (split_sales_to_order_items sc)) db3)
    as [db4 ev4].
  rewrite (@bind_ok _ _ _ _ _ _ _ E0), (@bind_ok _ _ _ _ _ _ _ E1'), (@bind_ok _ _ _ _ _ _ _ E2').
  reflexivity.
Qed.

Lemma read_opt_same (a : option ref) (h h' : Heap) :
  (forall x, a = Some x -> nth_error h' x = nth_error h x) ->
  fst (read_opt a h') = fst (read_opt a h).
Proof.
  destruct a as [x|]; simpl; [|reflexivity].
  intros H. unfold bind, read. rewrite (H x eq_refl).
  now destruct (nth_error h x).
Qed.

(** The cleaned tables of a run are those each cleaner returns on its file
    alone. *)
Lemma main_cleans_each_file (files : RawData) :
  exists cc pc sc rep h,
    (forall env db, main env files db [] = (Ok (run_of env db cc pc sc rep), h)) /\
    returned_table (clean_customers 0) [raw_customers files] = Ok cc /\
    returned_table (clean_products 0) [raw_products files] = Ok pc /\
    returned_frame (clean_sales 0) [raw_sales files] = Ok sc.
Proof.
  destruct (main_trace files) as
    (ccr & h1 & pcr & h2 & sr & h3 & cc & pc & sc & cv & pv & sv
     & E1 & E2 & E3 & Rc & Rp & Rs & _ & _ & _ & Hm).
  cbv zeta in *.
  set (h0 := [raw_customers files; raw_products files; raw_sales files]) in *.
  exists cc, pc, sc, (write_data_quality_report cv pv sv), h3. split; [exact Hm|].
  pose proof (grows_clean_customers 0 h0) as G1. rewrite E1 in G1. simpl in G1.
  pose proof (grows_clean_products 1 h1) as G2. rewrite E2 in G2. simpl in G2.
  pose proof (valid_clean_customers 0 h0) as V1. rewrite E1 in V1.
  pose proof (valid_clean_products 1 h1) as V2. rewrite E2 in V2.
  pose proof (new_table_clean_customers 0 h0) as N1. rewrite E1 in N1.
  pose proof (new_table_clean_products 1 h1) as N2. rewrite E2 in N2.
  pose proof (@changes_only_clean_customers _ 0 h0) as F1. rewrite E1 in F1. simpl in F1.
  pose proof (@changes_only_clean_products _ 1 h1) as F2. rewrite E2 in F2. simpl in F2.
  pose proof (@changes_only_clean_sales _ 2 h2) as F3. rewrite E3 in F3. simpl in F3.
  split; [|split].
  - rewrite (returned_table_related (clean_customers 0) (clean_customers 0)
               [raw_customers files] h0)
      by (apply related_clean_customers; reflexivity).
    unfold returned_table, bind. rewrite E1.
    rewrite (@read_opt_same ccr h3 h1), Rc; [reflexivity|].
    intros x ->. destruct N1 as [N1 _]. simpl in N1.
    symmetry. rewrite F3 by lia. apply F2; lia.
  - rewrite (returned_table_related (clean_products 0) (clean_products 1)
               [raw_products files] h1)
      by (apply related_clean_products; unfold agree; rewrite F1 by (simpl; lia);
          reflexivity).
    unfold returned_table, bind. rewrite E2.
    rewrite (@read_opt_same pcr h3 h2), Rp; [reflexivity|].
    intros x ->. destruct N2 as [N2 _].
    symmetry. apply F3; lia.
  - rewrite (returned_frame_related (clean_sales 0) (clean_sales 2)
               [raw_sales files] h2)
      by (apply related_clean_sales; unfold agree;
          rewrite F2 by lia; rewrite F1 by (simpl; lia); reflexivity).
    unfold returned_frame, bind. rewrite E3, Rs. reflexivity.
Qed.

(** In a run each file is cleaned on its own: the cleaned customers,
    products and sales of a run are the tables the three cleaners return
    when each is called on its file alone, so that no file influences the
    cleaning of another, whatever the database does. *)
Theorem run_cleans_each_file_on_its_own (env : DbEnv) (files : RawData) (db : Store) :
  exists run,
    run_main env files db = Ok run /\
    returned_table (clean_customers 0) [raw_customers files]
    = Ok (run_customers_clean run) /\
    returned_table (clean_products 0) [raw_products files]
    = Ok (run_products_clean run) /\
    returned_frame (clean_sales 0) [raw_sales files] = Ok (run_sales_clean run).
Proof.
  destruct (main_cleans_each_file files) as (cc & pc & sc & rep & h & Hm & Hc & Hp & Hs).
  exists (run_of env db cc pc sc rep). unfold run_main. rewrite Hm.
  repeat split; assumption.
Qed.

End RunTrace.

Section UnreadableSales.

Context {ext : External}.

(** When the sales file cannot be read, a run still loads customers and
    products but derives no order and no order item, and skips both loads.
    The orders of earlier runs do not survive it: as soon as the customers
    load commits, which first empties order items and orders, the run ends
    with both tables empty. *)
Theorem unreadable_sales_file_leaves_no_orders
        (env : DbEnv) (files : RawData) (db : Store) :
  raw_sales files = empty_frame ->
  exists run,
    run_main env files db = Ok run /\
    run_orders run = empty_frame /\
    run_order_items run = empty_frame /\
    (In (Executed Customers Commit) (run_events run) ->
     orders_rows (run_store run) = [] /\ order_items_rows (run_store run) = []).
Proof.
  intros Hraw.
  destruct (main_cleans_each_file files) as (cc & pc & sc & rep & h & Hm & _ & _ & Hs).
  rewrite Hraw in Hs.
  assert (Hsc : sc = empty_frame).
  { change (returned_frame (clean_sales 0) [empty_frame]) with (Ok empty_frame) in Hs.
    now injection Hs as <-. }
  subst sc.
  exists (run_of env db cc pc empty_frame rep). unfold run_main. rewrite Hm.
  split; [reflexivity|]. split; [reflexivity|]. split; [reflexivity|].
  unfold run_of, load_all. cbn [run_events run_store fst snd].
  pose proof (load_outcome env cc Customers customer_columns
                           [OrderItems; Orders; Customers] db) as O1.
  fold (load_data_to_customers_db env cc db) in O1.
  destruct (load_data_to_customers_db env cc db) as [db1 ev1].
  pose proof (load_outcome env pc Products product_columns [OrderItems; Products] db1)
    as O2.
  pose proof (load_events_of_one_load env pc Products product_columns
                [OrderItems; Products] db1) as P2.
  fold (load_data_to_products_db env pc db1) in O2, P2.
  destruct (load_data_to_products_db env pc db1) as [db2 ev2].
  change (split_sales_to_orders empty_frame) with empty_frame.
  change (split_sales_to_order_items empty_frame) with empty_frame.
  unfold load_data_to_orders_db, load_data_to_order_items_db, load_data_to_table.
  cbn [df_empty empty_frame rows columns fst snd run_events run_store] in *.
  intros Hin. rewrite !in_app_iff in Hin.
  assert (H1 : In (Executed Customers Commit) ev1).
  { destruct Hin as [Hin | [Hin | [Hin | Hin]]]; auto.
    - rewrite Forall_forall in P2. destruct (P2 _ Hin); discriminate.
    - simpl in Hin. destruct Hin as [Hin | []]. discriminate.
    - simpl in Hin. destruct Hin as [Hin | []]. discriminate. }
  destruct O1 as [(_ & d & p & _ & _ & ->) | [Hnone _]];
    [|exfalso; exact (no_commit_event _ Hnone _ H1)].
  destruct O2 as [(_ & d' & p' & _ & _ & ->) | [_ ->]]; destruct db; split; reflexivity.
Qed.

End UnreadableSales.

Lemma unreadable_sales_file_leaves_no_orders_witness :
  exists run,
    run_main (ext := Sample.libraries) Sample.always_up files_without_sales
             store_with_orders = Ok run /\
    orders_rows (run_store run) = [] /\ order_items_rows (run_store run) = [].
Proof.
  destruct (@unreadable_sales_file_leaves_no_orders Sample.libraries Sample.always_up
              files_without_sales store_with_orders eq_refl)
    as (run & Hrun & _ & _ & Hempty).
  exists run. split; [exact Hrun|].
  apply Hempty.
  vm_compute in Hrun. injection Hrun as <-. vm_compute. tauto.
Defined.

(** ** Phone numbers *)

Lemma substring_all (s : string) (n : nat) :
  String.length s <= n -> substring 0 n s = s.
Proof.
  revert n; induction s as [|c s IH]; intros [|n] H; simpl in *; auto; try lia.
  f_equal. apply IH. lia.
Qed.

Lemma length_substring (s : string) (a n : nat) :
  a + n <= String.length s -> String.length (substring a n s) = n.
Proof.
  revert a n; induction s as [|c s IH]; intros [|a] [|n] H; simpl in *; auto; try lia.
  - f_equal. apply (IH 0%nat). lia.
  - apply (IH a 0%nat). lia.
  - apply (IH a (S n)). lia.
Qed.

(** [standardize_phone] returns either a missing value or the text
    [+<country code>-<digits>], where the digits are the national number
    when it has at most ten characters and its last ten characters when it
    is longer.  The country code is the one the library parsed, not
    necessarily 91, and a number the library rejects is dropped. *)
Theorem standardize_phone_keeps_last_ten_digits {ext : External} (phone : Cell) :
  standardize_phone phone = NaN \/
  exists cc national digits,
    phonenumbers_parse phone = Some (cc, national) /\
    is_valid_number (cc, national) = true /\
    standardize_phone phone = Str ("+" ++ PyStr.of_int cc ++ "-" ++ digits) /\
    (String.length (PyStr.of_int national) <= 10 -> digits = PyStr.of_int national) /\
    (10 <= String.length (PyStr.of_int national) ->
     String.length digits = 10%nat /\
     exists front, PyStr.of_int national = (front ++ digits)%string).
Proof.
  unfold standardize_phone.
  destruct (phonenumbers_parse phone) as [[cc national]|]; [|now left].
  destruct (is_valid_number (cc, national)) eqn:Hv; [|now left].
  right. exists cc, national, (PyStr.last_chars 10 (PyStr.of_int national)).
  repeat split; auto.
  - intros Hl. unfold PyStr.last_chars.
    replace (String.length (PyStr.of_int national) - 10)%nat with 0%nat by lia.
    now apply substring_all.
  - unfold PyStr.last_chars. apply length_substring. lia.
  - unfold PyStr.last_chars.
    set (s := PyStr.of_int national) in *.
    exists (substring 0 (String.length s - 10) s).
    assert (G : forall (t : string) (k : nat), k <= String.length t ->
              t = (substring 0 k t ++ substring k (String.length t - k) t)%string).
    { induction t as [|c t IHt]; intros [|k] Hk; simpl in *; try lia; auto.
      - f_equal. symmetry. apply substring_all. lia.
      - f_equal. apply IHt. lia. }
    rewrite (G s (String.length s - 10)%nat) at 1 by lia.
    do 2 f_equal. lia.
Qed.

(** ** The raw tables keep their length while they are cleaned *)

Lemma length_assign_cells (n : nat) (rs : list (Z * list Cell)) (vs : list Cell) :
  length (assign_cells n rs vs) = length rs.
Proof.
  revert vs; induction rs as [|[l r] rs IH]; intros [|v vs]; simpl; auto.
Qed.

Lemma df_len_setitem (c : string) (vs : list Cell) (d : DataFrame) :
  df_len (setitem c vs d) = df_len d.
Proof. unfold df_len. rewrite rows_setitem. apply length_assign_cells. Qed.

Lemma same_length_apply_col (c : string) (g : Cell -> Cell) :
  same_length (apply_col c g).
Proof.
  intros d d'. unfold apply_col. destruct (getitem c d); [|discriminate].
  simpl. intros [= <-]. apply df_len_setitem.
Qed.

Lemma same_length_str_step (f : string -> string) (c : string) :
  same_length (fun d => let? vs := getitem c d in
                        let? ws := str_accessor f vs in
                        Ok (setitem c ws d)).
Proof.
  intros d d'. destruct (getitem c d) as [vs|]; [|discriminate]. simpl.
  destruct (str_accessor f vs); [|discriminate].
  simpl. intros [= <-]. apply df_len_setitem.
Qed.

Lemma same_length_title_col {ext : External} (c : string) : same_length (title_col c).
Proof. apply same_length_str_step. Qed.

Lemma same_length_fill_with_median (c : string) : same_length (fill_with_median c).
Proof.
  intros d d'. unfold fill_with_median. destruct (getitem c d) as [vs|]; [|discriminate].
  simpl. destruct (median vs); [|discriminate].
  simpl. intros [= <-]. apply df_len_setitem.
Qed.

Lemma same_length_email {ext : External} :
  same_length (fun d => let? vs := apply_rows (email_or_placeholder (columns d)) (rows d) in
                        Ok (setitem "email" vs d)).
Proof.
  intros d d'. destruct (apply_rows _ (rows d)); [|discriminate].
  simpl. intros [= <-]. apply df_len_setitem.
Qed.

Lemma preserves_ret (A : Type) (I : Heap -> Prop) (a : A) : preserves I (ret a).
Proof. intros h H. exact H. Qed.

Lemma preserves_read (I : Heap -> Prop) (r : ref) : preserves I (read r).
Proof. intros h H. unfold read. now destruct (nth_error h r). Qed.

Lemma preserves_bind (A B : Type) (I : Heap -> Prop) (m : M A) (k : A -> M B) :
  preserves I m -> (forall a, preserves I (k a)) -> preserves I (bind m k).
Proof.
  intros Hm Hk h H. unfold bind. specialize (Hm h H).
  destruct (m h) as [[a|] h1]; simpl in *; auto. now apply Hk.
Qed.

Lemma preserves_try (A : Type) (I : Heap -> Prop) (m handler : M A) :
  preserves I m -> preserves I handler -> preserves I (try_except m handler).
Proof.
  intros Hm Hh h H. unfold try_except. specialize (Hm h H).
  destruct (m h) as [[a|] h1]; simpl in *; auto.
Qed.

Lemma preserves_for_each (A : Type) (I : Heap -> Prop) (l : list A) (body : A -> M unit) :
  (forall x, preserves I (body x)) -> preserves I (for_each l body).
Proof.
  intros Hb. induction l as [|x l IH]; simpl.
  - apply preserves_ret.
  - apply preserves_bind; auto.
Qed.

Lemma has_length_alloc (r : ref) (n : nat) (d : DataFrame) :
  preserves (has_length r n) (alloc d).
Proof.
  intros h (x & Hx & Hl). exists x. split; [|assumption].
  simpl. eapply nth_error_app_old; eauto.
Qed.

Lemma has_length_inplace (r r0 : ref) (n : nat) (f : DataFrame -> Res DataFrame) :
  same_length f -> preserves (has_length r n) (inplace r0 f).
Proof.
  intros Hf h (x & Hx & Hl). rewrite inplace_run.
  destruct (nth_error h r0) as [d|] eqn:E; [|exists x; auto].
  destruct (f d) as [d'|] eqn:Ef; [|exists x; auto]. simpl.
  destruct (Nat.eq_dec r0 r) as [-> | Hne].
  - exists d'. split; [eapply nth_error_replace_same; eauto|].
    rewrite (Hf _ _ Ef). congruence.
  - exists x. split; [|assumption]. now rewrite nth_error_replace_other.
Qed.

Lemma has_length_fresh (r r0 : ref) (n : nat) (f : DataFrame -> Res DataFrame) :
  preserves (has_length r n) (fresh r0 f).
Proof.
  intros h (x & Hx & Hl). rewrite fresh_run.
  destruct (nth_error h r0) as [d|]; [|exists x; auto].
  destruct (f d) as [d'|]; [|exists x; auto]. simpl.
  exists x. split; [eapply nth_error_app_old; eauto | assumption].
Qed.

#[local] Hint Resolve preserves_ret preserves_read preserves_bind preserves_try
  preserves_for_each has_length_alloc has_length_inplace has_length_fresh
  same_length_apply_col same_length_str_step same_length_fill_with_median : heap.

Section RawLengths.

Context {ext : External}.

#[local] Hint Resolve same_length_title_col same_length_email : heap.

Lemma has_length_trim_str_cols (r r0 : ref) (n : nat) :
  preserves (has_length r n) (trim_str_cols r0).
Proof. unfold trim_str_cols. auto 10 with heap. Qed.

Lemma has_length_fill_missing_email (r r0 : ref) (n : nat) :
  preserves (has_length r n) (fill_missing_email r0).
Proof. unfold fill_missing_email. auto 10 with heap. Qed.

Lemma has_length_fill_median (r r0 : ref) (n : nat) :
  preserves (has_length r n) (fill_missing_product_data_with_median r0).
Proof. unfold fill_missing_product_data_with_median. auto 10 with heap. Qed.

#[local] Hint Resolve has_length_trim_str_cols has_length_fill_missing_email
  has_length_fill_median : heap.

Lemma has_length_clean_customers (r r0 : ref) (n : nat) :
  preserves (has_length r n) (clean_customers r0).
Proof. unfold clean_customers. auto 30 with heap. Qed.

Lemma has_length_clean_products (r r0 : ref) (n : nat) :
  preserves (has_length r n) (clean_products r0).
Proof. unfold clean_products. auto 30 with heap. Qed.

Lemma has_length_clean_sales (r r0 : ref) (n : nat) :
  preserves (has_length r n) (clean_sales r0).
Proof. unfold clean_sales. auto 30 with heap. Qed.

(** The report of a run has one entry per raw file, in the order customers,
    products, sales, and its Records Processed are the numbers of records of
    the files as extracted: the cleaners rewrite cells of the raw tables
    before the report reads them, but they never add or remove a row of a
    raw table. *)
Theorem report_counts_the_extracted_records
        (env : DbEnv) (files : RawData) (db : Store) :
  exists run,
    run_main env files db = Ok run /\
    map report_file (run_report run)
    = ["customers_raw.csv"; "products_raw.csv"; "sales_raw.csv"] /\
    map records_processed (run_report run)
    = [df_len (raw_customers files); df_len (raw_products files);
       df_len (raw_sales files)].
Proof.
  destruct (main_trace files) as
    (ccr & h1 & pcr & h2 & sr & h3 & cc & pc & sc & cv & pv & sv
     & E1 & E2 & E3 & _ & _ & _ & R0 & R1 & R2 & Hm).
  cbv zeta in *.
  set (h0 := [raw_customers files; raw_products files; raw_sales files]) in *.
  exists (run_of env db cc pc sc (write_data_quality_report cv pv sv)).
  unfold run_main. rewrite Hm. split; [reflexivity|]. split; [reflexivity|].
  assert (K : forall r d, nth_error h0 r = Some d -> has_length r (df_len d) h3).
  { intros r d Hr.
    pose proof (@has_length_clean_customers r 0 (df_len d) h0) as K1.
    rewrite E1 in K1.
    pose proof (@has_length_clean_products r 1 (df_len d) h1) as K2.
    rewrite E2 in K2.
    pose proof (@has_length_clean_sales r 2 (df_len d) h2) as K3.
    rewrite E3 in K3.
    apply K3, K2, K1. exists d. auto. }
  destruct (K 0%nat _ eq_refl) as (x0 & X0 & L0).
  destruct (K 1%nat _ eq_refl) as (x1 & X1 & L1).
  destruct (K 2%nat _ eq_refl) as (x2 & X2 & L2).
  assert (x0 = cv) by congruence. assert (x1 = pv) by congruence.
  assert (x2 = sv) by congruence. subst.
  simpl. now rewrite L0, L1, L2.
Qed.

End RawLengths.

(** ** The ids of the cleaned customers and products *)

Lemma ensures_bind (A B : Type) (P : Heap -> Prop) (Q : A -> Heap -> Prop)
      (R : B -> Heap -> Prop) (m : M A) (k : A -> M B) :
  ensures P m Q -> (forall a, ensures (Q a) (k a) R) -> ensures P (bind m k) R.
Proof.
  intros Hm Hk h H. unfold bind. specialize (Hm h H).
  destruct (m h) as [[a|] h1]; [|exact I]. now apply Hk.
Qed.

Lemma ensures_try_none (P : Heap -> Prop) (D : DataFrame -> Prop) (m : M (option ref)) :
  ensures P m (returned_satisfies D) ->
  ensures P (try_except m (ret None)) (returned_satisfies D).
Proof.
  intros Hm h H. unfold try_except. specialize (Hm h H).
  destruct (m h) as [[a|] h1]; [assumption | exact I].
Qed.

Lemma ensures_inplace (r : ref) (P P' : DataFrame -> Prop) (f : DataFrame -> Res DataFrame) :
  (forall d d', P d -> f d = Ok d' -> P' d') ->
  ensures (at_ref r P) (inplace r f) (fun _ => at_ref r P').
Proof.
  intros Hf h (d & Hd & Pd). rewrite inplace_run, Hd.
  destruct (f d) as [d'|] eqn:E; [|exact I].
  exists d'. split; [eapply nth_error_replace_same; eauto | eauto].
Qed.

Lemma ensures_fresh (r : ref) (P P' : DataFrame -> Prop) (f : DataFrame -> Res DataFrame) :
  (forall d d', P d -> f d = Ok d' -> P' d') ->
  ensures (at_ref r P) (fresh r f) (fun a => at_ref a P').
Proof.
  intros Hf h (d & Hd & Pd). rewrite fresh_run, Hd.
  destruct (f d) as [d'|] eqn:E; [|exact I].
  exists d'. split; [apply nth_error_app_last | eauto].
Qed.

Lemma ensures_returning (r : ref) (P : DataFrame -> Prop) (m : M ref) :
  preserves (at_ref r P) m -> returns r m ->
  ensures (at_ref r P) m (fun a => at_ref a P).
Proof.
  intros Hp Hr h H. specialize (Hp h H). specialize (Hr h).
  destruct (m h) as [[a|] h1]; [|exact I]. simpl in Hp. now subst.
Qed.

Lemma at_ref_inplace (r : ref) (P : DataFrame -> Prop) (f : DataFrame -> Res DataFrame) :
  (forall d d', P d -> f d = Ok d' -> P d') ->
  preserves (at_ref r P) (inplace r f).
Proof.
  intros Hf h (d & Hd & Pd). rewrite inplace_run, Hd.
  destruct (f d) as [d'|] eqn:E; [|exists d; auto].
  exists d'. split; [eapply nth_error_replace_same; eauto | eauto].
Qed.

(** *** What the statements of the cleaners do to one column *)

Lemma getitem_assigned (n : nat) (rs : list (Z * list Cell)) (vs : list Cell) :
  length vs = length rs ->
  map (fun r => cell n (snd r)) (assign_cells n rs vs) = vs.
Proof.
  revert vs; induction rs as [|[l r] rs IH]; intros [|v vs] H; simpl in *;
    try discriminate; auto.
  rewrite cell_set_at_same. f_equal. apply IH. lia.
Qed.

Lemma getitem_setitem_same (c : string) (vs ids : list Cell) (d : DataFrame) :
  getitem c d = Ok ids -> length vs = length ids ->
  getitem c (setitem c vs d) = Ok vs.
Proof.
  unfold getitem, setitem. destruct (col_pos c (columns d)) as [n|] eqn:E; [|discriminate].
  intros [= <-] Hl. rewrite length_map in Hl. cbn [columns rows]. rewrite E.
  now rewrite getitem_assigned.
Qed.

Lemma getitem_apply_col_same (c : string) (g : Cell -> Cell) (ids : list Cell)
      (d d' : DataFrame) :
  getitem c d = Ok ids -> apply_col c g d = Ok d' -> getitem c d' = Ok (map g ids).
Proof.
  intros Hg. unfold apply_col. rewrite Hg. simpl. intros [= <-].
  eapply getitem_setitem_same; eauto. apply length_map.
Qed.

Lemma getitem_apply_col_other (c c' : string) (g : Cell -> Cell) (d d' : DataFrame) :
  c <> c' -> apply_col c' g d = Ok d' -> getitem c d' = getitem c d.
Proof.
  intros Hne. unfold apply_col. destruct (getitem c' d); [|discriminate].
  simpl. intros [= <-]. now apply getitem_setitem_other.
Qed.

Lemma map_stripped (ids : list Cell) :
  Forall stripped ids -> map (str_method PyStr.strip) ids = ids.
Proof. induction 1 as [|c ids H _ IH]; simpl; auto. now rewrite H, IH. Qed.

Lemma getitem_str_step (c col : string) (ids : list Cell) (d d' : DataFrame) :
  Forall stripped ids ->
  getitem c d = Ok ids ->
  (let? vs := getitem col d in
   let? ws := str_accessor PyStr.strip vs in
   Ok (setitem col ws d)) = Ok d' ->
  getitem c d' = Ok ids.
Proof.
  intros Hs Hg. destruct (getitem col d) as [vs|] eqn:Hv; [|discriminate]. simpl.
  destruct (str_accessor PyStr.strip vs) as [ws|] eqn:Hw; [|discriminate].
  simpl. intros [= <-]. apply str_accessor_ok in Hw. subst ws.
  destruct (String.eqb_spec c col) as [-> | Hne].
  - rewrite Hg in Hv. injection Hv as <-. rewrite map_stripped by assumption.
    eapply getitem_setitem_same; eauto.
  - rewrite getitem_setitem_other; auto.
Qed.

Lemma getitem_title_col {ext : External} (c c' : string) (d d' : DataFrame) :
  c <> c' -> title_col c' d = Ok d' -> getitem c d' = getitem c d.
Proof.
  intros Hne. unfold title_col. destruct (getitem c' d) as [vs|]; [|discriminate].
  simpl. destruct (str_accessor PyStr.title vs); [|discriminate].
  simpl. intros [= <-]. now apply getitem_setitem_other.
Qed.

Lemma getitem_fill_with_median (c c' : string) (d d' : DataFrame) :
  c <> c' -> fill_with_median c' d = Ok d' -> getitem c d' = getitem c d.
Proof.
  intros Hne. unfold fill_with_median. destruct (getitem c' d) as [vs|]; [|discriminate].
  simpl. destruct (median vs); [|discriminate].
  simpl. intros [= <-]. now apply getitem_setitem_other.
Qed.

Lemma getitem_email {ext : External} (c : string) (d d' : DataFrame) :
  c <> "email" ->
  (let? vs := apply_rows (email_or_placeholder (columns d)) (rows d) in
   Ok (setitem "email" vs d)) = Ok d' ->
  getitem c d' = getitem c d.
Proof.
  intros Hne. destruct (apply_rows _ (rows d)); [|discriminate].
  simpl. intros [= <-]. now apply getitem_setitem_other.
Qed.

Lemma keep_first_keys (n : nat) (seen rs : list (Z * list Cell)) :
  map (fun r => cell n (snd r)) (keep_first (same_key [n]) seen rs)
  = keep_first cell_eqb (map (fun r => cell n (snd r)) seen)
               (map (fun r => cell n (snd r)) rs).
Proof.
  revert seen; induction rs as [|x rs IH]; intros seen; simpl; auto.
  assert (E : existsb (same_key [n] x) seen
              = existsb (cell_eqb (cell n (snd x))) (map (fun r => cell n (snd r)) seen)).
  { clear. induction seen as [|y seen IH]; simpl; auto.
    now rewrite same_key_single, IH. }
  rewrite E. specialize (IH (x :: seen)). simpl in IH.
  destruct (existsb _ (map _ seen)); simpl; now rewrite IH.
Qed.

Lemma getitem_drop_duplicates (c : string) (ids : list Cell) (d d' : DataFrame) :
  getitem c d = Ok ids -> drop_duplicates [c] d = Ok d' ->
  getitem c d' = Ok (keep_first cell_eqb [] ids).
Proof.
  unfold getitem, drop_duplicates. simpl.
  destruct (col_pos c (columns d)) as [n|] eqn:E; [|discriminate].
  simpl. intros [= <-] [= <-]. cbn [columns rows]. rewrite E.
  now rewrite keep_first_keys.
Qed.

Lemma getitem_project_head (c : string) (rest : list string) (d p : DataFrame) :
  project (c :: rest) d = Ok p -> getitem c p = getitem c d.
Proof.
  unfold project, getitem. simpl.
  destruct (col_pos c (columns d)) as [n|]; [|discriminate].
  destruct (positions rest (columns d)) as [ns|]; [|discriminate].
  simpl. intros [= <-]. cbn [columns rows]. simpl. rewrite String.eqb_refl.
  now rewrite map_map.
Qed.

Section UniqueIds.

Context {ext : External}.

Variable c : string.
Variable ids : list Cell.
Hypothesis ids_stripped : Forall stripped ids.

Lemma id_column_trim_str_cols (r : ref) :
  ensures (at_ref r (fun d => getitem c d = Ok ids)) (trim_str_cols r)
          (fun a => at_ref a (fun d => getitem c d = Ok ids)).
Proof.
  apply ensures_returning; [|apply returns_trim].
  unfold trim_str_cols.
  apply preserves_try; [|apply preserves_ret].
  apply preserves_bind; [apply preserves_read|]. intros d.
  apply preserves_bind; [|intros; apply preserves_ret].
  apply preserves_for_each. intros col. apply at_ref_inplace.
  intros d0 d0' H0 Hstep. eapply getitem_str_step; eauto.
Qed.

Lemma id_column_fill_missing_email (r : ref) :
  c <> "email" ->
  ensures (at_ref r (fun d => getitem c d = Ok ids)) (fill_missing_email r)
          (fun a => at_ref a (fun d => getitem c d = Ok ids)).
Proof.
  intros Hne. apply ensures_returning; [|apply returns_fill_email].
  unfold fill_missing_email.
  apply preserves_try; [|apply preserves_ret].
  apply preserves_bind; [|intros; apply preserves_ret].
  apply at_ref_inplace. intros d d' H Hstep.
  rewrite (@getitem_email _ c d d' Hne Hstep). exact H.
Qed.

Lemma id_column_fill_median (r : ref) :
  c <> "price" -> c <> "stock_quantity" ->
  ensures (at_ref r (fun d => getitem c d = Ok ids))
          (fill_missing_product_data_with_median r)
          (fun a => at_ref a (fun d => getitem c d = Ok ids)).
Proof.
  intros Hp Hs. apply ensures_returning; [|apply returns_fill_median].
  unfold fill_missing_product_data_with_median.
  apply preserves_try; [|apply preserves_ret].
  apply preserves_bind; [|intros _; apply preserves_bind; [|intros; apply preserves_ret]];
    apply at_ref_inplace; intros d d' H Hstep.
  - rewrite (@getitem_fill_with_median c _ d d' Hp Hstep). exact H.
  - rewrite (@getitem_fill_with_median c _ d d' Hs Hstep). exact H.
Qed.

Lemma id_column_apply_col (r : ref) (c' : string) (g : Cell -> Cell) :
  c <> c' ->
  ensures (at_ref r (fun d => getitem c d = Ok ids)) (inplace r (apply_col c' g))
          (fun _ => at_ref r (fun d => getitem c d = Ok ids)).
Proof.
  intros Hne. apply ensures_inplace. intros d d' H Hstep.
  rewrite (@getitem_apply_col_other c c' g d d' Hne Hstep). exact H.
Qed.

Lemma id_column_title_col (r : ref) (c' : string) :
  c <> c' ->
  ensures (at_ref r (fun d => getitem c d = Ok ids)) (inplace r (title_col c'))
          (fun _ => at_ref r (fun d => getitem c d = Ok ids)).
Proof.
  intros Hne. apply ensures_inplace. intros d d' H Hstep.
  rewrite (@getitem_title_col _ c c' d d' Hne Hstep). exact H.
Qed.

Lemma id_column_returned (out : ref) :
  ensures (at_ref out (fun d => getitem c d = Ok ids)) (ret (Some out))
          (returned_satisfies (fun d => getitem c d = Ok ids)).
Proof. intros h H. exact H. Qed.

End UniqueIds.

Lemma stripped_surrogates {ext : External} (raw_ids : list Cell) :
  Forall (fun c => stripped (remove_first_char c)) raw_ids ->
  Forall stripped (map remove_first_char raw_ids) /\
  Forall stripped (keep_first cell_eqb [] (map remove_first_char raw_ids)).
Proof.
  intros H.
  assert (H1 : Forall stripped (map remove_first_char raw_ids))
    by (apply Forall_map; exact H).
  split; [assumption | now apply Forall_keep_first].
Qed.

Ltac next_step := eapply ensures_bind; [|intros ?].

(** The cleaned customers have unique ids.  When every customer id of the
    raw table, once its type letter is removed, is a text without
    surrounding white space or is missing, the table [clean_customers]
    returns has as ids the surrogate ids of the raw table, each once, in the
    order of their first occurrence, and these are pairwise different.  A
    customer without id is not dropped: the missing id counts as one id. *)
Theorem cleaned_customer_ids_are_unique {ext : External}
        (h : Heap) (r : ref) (d : DataFrame) (raw_ids : list Cell) :
  nth_error h r = Some d ->
  getitem "customer_id" d = Ok raw_ids ->
  Forall (fun c => stripped (remove_first_char c)) raw_ids ->
  let ids := keep_first cell_eqb [] (map remove_first_char raw_ids) in
  ForallOrdPairs (fun a b => cell_eqb b a = false) ids /\
  match clean_customers r h with
  | (Ok (Some out), h') =>
      exists t, nth_error h' out = Some t /\ getitem "customer_id" t = Ok ids
  | _ => True
  end.
Proof.
  intros Hr Hg Hs ids. split; [apply keep_first_pairs|].
  destruct (stripped_surrogates Hs) as [S1 S2]. fold ids in S2.
  assert (E : ensures (at_ref r (fun d => getitem "customer_id" d = Ok raw_ids))
                      (clean_customers r)
                      (returned_satisfies (fun t => getitem "customer_id" t = Ok ids))).
  { unfold clean_customers. apply ensures_try_none.
    next_step.
    { apply ensures_inplace
        with (P' := fun d => getitem "customer_id" d = Ok (map remove_first_char raw_ids)).
      intros d0 d0' H0 Hstep. eapply getitem_apply_col_same; eauto. }
    next_step; [now apply id_column_trim_str_cols|].
    next_step.
    { apply ensures_fresh with (P' := fun d => getitem "customer_id" d = Ok ids).
      intros d0 d0' H0 Hstep. eapply getitem_drop_duplicates; eauto. }
    next_step; [apply id_column_fill_missing_email; discriminate|].
    next_step; [apply id_column_apply_col; discriminate|].
    next_step; [apply id_column_title_col; discriminate|].
    next_step; [apply id_column_apply_col; discriminate|].
    next_step; [now apply id_column_trim_str_cols|].
    next_step; [|apply id_column_returned].
    apply ensures_fresh. intros d0 d0' H0 Hstep.
    now rewrite (@getitem_project_head "customer_id" _ d0 d0' Hstep). }
  specialize (E h (ex_intro _ d (conj Hr Hg))).
  destruct (clean_customers r h) as [[[out|]|] h']; auto.
Qed.

Lemma cleaned_customer_ids_are_unique_witness :
  exists out h' t,
    clean_customers (ext := Sample.libraries) 0 [Sample.customers_two]
    = (Ok (Some out), h') /\
    nth_error h' out = Some t /\
    getitem "customer_id" t = Ok [Str "001"].
Proof.
  pose proof (@cleaned_customer_ids_are_unique Sample.libraries
                [Sample.customers_two] 0%nat Sample.customers_two
                [Str "C001"; Str "K001"] eq_refl eq_refl) as H.
  destruct H as [_ H]; [repeat constructor|].
  destruct (clean_customers (ext := Sample.libraries) 0 [Sample.customers_two])
    as [[[out|]|] h'] eqn:E; try (vm_compute in E; discriminate).
  destruct H as (t & Ht & Hids). exists out, h', t. auto.
Defined.

(** The cleaned products have unique ids, in the same sense: when every
    product id of the raw table, once its type letter is removed, is a text
    without surrounding white space or is missing, the table
    [clean_products] returns has as ids the surrogate ids of the raw table,
    each once, in the order of their first occurrence. *)
Theorem cleaned_product_ids_are_unique {ext : External}
        (h : Heap) (r : ref) (d : DataFrame) (raw_ids : list Cell) :
  nth_error h r = Some d ->
  getitem "product_id" d = Ok raw_ids ->
  Forall (fun c => stripped (remove_first_char c)) raw_ids ->
  let ids := keep_first cell_eqb [] (map remove_first_char raw_ids) in
  ForallOrdPairs (fun a b => cell_eqb b a = false) ids /\
  match clean_products r h with
  | (Ok (Some out), h') =>
      exists t, nth_error h' out = Some t /\ getitem "product_id" t = Ok ids
  | _ => True
  end.
Proof.
  intros Hr Hg Hs ids. split; [apply keep_first_pairs|].
  destruct (stripped_surrogates Hs) as [S1 S2]. fold ids in S2.
  assert (E : ensures (at_ref r (fun d => getitem "product_id" d = Ok raw_ids))
                      (clean_products r)
                      (returned_satisfies (fun t => getitem "product_id" t = Ok ids))).
  { unfold clean_products. apply ensures_try_none.
    next_step.
    { apply ensures_inplace
        with (P' := fun d => getitem "product_id" d = Ok (map remove_first_char raw_ids)).
      intros d0 d0' H0 Hstep. eapply getitem_apply_col_same; eauto. }
    next_step; [now apply id_column_trim_str_cols|].
    next_step.
    { apply ensures_fresh with (P' := fun d => getitem "product_id" d = Ok ids).
      intros d0 d0' H0 Hstep. eapply getitem_drop_duplicates; eauto. }
    next_step; [apply id_column_fill_median; discriminate|].
    next_step; [apply id_column_apply_col; discriminate|].
    next_step; [apply id_column_apply_col; discriminate|].
    next_step; [now apply id_column_trim_str_cols|].
    next_step; [|apply id_column_returned].
    apply ensures_fresh. intros d0 d0' H0 Hstep.
    now rewrite (@getitem_project_head "product_id" _ d0 d0' Hstep). }
  specialize (E h (ex_intro _ d (conj Hr Hg))).
  destruct (clean_products r h) as [[[out|]|] h']; auto.
Qed.

Lemma cleaned_product_ids_are_unique_witness :
  exists out h' t,
    clean_products (ext := Sample.libraries) 0 [Sample.products_three]
    = (Ok (Some out), h') /\
    nth_error h' out = Some t /\
    getitem "product_id" t = Ok [Str "001"; Str "002"; Str "003"].
Proof.
  pose proof (@cleaned_product_ids_are_unique Sample.libraries
                [Sample.products_three] 0%nat Sample.products_three
                [Str "P001"; Str "P002"; Str "P003"] eq_refl eq_refl) as H.
  destruct H as [_ H]; [repeat constructor|].
  destruct (clean_products (ext := Sample.libraries) 0 [Sample.products_three])
    as [[[out|]|] h'] eqn:E; try (vm_compute in E; discriminate).
  destruct H as (t & Ht & Hids). exists out, h', t. auto.
Defined.

(** ** A customers table without any city *)

Lemma textless_other (c : string) (d d' : DataFrame) :
  getitem c d' = getitem c d -> textless c d -> textless c d'.
Proof. intros E (vs & H & Hn & Hs). exists vs. now rewrite E. Qed.

Lemma str_accessor_textless (f : string -> string) (vs : list Cell) :
  vs <> [] -> existsb is_str vs = false -> str_accessor f vs = Raised.
Proof.
  intros Hn Hs. unfold str_accessor. destruct vs; [contradiction|]. now rewrite Hs.
Qed.

Lemma textless_str_step (c col : string) (f : string -> string) (d d' : DataFrame) :
  textless c d ->
  (let? vs := getitem col d in
   let? ws := str_accessor f vs in
   Ok (setitem col ws d)) = Ok d' ->
  textless c d'.
Proof.
  intros (vs & H & Hn & Hs).
  destruct (String.eqb_spec c col) as [<- | Hne].
  - rewrite H. simpl. now rewrite str_accessor_textless.
  - destruct (getitem col d) as [ws|]; [|discriminate]. simpl.
    destruct (str_accessor f ws); [|discriminate]. simpl. intros [= <-].
    exists vs. rewrite getitem_setitem_other; auto.
Qed.

Lemma keep_first_head (A : Type) (same : A -> A -> bool) (x : A) (l : list A) :
  keep_first same [] (x :: l) = x :: keep_first same [x] l.
Proof. reflexivity. Qed.

Lemma existsb_keep_first (A : Type) (p : A -> bool) (same : A -> A -> bool)
      (seen l : list A) :
  existsb p l = false -> existsb p (keep_first same seen l) = false.
Proof.
  revert seen; induction l as [|x l IH]; intros seen; simpl; auto.
  intros H. apply orb_false_iff in H as [Hx Hl].
  destruct (existsb (same x) seen); simpl; rewrite ?Hx; simpl; apply IH; assumption.
Qed.

Lemma existsb_mapped (A B : Type) (p : B -> bool) (f : A -> B) (l : list A) :
  existsb p (map f l) = existsb (fun x => p (f x)) l.
Proof. induction l as [|x l IH]; simpl; auto. now rewrite IH. Qed.

Lemma textless_drop_duplicates (c key : string) (d d' : DataFrame) :
  textless c d -> drop_duplicates [key] d = Ok d' -> textless c d'.
Proof.
  intros (vs & H & Hn & Hs). unfold drop_duplicates. simpl.
  destruct (col_pos key (columns d)) as [k|]; [|discriminate].
  simpl. intros [= <-]. unfold textless, getitem in *. simpl.
  destruct (col_pos c (columns d)) as [n|]; [|discriminate].
  injection H as <-.
  eexists. split; [reflexivity|]. split.
  - destruct (rows d) as [|x l]; [contradiction|]. rewrite keep_first_head. discriminate.
  - rewrite existsb_mapped in *. now apply existsb_keep_first.
Qed.

Section NoCity.

Context {ext : External}.

Lemma textless_trim_str_cols (c : string) (r : ref) :
  ensures (at_ref r (textless c)) (trim_str_cols r) (fun a => at_ref a (textless c)).
Proof.
  apply ensures_returning; [|apply returns_trim].
  unfold trim_str_cols.
  apply preserves_try; [|apply preserves_ret].
  apply preserves_bind; [apply preserves_read|]. intros d.
  apply preserves_bind; [|intros; apply preserves_ret].
  apply preserves_for_each. intros col. apply at_ref_inplace.
  intros d0 d0' H0 Hstep. eapply textless_str_step; eauto.
Qed.

Lemma textless_fill_missing_email (c : string) (r : ref) :
  c <> "email" ->
  ensures (at_ref r (textless c)) (fill_missing_email r)
          (fun a => at_ref a (textless c)).
Proof.
  intros Hne. apply ensures_returning; [|apply returns_fill_email].
  unfold fill_missing_email.
  apply preserves_try; [|apply preserves_ret].
  apply preserves_bind; [|intros; apply preserves_ret].
  apply at_ref_inplace. intros d d' H Hstep.
  eapply textless_other; [|exact H]. now apply (@getitem_email _ c d d').
Qed.

Lemma textless_apply_col (c c' : string) (g : Cell -> Cell) (r : ref) :
  c <> c' ->
  ensures (at_ref r (textless c)) (inplace r (apply_col c' g))
          (fun _ => at_ref r (textless c)).
Proof.
  intros Hne. apply ensures_inplace. intros d d' H Hstep.
  eapply textless_other; [|exact H]. now apply (@getitem_apply_col_other c c' g d d').
Qed.

Lemma textless_title_col (c : string) (r : ref) (Q : unit -> Heap -> Prop) :
  ensures (at_ref r (textless c)) (inplace r (title_col c)) Q.
Proof.
  intros h (d & Hd & vs & Hg & Hn & Hs). rewrite inplace_run, Hd.
  unfold title_col. rewrite Hg. simpl. now rewrite str_accessor_textless.
Qed.

(** A customers table in which no customer has a city is rejected as a
    whole.  When the table has rows and its [city] column holds no text
    (every city is missing, or a number), the title-casing of the cities
    fails, the handler runs and [clean_customers] returns nothing: no
    customer of the file is loaded. *)
Theorem customers_without_any_city_are_rejected
        (h : Heap) (r : ref) (d : DataFrame) (cities : list Cell) :
  nth_error h r = Some d ->
  getitem "city" d = Ok cities ->
  cities <> [] ->
  existsb is_str cities = false ->
  fst (clean_customers r h) = Ok None.
Proof.
  intros Hr Hg Hn Hs.
  assert (E : ensures (at_ref r (textless "city")) (clean_customers r)
                      (fun o _ => o = None)).
  { unfold clean_customers.
    intros h0 H0. unfold try_except.
    assert (B : ensures (at_ref r (textless "city"))
                  (inplace r (apply_col "customer_id" remove_first_char) ;;
                   customers_df <- trim_str_cols r ;;
                   customers_df <- fresh customers_df (drop_duplicates ["customer_id"]) ;;
                   customers_df <- fill_missing_email customers_df ;;
                   inplace customers_df (apply_col "phone" standardize_phone) ;;
                   inplace customers_df (title_col "city") ;;
                   inplace customers_df
                     (apply_col "registration_date" standardize_date) ;;
                   customers_df <- trim_str_cols customers_df ;;
                   out <- fresh customers_df (project customer_columns) ;;
                   ret (Some out))
                  (fun _ _ => False)).
    { eapply ensures_bind; [apply textless_apply_col; discriminate|]. intros ?.
      eapply ensures_bind; [apply textless_trim_str_cols|]. intros r2.
      eapply ensures_bind.
      { apply ensures_fresh with (P' := textless "city").
        intros d0 d0' P0 Hstep. eapply textless_drop_duplicates; eauto. }
      intros r3.
      eapply ensures_bind; [apply textless_fill_missing_email; discriminate|].
      intros r4.
      eapply ensures_bind; [apply textless_apply_col; discriminate|]. intros ?.
      eapply ensures_bind; [apply textless_title_col with (Q := fun _ _ => False)|].
      intros ? h1 []. }
    specialize (B h0 H0).
    match goal with |- match (match ?m with _ => _ end) with _ => _ end =>
      destruct m as [[o|] h1] end; [contradiction | reflexivity]. }
  specialize (E h (ex_intro _ d (conj Hr (ex_intro _ cities (conj Hg (conj Hn Hs)))))).
  destruct (total_clean_customers r h) as (o & h' & Ho).
  rewrite Ho in *. simpl. now subst.
Qed.

End NoCity.

Lemma customers_without_any_city_are_rejected_witness :
  fst (clean_customers (ext := Sample.libraries) 0 [customers_without_city]) = Ok None.
Proof.
  apply (@customers_without_any_city_are_rejected Sample.libraries
           [customers_without_city] 0%nat customers_without_city [NaN; NaN]);
    try reflexivity.
  discriminate.
Defined.
